(** * MKVScanner: the rendition generation pipeline of [src/index.ts]

    A shallow embedding of [createStreaming] and of the helpers it relies
    on ([tmp], [videoProgress], the scheduling closure [checkQueue] with
    [startTask] and [cleanUpAndFail], the audio loop, the manifest
    fix-up), of [escapeArg], and of [stripFormatting] and [monitorProcess]
    of [process-util], followed by the properties of the specification
    that are stated about them and by further properties of the code.

    Conventions of the embedding.
    - JavaScript strings are sequences of 8-bit characters: [string] for
      paths and names, [list ascii] where a regular expression walks the
      text.
    - JavaScript numbers are exact: integers in [Z], the others in [Q].
    - [Map] objects are [gmap]s.
    - Regular expressions are values of [re], run by a backtracking
      matcher with the priorities of the JavaScript one. *)

From Stdlib Require Import ZArith QArith Qround List Ascii String Bool Lia.
From stdpp Require Import base option gmap strings pretty.
Import ListNotations.

Local Open Scope string_scope.
Local Open Scope list_scope.
Local Open Scope Z_scope.

(* ------------------------------------------------------------------ *)
(** * Texts and regular expressions *)

Definition text := list ascii.

Definition txt (s : string) : text := list_ascii_of_string s.
Definition str (t : text) : string := string_of_list_ascii t.

Definition code (a : ascii) : N := N_of_ascii a.

Definition inRange (lo hi : string) (a : ascii) : bool :=
  match lo, hi with
  | String l _, String u _ => ((code l <=? code a) && (code a <=? code u))%N
  | _, _ => false
  end.

Definition oneOf (s : string) (a : ascii) : bool :=
  existsb (Ascii.eqb a) (txt s).

(** [\d], [\w], [\s] and [.] *)
Definition isDigit (a : ascii) : bool := inRange "0" "9" a.
Definition isWord (a : ascii) : bool :=
  inRange "a" "z" a || inRange "A" "Z" a || isDigit a || oneOf "_" a.
Definition isSpace (a : ascii) : bool :=
  ((9 <=? code a) && (code a <=? 13) || (code a =? 32) || (code a =? 160))%N.
Definition isLineTerminator (a : ascii) : bool :=
  ((code a =? 10) || (code a =? 13))%N.
Definition dot (a : ascii) : bool := negb (isLineTerminator a).

(** The fragment of the regular-expression syntax that the source uses.
    [Many g p] is [p*] ([g = true]) or [p*?] ([g = false]) over a
    one-character class; [p+] is written [Cat (Cls p) (Many g p)]. *)
Inductive re : Type :=
| Lit (s : string)
| Cls (p : ascii -> bool)
| Many (greedy : bool) (p : ascii -> bool)
| Cat (r1 r2 : re)
| Grp (n : nat) (r : re)
| Opt (r : re)
| Eos.

Definition Plus (g : bool) (p : ascii -> bool) : re := Cat (Cls p) (Many g p).

Fixpoint cats (rs : list re) : re :=
  match rs with
  | [] => Lit ""
  | [r] => r
  | r :: rs' => Cat r (cats rs')
  end.

Definition caps := list (nat * text).

Fixpoint group (n : nat) (c : caps) : option text :=
  match c with
  | [] => None
  | (m, t) :: c' => if Nat.eqb n m then Some t else group n c'
  end.

Fixpoint stripPrefix (p s : text) : option text :=
  match p, s with
  | [], _ => Some s
  | a :: p', b :: s' => if Ascii.eqb a b then stripPrefix p' s' else None
  | _ :: _, [] => None
  end.

Section Matcher.
Context {A : Type}.

Fixpoint manyGreedy (p : ascii -> bool) (k : text -> option A) (s : text)
  : option A :=
  match s with
  | a :: s' =>
      if p a then
        match manyGreedy p k s' with
        | Some x => Some x
        | None => k s
        end
      else k s
  | [] => k []
  end.

Fixpoint manyLazy (p : ascii -> bool) (k : text -> option A) (s : text)
  : option A :=
  match k s with
  | Some x => Some x
  | None =>
      match s with
      | a :: s' => if p a then manyLazy p k s' else None
      | [] => None
      end
  end.

(** [exec r s c k] matches [r] at the head of [s] and hands the rest of
    the input and the captures to [k]; when [k] fails the matcher
    backtracks into [r]. *)
Fixpoint exec (r : re) (s : text) (c : caps)
         (k : text -> caps -> option A) {struct r} : option A :=
  match r with
  | Lit t =>
      match stripPrefix (txt t) s with
      | Some s' => k s' c
      | None => None
      end
  | Cls p =>
      match s with
      | a :: s' => if p a then k s' c else None
      | [] => None
      end
  | Many true p => manyGreedy p (fun s' => k s' c) s
  | Many false p => manyLazy p (fun s' => k s' c) s
  | Cat r1 r2 => exec r1 s c (fun s' c' => exec r2 s' c' k)
  | Grp n r =>
      exec r s c
        (fun s' c' => k s' ((n, firstn (length s - length s') s) :: c'))
  | Opt r =>
      match exec r s c k with
      | Some x => Some x
      | None => k s c
      end
  | Eos =>
      match s with
      | [] => k [] c
      | _ :: _ => None
      end
  end.
End Matcher.

(** A match anchored at the head of [s]: its length and its captures. *)
Definition matchAt (r : re) (s : text) : option (nat * caps) :=
  exec r s [] (fun s' c => Some ((length s - length s')%nat, c)).

(** [RegExp.prototype.exec]: the leftmost match. *)
Fixpoint searchFrom (r : re) (i : nat) (s : text) : option (nat * nat * caps) :=
  match matchAt r s with
  | Some (n, c) => Some (i, n, c)
  | None =>
      match s with
      | [] => None
      | _ :: s' => searchFrom r (S i) s'
      end
  end.

Definition regexExec (r : re) (s : text) : option caps :=
  match searchFrom r 0 s with
  | Some (_, _, c) => Some c
  | None => None
  end.

Definition regexTest (r : re) (s : text) : bool :=
  match searchFrom r 0 s with Some _ => true | None => false end.

(** [String.prototype.replace] with a regular expression without the [g]
    flag: the leftmost match is replaced by [f matched captures]. *)
Definition replaceFirst (r : re) (f : text -> caps -> text) (s : text) : text :=
  match searchFrom r 0 s with
  | Some (i, n, c) =>
      firstn i s ++ f (firstn n (skipn i s)) c ++ skipn (i + n) s
  | None => s
  end.

(** [String.prototype.replace] with the [g] flag. [skip] counts the
    characters of the last match that are still to be passed over. *)
Fixpoint replaceAll (r : re) (f : text -> caps -> text) (skip : nat) (s : text)
  : text :=
  match skip with
  | S j =>
      match s with
      | [] => []
      | _ :: s' => replaceAll r f j s'
      end
  | O =>
      match matchAt r s with
      | Some (n, c) =>
          f (firstn n s) c ++
          match s with
          | [] => []
          | a :: s' =>
              match n with
              | O => a :: replaceAll r f 0 s'
              | S j => replaceAll r f j s'
              end
          end
      | None =>
          match s with
          | [] => []
          | a :: s' => a :: replaceAll r f 0 s'
          end
      end
  end.

(* ------------------------------------------------------------------ *)
(** * Helpers of [index.ts] and of its libraries *)

(** [tmp]: [file.replace(/(\.\w+)$/, '.tmp$1')]. *)
Definition reTmp : re := cats [Grp 1 (Cat (Lit ".") (Plus true isWord)); Eos].

Definition tmp (file : string) : string :=
  str (replaceFirst reTmp
         (fun _ c => txt ".tmp" ++ default [] (group 1 c)) (txt file)).

(** [toInt] of [@tubular/util] on a string, with its default 0: the value
    of a string that is an integer numeral (an optional sign and one digit
    or more, leading zeros allowed) and 0 for every other string, so that
    white space, a fraction or any other character inside the string gives
    0 and not the value of the digits before it. *)
Fixpoint digitsValue (acc : Z) (s : text) : Z :=
  match s with
  | a :: s' =>
      if isDigit a then digitsValue (10 * acc + Z.of_N (code a - 48)) s'
      else acc
  | [] => acc
  end.

Definition isNumeral (s : text) : bool :=
  match s with
  | [] => false
  | _ :: _ => forallb isDigit s
  end.

Definition toInt (s : text) : Z :=
  match s with
  | "-"%char :: s' => if isNumeral s' then - digitsValue 0 s' else 0
  | "+"%char :: s' => if isNumeral s' then digitsValue 0 s' else 0
  | _ => if isNumeral s then digitsValue 0 s else 0
  end.

(** Comparisons of numbers. *)
Definition Qlt_bool (a b : Q) : bool := negb (Qle_bool b a).

(* ------------------------------------------------------------------ *)
(** * The rendition planner (the head of [createStreaming]) *)

Record Resolution := { w : Q; h : Z }.

Definition resolutions : list Resolution :=
  [ {| w := 1920; h := 1080 |}; {| w := 1280; h := 720 |};
    {| w := 85333 # 100; h := 480 |}; {| w := 640; h := 360 |};
    {| w := 569; h := 320 |} ].

Record VideoRender := {
  args : list string;
  name : string;
  process : option nat;
  tries : Z;
  videoPath : string
}.

Section Planner.
(** What the closures capture: the classification of the asset, the pixel
    dimensions [pw] x [ph] of its video track (the source's [w] and [h]),
    whether there is a video track at all, and the three presence flags. *)
Variables (isMovie isExtra : bool) (pw ph : Z) (hasVideo : bool).
Variables (hasDesktopVideo hasMobile hasSample : bool).

Definition shouldSkipVideo (streamW : Q) (streamH : Z) : bool :=
  (negb isMovie && (streamH =? 1080)) || (isExtra && (streamH >? 480)) ||
  (Qlt_bool (inject_Z pw * (5 # 4)) streamW &&
   Qlt_bool (inject_Z ph * (5 # 4)) (inject_Z streamH)) ||
  (hasDesktopVideo && (streamH >=? 480)) || (hasMobile && (streamH =? 360)) ||
  (hasSample && (streamH =? 320)).

Definition videoCount : Z :=
  if hasVideo then
    fold_left
      (fun total r => total + (if shouldSkipVideo (w r) (h r) then 0 else 1))
      resolutions 0
  else 0.

Definition groupedVideoCount : Z :=
  videoCount - (if hasMobile || negb hasVideo then 0 else 1)
             - (if hasSample || negb hasVideo then 0 else 1).

(** The guard of the manifest step: [groupedVideoCount > 1]. *)
Definition needsManifest : bool := groupedVideoCount >? 1.

(** The loop that fills [videoQueue] and [dashVideos]. [present] tells
    which paths exist when the loop looks; [ffmpegArgs] stands for the
    command line that the loop assembles for a rendition. *)
Variable mpdRoot : string.
Variable present : string -> bool.
Variable ffmpegArgs : Resolution -> string -> list string.

Definition small (r : Resolution) : bool := h r <? 480.

Definition ext (r : Resolution) : string :=
  if small r then (if h r =? 320 then "sample.mp4" else "mobile.mp4")
  else "webm".

Definition renditionPath (r : Resolution) : string :=
  mpdRoot +:+
  (if small r then ""
   else "." +:+ (if groupedVideoCount =? 1 then "av" else "v" +:+ pretty (h r)))
  +:+ "." +:+ ext r.

Definition planStep (acc : list string * list VideoRender) (r : Resolution)
  : list string * list VideoRender :=
  let '(dashVideos, videoQueue) := acc in
  if shouldSkipVideo (w r) (h r) then acc
  else
    let videoPath := renditionPath r in
    let dashVideos := if small r then dashVideos else dashVideos ++ [videoPath] in
    if present videoPath then (dashVideos, videoQueue)
    else
      (dashVideos,
       videoQueue ++
       [ {| args := ffmpegArgs r videoPath; name := pretty (h r) +:+ "p";
            process := None; tries := 0; videoPath := videoPath |} ]).

Definition plan : list string * list VideoRender :=
  fold_left planStep resolutions ([], []).

(** [dashVideos] and [videoQueue] when the loop is over. *)
Definition plannedDashVideos : list string := fst plan.
Definition plannedQueue : list VideoRender := snd plan.
End Planner.

(* ------------------------------------------------------------------ *)
(** * Errors and results *)

Inductive error : Type :=
| TypeError (message : string)
| ProcessError (message : string) (exitCode : Z)
| SystemError (message : string).

Inductive result (A : Type) : Type :=
| Ok (a : A)
| Throw (e : error).
Arguments Ok {A} a.
Arguments Throw {A} e.

(* ------------------------------------------------------------------ *)
(** * The progress aggregator: [videoProgress] *)

(** The maps are optional in the interface and created on first use. The
    status line ([lastOutput] and the writes to the terminal) only reads
    the maps and is left out. A division by zero gives [Infinity] or [NaN]
    in JavaScript and 0 here: the percentages agree for a positive
    [duration], and [speed], which divides by the time elapsed, only feeds
    the status line. *)
Record VideoProgress := {
  duration : Q;
  percent : option (gmap string Q);
  speed : option (gmap string Q);
  errors : option (gmap string Z);
  starts : option (gmap string Z);
  readFromError : bool
}.

(** [/task.+,\s*(\d+\.\d+)\s*%/] *)
Definition rePercent : re :=
  cats [ Lit "task"; Plus true dot; Lit ","; Many true isSpace;
         Grp 1 (cats [Plus true isDigit; Lit "."; Plus true isDigit]);
         Many true isSpace; Lit "%" ].

(** [/time=(\d\d):(\d\d):(\d\d(\.\d+)?)/] *)
Definition reTime : re :=
  cats [ Lit "time="; Grp 1 (Cat (Cls isDigit) (Cls isDigit)); Lit ":";
         Grp 2 (Cat (Cls isDigit) (Cls isDigit)); Lit ":";
         Grp 3 (cats [ Cls isDigit; Cls isDigit;
                       Opt (Grp 4 (Cat (Lit ".") (Plus true isDigit))) ]) ].

(** [toNumber] of [@tubular/util] on a decimal numeral [\d+\.\d+]. *)
Fixpoint fraction (s : text) : Q :=
  match s with
  | a :: s' =>
      if isDigit a then (inject_Z (Z.of_N (code a - 48)) + fraction s') / 10
      else 0
  | [] => 0
  end.

Fixpoint afterDigits (s : text) : text :=
  match s with
  | a :: s' => if isDigit a then afterDigits s' else s
  | [] => []
  end.

Definition toNumber (s : text) : Q :=
  (inject_Z (digitsValue 0 s) +
   match afterDigits s with
   | "."%char :: f => fraction f
   | _ => 0
   end)%Q.

(** [round(x, multiple)] and [min] of [@tubular/math]: the multiple of
    [multiple] nearest to [x]. The arithmetic is exact here; the code
    computes with binary64 numbers, so that next to a tie (an [x] halfway
    between two multiples) it can take the other neighbour, as it does for
    1.25 and 0.1. No statement below rests on the side that a tie takes. *)
Definition round (x multiple : Q) : Q :=
  (inject_Z (Qfloor (x / multiple + (1 # 2))) * multiple)%Q.

Definition min (a b : Q) : Q := if Qle_bool a b then a else b.

Definition capture (n : nat) (c : caps) : text := default [] (group n c).

(** The number that a progress line denotes, if it has a marker:
    [percentStr] after the two [exec] calls, as a number. *)
Definition marker (localDuration : Q) (data : text) : option Q :=
  match regexExec rePercent data with
  | Some c => Some (toNumber (capture 1 c))
  | None =>
      match regexExec reTime data with
      | Some c =>
          Some (inject_Z ((toInt (capture 1 c) * 3600 + toInt (capture 2 c) * 60
                           + toInt (capture 3 c)) * 100000) / localDuration)%Q
      | None => None
      end
  end.

Definition isEmpty (data : text) : bool :=
  match data with [] => true | _ => false end.

(** [now] is the value of [Date.now()] during the call. *)
Definition videoProgress (now : Z) (data : text) (stream : Z) (name : string)
           (done : bool) (progress : option VideoProgress)
  : result VideoProgress :=
  match progress with
  | None => Throw (TypeError "Cannot read properties of undefined")
  | Some p =>
      let percent0 := default ∅ (percent p) in
      let speed0 := default ∅ (speed p) in
      let errors0 := default ∅ (errors p) in
      let starts0 := default ∅ (starts p) in
      if (stream =? 0) || (negb (isEmpty data) && readFromError p) || done then
        let localDuration :=
          if String.eqb name "320p" then 180000%Q else duration p in
        let m := marker localDuration data in
        let errors1 :=
          if done && (stream >? 0)
          then <[name := default 0 (errors0 !! name) + 1]> errors0
          else errors0 in
        let starts1 :=
          if done && (stream >? 0) then starts0
          else if done && (stream <? 0) then delete name starts0
          else starts0 in
        if (match m with Some _ => true | None => false end)
           || (done && (stream <=? 0)) then
          let percentV : Q :=
            if stream <? 0 then (-1)%Q
            else if done then 100%Q
            else min (round (default 0%Q m) (1 # 10)) (999 # 10) in
          let lastPercent := default (-1)%Q (percent0 !! name) in
          let start := default now (starts1 !! name) in
          let starts2 :=
            match starts1 !! name with
            | Some _ => starts1
            | None => <[name := now]> starts1
            end in
          if negb (Qeq_bool lastPercent percentV) then
            let elapsed := now - start in
            Ok {| duration := duration p;
                  percent := Some (<[name := percentV]> percent0);
                  speed := Some (<[name :=
                             if stream <? 0 then (-1)%Q
                             else (localDuration * percentV / 100
                                   / inject_Z elapsed)%Q]> speed0);
                  errors := Some errors1;
                  starts := Some starts2;
                  readFromError := readFromError p |}
          else
            Ok {| duration := duration p; percent := Some percent0;
                  speed := Some speed0; errors := Some errors1;
                  starts := Some starts2; readFromError := readFromError p |}
        else
          Ok {| duration := duration p; percent := Some percent0;
                speed := Some speed0; errors := Some errors1;
                starts := Some starts1; readFromError := readFromError p |}
      else
        Ok {| duration := duration p; percent := Some percent0;
              speed := Some speed0; errors := Some errors0;
              starts := Some starts0; readFromError := readFromError p |}
  end.

(* ------------------------------------------------------------------ *)
(** * The task scheduler: the promise body of [createStreaming]

    The closure variables [videoQueue], [redoQueue], [running] and
    [progress] are the fields of the state. A spawned process is known to
    the event loop until its promise settles: [live] holds the tasks whose
    process is running, [renaming] the tasks whose process exited with
    code 0 and whose [rename] is in flight, each with the branch of
    [checkQueue] that dispatched it. [timers] holds the callbacks that
    [cleanUpAndFail] handed to [setTimeout], [settled] the state of the
    promise, [spawned] the log of [spawn] calls, [killed] the processes
    that were sent a kill and [renamed] the renames that succeeded. *)

Definition simultaneousMax : Z := 6.
Definition maxTries : Z := 6.

Inductive branch := Parallel | Redo.

Record Sched := {
  videoQueue : list VideoRender;
  redoQueue : list VideoRender;
  running : Z;
  progress : VideoProgress;
  live : list (VideoRender * branch);
  renaming : list (VideoRender * branch);
  timers : list error;
  settled : option (result unit);
  spawned : list (string * list string);
  killed : list nat;
  renamed : list (string * string)
}.

Definition withQueues (vq rq : list VideoRender) (st : Sched) : Sched :=
  {| videoQueue := vq; redoQueue := rq; running := running st;
     progress := progress st; live := live st; renaming := renaming st;
     timers := timers st; settled := settled st; spawned := spawned st;
     killed := killed st; renamed := renamed st |}.

Definition withRunning (n : Z) (st : Sched) : Sched :=
  {| videoQueue := videoQueue st; redoQueue := redoQueue st; running := n;
     progress := progress st; live := live st; renaming := renaming st;
     timers := timers st; settled := settled st; spawned := spawned st;
     killed := killed st; renamed := renamed st |}.

Definition withProgress (p : VideoProgress) (st : Sched) : Sched :=
  {| videoQueue := videoQueue st; redoQueue := redoQueue st;
     running := running st; progress := p; live := live st;
     renaming := renaming st; timers := timers st; settled := settled st;
     spawned := spawned st; killed := killed st; renamed := renamed st |}.

Definition withFlight (l r : list (VideoRender * branch)) (st : Sched) : Sched :=
  {| videoQueue := videoQueue st; redoQueue := redoQueue st;
     running := running st; progress := progress st; live := l;
     renaming := r; timers := timers st; settled := settled st;
     spawned := spawned st; killed := killed st; renamed := renamed st |}.

(** [resolve()] and [reject(err)]: only the first call settles. *)
Definition settle (r : result unit) (st : Sched) : Sched :=
  {| videoQueue := videoQueue st; redoQueue := redoQueue st;
     running := running st; progress := progress st; live := live st;
     renaming := renaming st; timers := timers st;
     settled := match settled st with Some r0 => Some r0 | None => Some r end;
     spawned := spawned st; killed := killed st; renamed := renamed st |}.

Definition withProcess (p : option nat) (t : VideoRender) : VideoRender :=
  {| args := args t; name := name t; process := p; tries := tries t;
     videoPath := videoPath t |}.

Definition withTries (n : Z) (t : VideoRender) : VideoRender :=
  {| args := args t; name := name t; process := process t; tries := n;
     videoPath := videoPath t |}.

(** [startTask]: the process is spawned and monitored. *)
Definition startTask (b : branch) (task : VideoRender) (st : Sched) : Sched :=
  {| videoQueue := videoQueue st; redoQueue := redoQueue st;
     running := running st; progress := progress st;
     live := live st ++ [(withProcess (Some (length (spawned st))) task, b)];
     renaming := renaming st; timers := timers st; settled := settled st;
     spawned := spawned st ++ [("ffmpeg", args task)];
     killed := killed st; renamed := renamed st |}.

(** [Array.prototype.pop]: the last element and the others. *)
Definition pop {A} (l : list A) : option (A * list A) :=
  match last l with
  | Some a => Some (a, removelast l)
  | None => None
  end.

(** [checkQueue]; the recursion is on the calls that dispatch from
    [videoQueue], one for each task in it at most. *)
Fixpoint checkQueueFuel (fuel : nat) (st : Sched) : Sched :=
  match fuel with
  | O => st
  | S fuel' =>
      if (running st <? simultaneousMax) && (0 <? Z.of_nat (length (videoQueue st)))
      then
        match pop (videoQueue st) with
        | Some (task, rest) =>
            checkQueueFuel fuel'
              (startTask Parallel task
                 (withRunning (running st + 1) (withQueues rest (redoQueue st) st)))
        | None => st
        end
      else if (running st =? 0) && (0 <? Z.of_nat (length (redoQueue st))) then
        match redoQueue st with
        | task :: rest => startTask Redo task (withQueues (videoQueue st) rest st)
        | [] => st
        end
      else if running st =? 0 then settle (Ok tt) st
      else st
  end.

Definition checkQueue (st : Sched) : Sched :=
  checkQueueFuel (S (length (videoQueue st))) st.

(** [cleanUpAndFail]: the work is deferred with [setTimeout]. *)
Definition cleanUpAndFail (err : error) (st : Sched) : Sched :=
  {| videoQueue := videoQueue st; redoQueue := redoQueue st;
     running := running st; progress := progress st; live := live st;
     renaming := renaming st; timers := timers st ++ [err];
     settled := settled st; spawned := spawned st; killed := killed st;
     renamed := renamed st |}.

Definition handles (q : list VideoRender) : list nat :=
  omap process q.

Definition cleanUpAndFailTimeout (err : error) (st : Sched) : Sched :=
  let vq := videoQueue st ++ redoQueue st in
  settle (Throw err)
    {| videoQueue := vq; redoQueue := redoQueue st; running := running st;
       progress := progress st; live := live st; renaming := renaming st;
       timers := timers st; settled := settled st; spawned := spawned st;
       killed := killed st ++ handles vq; renamed := renamed st |}.

(** The progress record after a call of [videoProgress] made by the
    scheduler; the record is always there, so the call returns. *)
Definition report (now : Z) (data : text) (stream : Z) (name : string)
           (done : bool) (st : Sched) : Sched :=
  match videoProgress now data stream name done (Some (progress st)) with
  | Ok p => withProgress p st
  | Throw _ => st
  end.

(** [progress.percent?.get(task.name) || 0] *)
Definition percentDone (st : Sched) (task : VideoRender) : Q :=
  default 0%Q (percent (progress st) ≫= (fun m => m !! name task)).

(** The test that sends a failed parallel task back to [videoQueue]:
    [++task.tries < maxTries * 3 / 4 && percentDone < 10
       || task.tries < maxTries / 2], on the incremented [tries]. *)
Definition retryInParallel (tries : Z) (percentDone : Q) : bool :=
  (Qlt_bool (inject_Z tries) (inject_Z maxTries * 3 / 4)
   && Qlt_bool percentDone 10)
  || Qlt_bool (inject_Z tries) (inject_Z maxTries / 2).

(** The [catch] callback of a task dispatched from [videoQueue]. *)
Definition parallelFailed (now : Z) (task : VideoRender) (st : Sched) : Sched :=
  let task := withProcess None task in
  let st := withRunning (running st - 1) st in
  let pd := percentDone st task in
  let task := withTries (tries task + 1) task in
  if retryInParallel (tries task) pd then
    checkQueue
      (report now [] (-1) (name task) true
         (withQueues (task :: videoQueue st) (redoQueue st) st))
  else
    checkQueue
      (report now [] (-1) (name task) true
         (withQueues (videoQueue st) (redoQueue st ++ [task]) st)).

(** The [catch] callback of a task dispatched from [redoQueue]. *)
Definition redoFailed (now : Z) (err : error) (task : VideoRender) (st : Sched)
  : Sched :=
  let task := withTries (tries task + 1) task in
  if tries task <? maxTries then
    let task := withProcess None task in
    checkQueue
      (report now [] (-1) (name task) true
         (withQueues (videoQueue st) (redoQueue st ++ [task]) st))
  else cleanUpAndFail err st.

Definition failed (now : Z) (err : error) (tb : VideoRender * branch)
           (st : Sched) : Sched :=
  match snd tb with
  | Parallel => parallelFailed now (fst tb) st
  | Redo => redoFailed now err (fst tb) st
  end.


(** What the event loop delivers to the scheduler. [i] counts in [live]
    (or in [renaming] for [Renamed]); [now] is [Date.now()] at delivery.
    - [Output]: a chunk on stdout ([stream = 0]) or stderr ([stream = 1]);
    - [Exit]: the process exited with [code], [errors] is the error text
      that [monitorProcess] collected;
    - [SpawnError]: the process emitted ['error'];
    - [Renamed]: the [rename] of the finished file settled, with its error
      if it was rejected;
    - [TimerFired]: a callback of [setTimeout] is run. *)
Inductive event : Type :=
| Output (i : nat) (stream : Z) (data : text) (now : Z)
| Exit (i : nat) (code : Z) (errors : string) (now : Z)
| SpawnError (i : nat) (message : string) (now : Z)
| Renamed (i : nat) (err : option error) (now : Z)
| TimerFired.

Definition logRename (err : option error) (t : VideoRender) (st : Sched)
  : Sched :=
  {| videoQueue := videoQueue st; redoQueue := redoQueue st;
     running := running st; progress := progress st; live := live st;
     renaming := renaming st; timers := timers st; settled := settled st;
     spawned := spawned st; killed := killed st;
     renamed := match err with
                | None => renamed st ++ [(tmp (videoPath t), videoPath t)]
                | Some _ => renamed st
                end |}.

Definition withTimers (l : list error) (st : Sched) : Sched :=
  {| videoQueue := videoQueue st; redoQueue := redoQueue st;
     running := running st; progress := progress st; live := live st;
     renaming := renaming st; timers := l; settled := settled st;
     spawned := spawned st; killed := killed st; renamed := renamed st |}.

(** The callbacks: the listeners that [monitorProcess] installs, then the
    [then], [finally] and [catch] callbacks of [checkQueue]. *)
Definition deliver (e : event) (st : Sched) : Sched :=
  match e with
  | Output i stream data now =>
      match live st !! i with
      | Some tb => report now data stream (name (fst tb)) false st
      | None => st
      end
  | Exit i code errors now =>
      match live st !! i with
      | Some tb =>
          let st := report now (txt (pretty code))
                      (if code =? 0 then 0 else -1) (name (fst tb)) true st in
          if code =? 0 then
            withFlight (delete i (live st)) (renaming st ++ [tb]) st
          else
            failed now
              (ProcessError
                 (if String.eqb errors "" then pretty code else errors) code)
              tb (withFlight (delete i (live st)) (renaming st) st)
      | None => st
      end
  | SpawnError i message now =>
      match live st !! i with
      | Some tb =>
          let st := report now (txt message) (-1) (name (fst tb)) true st in
          failed now (SystemError message) tb
            (withFlight (delete i (live st)) (renaming st) st)
      | None => st
      end
  | Renamed i err now =>
      match renaming st !! i with
      | Some tb =>
          let st := withFlight (live st) (delete i (renaming st)) st in
          let st := logRename err (fst tb) st in
          match snd tb with
          | Parallel => checkQueue (withRunning (running st - 1) st)
          | Redo =>
              let st := checkQueue st in
              match err with
              | None => st
              | Some e => redoFailed now e (fst tb) st
              end
          end
      | None => st
      end
  | TimerFired =>
      match timers st with
      | err :: rest => cleanUpAndFailTimeout err (withTimers rest st)
      | [] => st
      end
  end.

(** A run of the scheduler is followed until its promise settles. *)
Definition step (st : Sched) (e : event) : Sched :=
  match settled st with
  | Some _ => st
  | None => deliver e st
  end.

(** The state when the promise body has run: the first [checkQueue()]. *)
Definition schedule (queue : list VideoRender) (p : VideoProgress) : Sched :=
  checkQueue
    {| videoQueue := queue; redoQueue := []; running := 0; progress := p;
       live := []; renaming := []; timers := []; settled := None;
       spawned := []; killed := []; renamed := [] |}.

Definition runEvents (st : Sched) (es : list event) : Sched :=
  fold_left step es st.

Inductive reachable (queue : list VideoRender) (p : VideoProgress)
  : Sched -> Prop :=
| reach_start : reachable queue p (schedule queue p)
| reach_step st e :
    reachable queue p st -> settled st = None ->
    reachable queue p (deliver e st).

(* ------------------------------------------------------------------ *)
(** * The manifest fix-up *)

(** [/(<BaseURL>).*[/\\](.*?)(<\/BaseURL>)/g] *)
Definition isSeparator (a : ascii) : bool := oneOf "/\" a.

Definition reBaseURL : re :=
  cats [ Grp 1 (Lit "<BaseURL>"); Many true dot; Cls isSeparator;
         Grp 2 (Many false dot); Grp 3 (Lit "</BaseURL>") ].

(** [/[&<>]/] and [/&[#a-z0-9]+;/] *)
Definition reMarkup : re := Cls (oneOf "&<>").

Definition reEntity : re :=
  cats [ Lit "&";
         Plus true (fun a => oneOf "#" a || inRange "a" "z" a || isDigit a);
         Lit ";" ].

Section Manifest.
(** [htmlEscape] of [@tubular/util]. *)
Variable htmlEscape : text -> text.

(** The body of the replacement callback, on [$2]. *)
Definition fixPath (path : text) : text :=
  if regexTest reMarkup path && negb (regexTest reEntity path)
  then htmlEscape path else path.

Definition fixManifest (content : text) : text :=
  replaceAll reBaseURL
    (fun _ c => capture 1 c ++ fixPath (capture 2 c) ++ capture 3 c)
    0 content.
End Manifest.

(** The usual escaping of the three markup characters, to run examples. *)
Definition escapeMarkup (s : text) : text :=
  flat_map (fun a =>
    if Ascii.eqb a "&" then txt "&amp;"
    else if Ascii.eqb a "<" then txt "&lt;"
    else if Ascii.eqb a ">" then txt "&gt;"
    else [a]) s.

(* ------------------------------------------------------------------ *)
(** * The world of [createStreaming]: files and external processes *)

Record AudioTrack := { codec : string; audio_channels : Z }.

(** [pixel_dimensions] and [display_dimensions] are held as the pairs that
    [split('x').map(d => toInt(d))] makes of them. *)
Record VideoTrack := {
  pixel_dimensions : Z * Z;
  display_dimensions : Z * Z;
  stereo_mode : option Z
}.

Record SubtitlesTrack := { track_name : option string; forced_track : bool }.

(** [files] maps the paths that exist to their content, [history] keeps
    every state that the directory went through, [spawns] logs the calls
    of [spawn]. *)
Record World := {
  files : gmap string text;
  history : list (gmap string text);
  spawns : list (string * list string)
}.

(** How the outside behaves during one call: the outcome of each run of
    the audio encoder, the events that reach the scheduler, what the
    multiplexer leaves in the temporary manifest, and what a run of
    [ffmpeg] that fails has written to its output path by then, if it has
    written anything, for each command line. *)
Record Env := {
  audioRuns : list (option error);
  events : list event;
  mux : result text;
  leftover : list string -> option text
}.

(** A call returns, throws, or waits for a promise that never settles. *)
Inductive completion (A : Type) : Type :=
| Returned (a : A)
| Thrown (e : error)
| Pending.
Arguments Returned {A} a.
Arguments Thrown {A} e.
Arguments Pending {A}.

Definition M (A : Type) : Type := World -> completion A * World.

Definition ret {A} (a : A) : M A := fun w => (Returned a, w).
Definition throw {A} (e : error) : M A := fun w => (Thrown e, w).
Definition never {A} : M A := fun w => (Pending, w).

Definition bind {A B} (m : M A) (f : A -> M B) : M B :=
  fun w =>
    match m w with
    | (Returned a, w') => f a w'
    | (Thrown e, w') => (Thrown e, w')
    | (Pending, w') => (Pending, w')
    end.

Definition try {A} (m : M A) (handler : error -> M A) : M A :=
  fun w =>
    match m w with
    | (Thrown e, w') => handler e w'
    | r => r
    end.

Notation "'let*' x := m 'in' k" := (bind m (fun x => k))
  (at level 10, x name, m at level 100, k at level 200).
Notation "m >> k" := (bind m (fun _ => k))
  (at level 100, k at level 200, right associativity).

Definition setFiles (f : gmap string text) : M unit :=
  fun w => (Returned tt,
            {| files := f; history := history w ++ [f]; spawns := spawns w |}).

Definition getFiles : M (gmap string text) := fun w => (Returned (files w), w).

Definition existsAsync (path : string) : M bool :=
  let* f := getFiles in ret (match f !! path with Some _ => true | None => false end).

Definition safeUnlink (path : string) : M bool :=
  let* f := getFiles in
  match f !! path with
  | Some _ => setFiles (delete path f) >> ret true
  | None => ret false
  end.

Definition rename (from to : string) : M unit :=
  let* f := getFiles in
  match f !! from with
  | Some c => setFiles (<[to := c]> (delete from f))
  | None => throw (SystemError "ENOENT")
  end.

Definition readFile (path : string) : M text :=
  let* f := getFiles in
  match f !! path with
  | Some c => ret c
  | None => throw (SystemError "ENOENT")
  end.

Definition writeFile (path : string) (content : text) : M unit :=
  let* f := getFiles in setFiles (<[path := content]> f).

Definition mkdirSync (path : string) : M unit :=
  let* f := getFiles in setFiles (<[path := []]> f).

Definition spawn (command : string) (args : list string) : M unit :=
  fun w => (Returned tt,
            {| files := files w; history := history w;
               spawns := spawns w ++ [(command, args)] |}).

(** [await monitorProcess(spawn('ffmpeg', args), ...)] for a process that
    writes [output]: on success [content] is there when it returns; a
    process that fails may have left a file, [partial], under the same
    path. *)
Definition runFfmpeg (args : list string) (output : string)
           (outcome : result text) (partial : option text) : M unit :=
  spawn "ffmpeg" args >>
  match outcome with
  | Ok content => writeFile output content
  | Throw e =>
      match partial with
      | Some content => writeFile output content
      | None => ret tt
      end >>
      throw e
  end.

Definition errorText (e : error) : text :=
  match e with
  | TypeError m => txt m
  | ProcessError m _ => txt m
  | SystemError m => txt m
  end.

(* ------------------------------------------------------------------ *)
(** * [createStreaming] *)

Definition re2D : re :=
  cats [Many true isSpace; Lit "(2"; Cls (oneOf "DK"); Lit ")"].

Definition reMkv : re := cats [Lit ".mkv"; Eos].

Definition erase (r : re) (s : text) : text := replaceFirst r (fun _ _ => []) s.

Definition truthy (n : option Z) : bool :=
  match n with Some n => negb (n =? 0) | None => false end.

Definition indexOf (x : string) (l : list string) : Z :=
  match list_find (String.eqb x) l with
  | Some (i, _) => Z.of_nat i
  | None => -1
  end.

(** [args.splice(start, 2)] for a [start] that is an index of [args]. *)
Definition splice2 (start : Z) (l : list string) : list string :=
  firstn (Z.to_nat start) l ++ skipn (Z.to_nat start + 2) l.

Definition noMaps (duration : Q) : VideoProgress :=
  {| duration := duration; percent := None; speed := None; errors := None;
     starts := None; readFromError := false |}.

Section Pipeline.
(** Constants of the platform and functions of the libraries. *)
Variables STREAM_SHARE VIDEO_SOURCE : string.
Variable dirname : string -> string.
Variable pathJoin : string -> string -> string.
Variable htmlEscape : text -> text.
(** The command line of a rendition, which the planning loop assembles
    from the geometry and the tracks of the asset. *)
Variable ffmpegArgs : Resolution -> string -> list string.

Definition mpdRootOf (path : string) : string :=
  STREAM_SHARE +:+
  str (erase reMkv
         (erase re2D (skipn (String.length VIDEO_SOURCE) (txt path)))).

Definition errorReportPathOf (path : string) : string :=
  STREAM_SHARE +:+
  pathJoin (dirname (str (skipn (String.length VIDEO_SOURCE) (txt path))))
           "error-report.txt".

(** [audios[0]], or the choice made for one series. *)
Definition pickAudio (path : string) (audios : list AudioTrack)
  : option AudioTrack :=
  if regexTest (Lit "Star Trek - 01 - The Original Series") (txt path) then
    match find (fun a => String.eqb (codec a) "AAC"
                         && (audio_channels a <=? 2)) audios with
    | Some a => Some a
    | None =>
        match find (fun a => audio_channels a <=? 2) audios with
        | Some a => Some a
        | None => head audios
        end
    end
  else head audios.

Definition audioArgs (path : string) (audioIndex : Z) (mono : bool)
           (groupedVideoCount : Z) (audioPath : string) : list string :=
  let args :=
    [ "-i"; path; "-vn"; "-map"; "0:a:" +:+ pretty audioIndex; "-acodec";
      "libvorbis"; "-ab"; if mono then "96k" else "128k";
      "-ac"; if mono then "1" else "2"; "-dash"; "1"; "-f"; "webm";
      tmp audioPath ] in
  if groupedVideoCount =? 0 then splice2 (indexOf "-dash" args) args
  else args.

(** The loop over [i] that retries the audio encoder with another
    track; [fuel] is the number of iterations that are left. *)
Fixpoint audioLoop (fuel : nat) (i count audioIndex : Z)
         (errorReportPath audioPath : string) (args : list string)
         (runs : list (option error)) (leftover : list string -> option text)
  : M unit :=
  match fuel with
  | O => ret tt
  | S fuel' =>
      try (safeUnlink (tmp audioPath) >>
           runFfmpeg args (tmp audioPath)
             (match runs with
              | Some e :: _ => Throw e
              | _ => Ok (txt "audio")
              end)
             (leftover args) >>
           rename (tmp audioPath) audioPath)
          (fun e =>
             if i =? count - 1 then
               writeFile errorReportPath (errorText e) >> throw e
             else
               audioLoop fuel' (i + 1) count audioIndex errorReportPath
                 audioPath
                 (<[4%nat := "0:a:" +:+
                      pretty (if negb (audioIndex =? 0) && (i =? audioIndex)
                              then 0 else i + 1)]> args)
                 (tail runs) leftover)
  end.

(** The promise of the video renditions: the scheduler runs on the
    events of the environment. Of the files of the renditions the
    directory shows the renames only: what an encoder writes under the
    temporary name, or leaves there when it fails, is not followed. *)
Definition videoStage (queue : list VideoRender) (duration : Q)
           (es : list event) : M unit :=
  fun w =>
    let st := runEvents (schedule queue (noMaps duration)) es in
    let w :=
      fold_left
        (fun w ft =>
           snd (setFiles (<[snd ft := txt "video"]> (delete (fst ft) (files w)))
                  w))
        (renamed st)
        {| files := files w; history := history w;
           spawns := spawns w ++ spawned st |} in
    match settled st with
    | Some (Ok _) => (Returned tt, w)
    | Some (Throw e) => (Thrown e, w)
    | None => (Pending, w)
    end.

Definition manifestArgs (dashVideos : list string) (audioPath : option string)
           (mpdPath : string) : list string :=
  let dashVideos := rev dashVideos in
  let input := fun v => ["-f"; "webm_dash_manifest"; "-i"; v] in
  let count :=
    (length dashVideos + match audioPath with Some _ => 1 | None => 0 end)%nat in
  let sets :=
    "id=0,streams=0" +:+
    (if (0 <? length dashVideos)%nat then
       substring 0 ((length dashVideos - 1) * 2) ",1,2" +:+
       match audioPath with
       | Some _ => " id=1,streams=" +:+ pretty (length dashVideos)
       | None => ""
       end
     else "") in
  flat_map input dashVideos ++
  match audioPath with Some a => input a | None => [] end ++
  ["-c"; "copy"] ++ flat_map (fun i => ["-map"; pretty i]) (seq 0 count) ++
  ["-f"; "webm_dash_manifest"; "-adaptation_sets"; sets; tmp mpdPath].

Definition manifestStage (env : Env) (dashVideos : list string)
           (audioPath : option string) (mpdPath errorReportPath : string)
  : M unit :=
  try (runFfmpeg (manifestArgs dashVideos audioPath mpdPath) (tmp mpdPath)
         (mux env) (leftover env (manifestArgs dashVideos audioPath mpdPath)) >>
       rename (tmp mpdPath) mpdPath)
      (fun e => writeFile errorReportPath (errorText e) >> throw e) >>
  let* content := readFile mpdPath in
  writeFile mpdPath (fixManifest htmlEscape content).

Definition createStreaming (env : Env) (path : string)
           (audios : list AudioTrack) (video : option VideoTrack)
           (subtitles : list SubtitlesTrack) (isMovie isExtra : bool)
           (duration : Q) : M bool :=
  let mpdRoot := mpdRootOf path in
  let mpdPath := mpdRoot +:+ ".mpd" in
  let avPath := mpdRoot +:+ ".av.webm" in
  let mobilePath := mpdRoot +:+ ".mobile.mp4" in
  let samplePath := mpdRoot +:+ ".sample.mp4" in
  let errorReportPath := errorReportPathOf path in
  let '(w, h) :=
    match video with Some v => pixel_dimensions v | None => (1, 1) end in
  let* busy :=
    (if (h >? 1100) || truthy (video ≫= stereo_mode) then ret true
     else existsAsync (pathJoin (dirname mpdRoot) "busy.txt")) in
  if busy then ret false
  else
    let* hasMpd := existsAsync mpdPath in
    let* hasAv := (if hasMpd then ret true else existsAsync avPath) in
    let hasDesktopVideo := hasAv in
    let* hasMobile := existsAsync mobilePath in
    let* hasSample := existsAsync samplePath in
    if hasDesktopVideo && hasMobile && hasSample then ret false
    else
      let parent := dirname mpdPath in
      let* hasParent := existsAsync parent in
      (if hasParent then ret tt else mkdirSync parent) >>
      let hasVideo := match video with Some _ => true | None => false end in
      let groupedVideoCount :=
        groupedVideoCount isMovie isExtra w h hasVideo hasDesktopVideo
          hasMobile hasSample in
      let audioIndex := match head audios with Some _ => 0 | None => -1 end in
      match pickAudio path audios with
      | None => throw (TypeError "Cannot read properties of undefined")
      | Some audio =>
          let mono := audio_channels audio =? 1 in
          let* audioPath :=
            (if (audioIndex >=? 0) && negb (groupedVideoCount =? 1)
                && negb hasDesktopVideo then
               let audioPath :=
                 mpdRoot +:+ "." +:+
                 (if groupedVideoCount =? 0 then "av" else "audio")
                 +:+ ".webm" in
               let* hasAudio := existsAsync audioPath in
               (if hasAudio then ret tt
                else audioLoop (length audios) 0 (Z.of_nat (length audios))
                       audioIndex errorReportPath audioPath
                       (audioArgs path audioIndex mono groupedVideoCount
                          audioPath)
                       (audioRuns env) (leftover env)) >>
               ret (Some audioPath)
             else ret None) in
          let* dashVideos :=
            (if hasVideo then
               let* f := getFiles in
               let present :=
                 fun p => match f !! p with Some _ => true | None => false end in
               let planned :=
                 plan isMovie isExtra w h hasVideo hasDesktopVideo hasMobile
                   hasSample mpdRoot present ffmpegArgs in
               videoStage (snd planned) duration (events env) >>
               ret (fst planned)
             else ret []) in
          (if groupedVideoCount >? 1 then
             manifestStage env dashVideos audioPath mpdPath errorReportPath
           else ret tt) >>
          ret true
      end.
End Pipeline.

(* ------------------------------------------------------------------ *)
(** * A platform to run examples on *)

(** [dirname] and [join] of Node's [path] on POSIX, for plain absolute
    paths without [.] and [..] segments. *)
Fixpoint beforeLastSlash (s : text) : option text :=
  match s with
  | [] => None
  | a :: s' =>
      match beforeLastSlash s' with
      | Some d => Some (a :: d)
      | None => if Ascii.eqb a "/" then Some [] else None
      end
  end.

Definition posixDirname (p : string) : string :=
  match beforeLastSlash (txt p) with
  | Some [] => "/"
  | Some d => str d
  | None => "."
  end.

Definition posixJoin (a b : string) : string := a +:+ "/" +:+ b.

Definition linuxShare : string := "/mnt/streaming".
Definition linuxSource : string := "/mnt/video".

Definition newline : string := String (ascii_of_nat 10) "".

Definition emptyWorld : World := {| files := ∅; history := []; spawns := [] |}.

Definition worldOf (paths : list string) : World :=
  {| files := list_to_map (map (fun p => (p, [])) paths);
     history := []; spawns := [] |}.

Definition quietEnv : Env :=
  {| audioRuns := []; events := []; mux := Ok []; leftover := fun _ => None |}.

Definition fullHD : VideoTrack :=
  {| pixel_dimensions := (1920, 1080); display_dimensions := (1920, 1080);
     stereo_mode := None |}.

Definition stereoTrack : AudioTrack := {| codec := "AC-3"; audio_channels := 2 |}.

Definition film : string := "/mnt/video/Movies/Film.mkv".

Definition finishedFilm : World :=
  worldOf [ "/mnt/streaming/Movies/Film.mpd";
            "/mnt/streaming/Movies/Film.mobile.mp4";
            "/mnt/streaming/Movies/Film.sample.mp4" ].

(* ------------------------------------------------------------------ *)
(** * The specification's statements that the code is compared with *)

(** The claim of C6 in the words of the specification: with the desktop
    artifacts present and neither the mobile nor the sample video, the
    planner yields the tasks 480p, 360p and 320p and asks for a manifest. *)
Definition specPlanWithDesktop (names : list string) (manifest : bool) : Prop :=
  names = ["480p"; "360p"; "320p"] /\ manifest = true.

(** C1 in the words of the specification: the failed task goes back to
    the pending queue exactly when its progress was below 10% and its
    attempt count is below [floor(0.75 * maxTries)], or its attempt count
    is below [floor(0.5 * maxTries)]. *)
Definition specRetryInParallel (tries : Z) (lastPercent : Q) : Prop :=
  ((lastPercent < 10)%Q /\ tries < Qfloor ((75 # 100) * inject_Z maxTries))
  \/ tries < Qfloor ((5 # 10) * inject_Z maxTries).

(** Counting the tasks that the event loop knows. *)
Definition isParallel (tb : VideoRender * branch) : bool :=
  match snd tb with Parallel => true | Redo => false end.

Definition parallelCount (l : list (VideoRender * branch)) : nat :=
  length (filter isParallel l).

Definition taskCount (st : Sched) : nat :=
  (length (videoQueue st) + length (redoQueue st)
   + length (live st) + length (renaming st))%nat.

Definition lowBudget (name : string) : VideoRender :=
  {| args := [name]; name := name; process := None; tries := 0;
     videoPath := "/mnt/streaming/Movies/Film." +:+ name +:+ ".webm" |}.

(** The counter [running] counts the tasks of the parallel branch that the
    event loop knows, and at most [n] tasks wait for a retry or are known
    to the event loop. *)
Definition Balanced (n : nat) (st : Sched) : Prop :=
  running st
  = Z.of_nat (parallelCount (live st) + parallelCount (renaming st)) /\
  (length (redoQueue st) + length (live st) + length (renaming st) <= n)%nat.

(** The guard of [checkQueue], for a queue of any length: [running] counts
    the tasks of the parallel branch and stays within the limit. *)
Definition WithinLimit (st : Sched) : Prop :=
  running st
  = Z.of_nat (parallelCount (live st) + parallelCount (renaming st)) /\
  running st <= simultaneousMax.

(** The queue that the planner makes for a full-HD movie whose output
    directory is empty: the five renditions. *)
Definition filmQueue : list VideoRender :=
  plannedQueue true false 1920 1080 true false false false
    "/mnt/streaming/Movies/Film" (fun _ => false) (fun _ path => [tmp path]).

(** The first task that [checkQueue] pops from [filmQueue], once started. *)
Definition sampleTask : VideoRender :=
  {| args := ["/mnt/streaming/Movies/Film.sample.tmp.mp4"]; name := "320p";
     process := Some 0%nat; tries := 0;
     videoPath := "/mnt/streaming/Movies/Film.sample.mp4" |}.


(** No task that waits in a queue holds a process, and no process was
    sent a kill. *)
Definition Unarmed (st : Sched) : Prop :=
  Forall (fun t => process t = None) (videoQueue st) /\
  Forall (fun t => process t = None) (redoQueue st) /\
  killed st = [].

(** Two renditions fail five times each in the parallel pool and move to
    [redoQueue]; the first redo task succeeds but its [rename] is rejected
    while the second one waits; then the timer of [cleanUpAndFail] fires. *)
Definition renameRejected : list event :=
  [ Exit 0 1 "" 10; Exit 1 1 "" 20; Exit 1 1 "" 30; Exit 1 1 "" 40;
    Exit 1 1 "" 50;
    Exit 0 1 "" 60; Exit 0 1 "" 70; Exit 0 1 "" 80; Exit 0 1 "" 90;
    Exit 0 1 "" 100;
    Exit 0 0 "" 200; Renamed 0 (Some (SystemError "EACCES")) 210;
    TimerFired ].

(** The record of a task in one of the optional maps. *)
Definition recordOf {A} (m : option (gmap string A)) (name : string)
  : option A :=
  m ≫= (fun m => m !! name).

(** The seconds that [videoProgress] makes of the three groups of
    [reTime]: [toInt($[1]) * 3600 + toInt($[2]) * 60 + toInt($[3])]. *)
Definition elapsedSeconds (c : caps) : Z :=
  toInt (capture 1 c) * 3600 + toInt (capture 2 c) * 60 + toInt (capture 3 c).

(** A number of seconds as a share, in percent, of a duration in
    milliseconds, rounded to a tenth and capped at 99.9. *)
Definition timePercent (localDuration : Q) (seconds : Z) : Q :=
  min (round (inject_Z (seconds * 100000) / localDuration) (1 # 10)) (999 # 10).

(** The manifests that the multiplexer writes, as far as the fix-up is
    concerned: lines ended by a line feed; a line is either free of
    [<BaseURL>], or an indentation followed by one [BaseURL] element whose
    value is a directory, a separator and a file name. *)
Definition openTag : text := txt "<BaseURL>".
Definition closeTag : text := txt "</BaseURL>".
Definition lineFeed : ascii := ascii_of_nat 10.

Inductive line : Type :=
| Plain (t : text)
| Element (indent directory : text) (separator : ascii) (file : text).

Definition renderLine (l : line) : text :=
  match l with
  | Plain t => t
  | Element indent directory separator file =>
      indent ++ openTag ++ directory ++ separator :: file ++ closeTag
  end.

Definition render (ls : list line) : text :=
  flat_map (fun l => renderLine l ++ [lineFeed]) ls.

Definition wellFormed (l : line) : bool :=
  match l with
  | Plain t => forallb dot t && negb (regexTest (Lit "<BaseURL>") t)
  | Element indent directory separator file =>
      forallb (fun a => negb (Ascii.eqb a "<")) indent
      && forallb dot directory && isSeparator separator
      && forallb (fun a => dot a && negb (isSeparator a)) file
  end.

(** C8 in the words of the specification. A value is escaped when it
    holds a markup-significant character and nothing that is already an
    entity: an [&], one or more characters among [#], the lower-case
    letters and the digits, and a [;]. *)
Definition isMarkup (a : ascii) : bool := oneOf "&<>" a.

Definition isEntityChar (a : ascii) : bool :=
  oneOf "#" a || inRange "a" "z" a || isDigit a.

(** The rest of the name of an entity and its [;]. *)
Fixpoint entityEnds (s : text) : bool :=
  match s with
  | a :: s' => if isEntityChar a then entityEnds s' else Ascii.eqb a ";"
  | [] => false
  end.

Definition startsWithEntity (s : text) : bool :=
  match s with
  | a :: b :: s' => Ascii.eqb a "&" && isEntityChar b && entityEnds s'
  | _ => false
  end.

Fixpoint hasEntity (s : text) : bool :=
  match s with
  | [] => false
  | a :: s' => startsWithEntity (a :: s') || hasEntity s'
  end.

Definition specValue (htmlEscape : text -> text) (value : text) : text :=
  if existsb isMarkup value && negb (hasEntity value)
  then htmlEscape value else value.

(** What the specification asks of a line: the value of the element is
    the bare file name, escaped when it needs it. *)
Definition specFixedLine (htmlEscape : text -> text) (l : line) : text :=
  match l with
  | Plain t => t
  | Element indent _ _ file =>
      indent ++ openTag ++ specValue htmlEscape file ++ closeTag
  end.

(** C3 in the words of the specification: whatever is seen under the final
    name of the manifest, at any moment of the run, is the manifest with
    its references rewritten. *)
Definition specNeverUnfixed (htmlEscape : text -> text) (mpdPath : string)
           (raw : text) (after : World) : Prop :=
  forall f, In f (history after) ->
            f !! mpdPath = None
            \/ f !! mpdPath = Some (fixManifest htmlEscape raw).

Definition filmMpd : string := "/mnt/streaming/Movies/Film.mpd".

Definition rawManifest : text :=
  txt "<Representation id=0>" ++ [lineFeed]
  ++ txt "<BaseURL>/mnt/streaming/Movies/Film.v720.webm</BaseURL>"
  ++ [lineFeed].

Definition muxEnv (raw : text) : Env :=
  {| audioRuns := []; events := []; mux := Ok raw; leftover := fun _ => None |}.

Definition tomAndJerry : list line :=
  [ Plain (txt "<Representation id=0>");
    Element (txt "  ") (txt "/mnt/streaming/Movies") "/"
      (txt "Tom & Jerry.v720.webm");
    Plain (txt "</Representation>") ].

(** A run in which the five renditions succeed at once and the
    multiplexer writes [rawManifest]. *)
Definition smoothRun : Env :=
  {| audioRuns := [];
     events := [ Exit 0 0 "" 10; Exit 0 0 "" 20; Exit 0 0 "" 30;
                 Exit 0 0 "" 40; Exit 0 0 "" 50;
                 Renamed 0 None 60; Renamed 0 None 70; Renamed 0 None 80;
                 Renamed 0 None 90; Renamed 0 None 100 ];
     mux := Ok rawManifest;
     leftover := fun _ => None |}.

(** The two phases of a run. Either every task that the event loop knows
    belongs to the parallel branch and has failed four times at most, as
    have the pending tasks; or the event loop knows one task only, a redo
    task. The tasks of the redo phase have failed five times. *)
Definition inFlight (st : Sched) : list (VideoRender * branch) :=
  live st ++ renaming st.

Definition Serial (st : Sched) : Prop :=
  Forall (fun t => tries t = 5) (redoQueue st) /\
  ((Forall (fun tb => snd tb = Parallel /\ 0 <= tries (fst tb) <= 4)
      (inFlight st) /\
    (settled st = None ->
     Forall (fun t => 0 <= tries t <= 4) (videoQueue st)))
   \/ (exists t, inFlight st = [(t, Redo)] /\ tries t = 5 /\
                 (settled st = None -> videoQueue st = []))).

(** The two renditions of [renameRejected] before the rename: both have
    failed five times and the first redo task is running. *)
Definition twoTasks : list VideoRender :=
  [lowBudget "720p"; lowBudget "360p"].

Definition tenFailures : list event :=
  [ Exit 0 1 "" 10; Exit 1 1 "" 20; Exit 1 1 "" 30; Exit 1 1 "" 40;
    Exit 1 1 "" 50;
    Exit 0 1 "" 60; Exit 0 1 "" 70; Exit 0 1 "" 80; Exit 0 1 "" 90;
    Exit 0 1 "" 100 ].

Definition redoTask : VideoRender :=
  withProcess (Some 10%nat) (withTries 5 (lowBudget "360p")).

(** Nothing is left of a run: no task waits and the event loop knows none. *)
Definition Finished (st : Sched) : Prop :=
  videoQueue st = [] /\ redoQueue st = [] /\ live st = [] /\ renaming st = [].

Definition twoSuccesses : list event :=
  [ Exit 0 0 "" 10; Exit 0 0 "" 20; Renamed 0 None 30; Renamed 0 None 40 ].

(** Counting by command line. [sel] is a set of command lines; a process
    or a task counts 1 when its command line is in the set. *)
Definition share (sel : list string -> bool) (a : list string) : Z :=
  if sel a then 1 else 0.

Definition spawnsOf (sel : list string -> bool)
           (l : list (string * list string)) : Z :=
  foldr (fun c acc => share sel (snd c) + acc) 0 l.

Definition tasksOf (sel : list string -> bool) (q : list VideoRender) : Z :=
  foldr (fun t acc => share sel (args t) + acc) 0 q.

(** The spawns that a run can still make for the tasks of the set:
    [maxTries] less its attempts for a task that waits, one less for a
    task that the event loop knows. *)
Definition budget (sel : list string -> bool) (q : list VideoRender) : Z :=
  foldr (fun t acc => share sel (args t) * (maxTries - tries t) + acc) 0 q.

Definition flightBudget (sel : list string -> bool)
           (l : list (VideoRender * branch)) : Z :=
  foldr (fun tb acc =>
           share sel (args (fst tb)) * (maxTries - 1 - tries (fst tb)) + acc)
        0 l.

Definition spendable (sel : list string -> bool) (st : Sched) : Z :=
  spawnsOf sel (spawned st) + budget sel (videoQueue st)
  + budget sel (redoQueue st) + flightBudget sel (live st)
  + flightBudget sel (renaming st).

(** A task as the planning loop makes it for the rendition [r]. *)
Definition plannedFor (isMovie isExtra : bool) (pw ph : Z) (hv hd hm hs : bool)
           (mpdRoot : string) (present : string -> bool)
           (ffmpegArgs : Resolution -> string -> list string)
           (r : Resolution) (t : VideoRender) : Prop :=
  shouldSkipVideo isMovie isExtra pw ph hd hm hs (w r) (h r) = false /\
  name t = pretty (h r) +:+ "p" /\
  videoPath t = renditionPath isMovie isExtra pw ph hv hd hm hs mpdRoot r /\
  args t = ffmpegArgs r (videoPath t) /\
  present (videoPath t) = false /\
  tries t = 0 /\ process t = None.

(** A computation that spawns [k] processes at most. *)
Definition spawnsWithin {A} (k : nat) (m : M A) : Prop :=
  forall w, (length (spawns (snd (m w))) <= length (spawns w) + k)%nat.

(* ------------------------------------------------------------------ *)
(** * [process-util]: [stripFormatting] and [monitorProcess] *)

Definition escape : ascii := ascii_of_nat 27.

Definition isLetter (a : ascii) : bool := inRange "A" "Z" a || inRange "a" "z" a.

Definition isParameter (a : ascii) : bool := isDigit a || oneOf ";" a.

(** [/\x1B\[[\d;]*[A-Za-z]/g] *)
Definition reFormatting : re :=
  cats [Cls (Ascii.eqb escape); Lit "["; Many true isParameter; Cls isLetter].

Definition stripFormatting (s : text) : text :=
  replaceAll reFormatting (fun _ _ => []) 0 s.

(** [ErrorMode | RegExp | ErrorCheck]: a value of the enumeration, a
    regular expression, which comes down to its [test] of a text, or a
    function. *)
Inductive ErrorMode : Type :=
| DEFAULT
| FAIL_ON_ANY_ERROR
| IGNORE_ERRORS
| Pattern (test : text -> bool)
| ErrorCheck (check : text -> bool).

(** How the promise of [monitorProcess] settles: [resolve(output)],
    [reject(err)] with the error of the process object, or
    [reject(new ProcessError(msg, code, output))]. *)
Inductive settlement : Type :=
| Resolved (output : text)
| RejectedError (message : text)
| RejectedExit (message : text) (exitCode : Z) (output : text).

(** What reaches the handlers: the data of the two streams, the events
    [error] and [exit] of the process object, and the tick of the interval
    timer, which calls [markTime] without arguments. The code of [exit] is
    [null], here [None], when a signal ended the process. *)
Inductive procEvent : Type :=
| Stderr (data : text)
| Stdout (data : text)
| ProcError (message : text)
| ProcExit (exitCode : option Z)
| Tick.

(** The closure variables [errors] and [output], the calls of [markTime]
    made so far with their arguments [(data, stream, done)], the promise,
    and the exceptions that left a handler. *)
Record Monitor := {
  mErrors : text;
  mOutput : text;
  marks : list (option text * option Z * bool);
  promise : option settlement;
  uncaught : list error
}.

Definition monitorStart : Monitor :=
  {| mErrors := []; mOutput := []; marks := []; promise := None;
     uncaught := [] |}.

Section MonitorProcess.
(** [errorish] and the test [/(\[webpack.Progress])|Warning\b/] of the
    [stderr] handler, over which the handlers are parametric. *)
Variable errorish : text -> bool.
Variable webpackNoise : text -> bool.
Variable errorMode : ErrorMode.
Variable outputLimit : nat.

(** [isObject] of [@tubular/util] holds of a function as it does of a
    regular expression, so that the first branch takes both and the second
    one is never reached: with a function for [errorMode] the call of
    [test], which a function has not, throws. *)
Definition looksLikeAnError (s : text) : result bool :=
  match errorMode with
  | Pattern test => Ok (test s)
  | ErrorCheck _ => Throw (TypeError "errorMode.test is not a function")
  | IGNORE_ERRORS => Ok false
  | _ => Ok (errorish s)
  end.

(** [s.slice(-outputLimit)] under its guard
    [outputLimit > 0 && s.length > outputLimit]. *)
Definition limited (s : text) : text :=
  if (0 <? outputLimit)%nat && (outputLimit <? length s)%nat
  then skipn (length s - outputLimit) s
  else s.

Definition markTime (data : option text) (stream : option Z) (done : bool)
           (m : Monitor) : Monitor :=
  {| mErrors := mErrors m; mOutput := mOutput m;
     marks := marks m ++ [(data, stream, done)]; promise := promise m;
     uncaught := uncaught m |}.

Definition withErrors (e : text) (m : Monitor) : Monitor :=
  {| mErrors := e; mOutput := mOutput m; marks := marks m;
     promise := promise m; uncaught := uncaught m |}.

Definition withOutput (o : text) (m : Monitor) : Monitor :=
  {| mErrors := mErrors m; mOutput := o; marks := marks m;
     promise := promise m; uncaught := uncaught m |}.

(** [resolve] and [reject]: the first call settles the promise. *)
Definition settlePromise (s : settlement) (m : Monitor) : Monitor :=
  {| mErrors := mErrors m; mOutput := mOutput m; marks := marks m;
     promise := match promise m with Some s0 => Some s0 | None => Some s end;
     uncaught := uncaught m |}.

(** An exception leaves the handler: what the handler did before stays,
    the rest of it is not run. *)
Definition raise (e : error) (m : Monitor) : Monitor :=
  {| mErrors := mErrors m; mOutput := mOutput m; marks := marks m;
     promise := promise m; uncaught := uncaught m ++ [e] |}.

Definition ignoresErrors : bool :=
  match errorMode with IGNORE_ERRORS => true | _ => false end.

Definition failsOnAnyError : bool :=
  match errorMode with FAIL_ON_ANY_ERROR => true | _ => false end.

(** The handlers that [monitorProcess] installs; an argument that a call
    of [markTime] leaves out is [None], and [done] is then falsy. The
    handler of [exit] starts with [code.toString()], which throws for the
    code [null]. *)
Definition handle (m : Monitor) (e : procEvent) : Monitor :=
  match e with
  | Stderr data =>
      let m := markTime (Some data) (Some 1) false m in
      let data := stripFormatting data in
      if webpackNoise data then m
      else
        match (if failsOnAnyError then Ok true else looksLikeAnError data) with
        | Ok true => withErrors (limited (mErrors m ++ data)) m
        | Ok false => m
        | Throw err => raise err m
        end
  | Stdout data =>
      let m := markTime (Some data) (Some 0) false m in
      let m := withOutput (limited (mOutput m ++ data)) m in
      match looksLikeAnError data with
      | Ok true =>
          withErrors
            (limited (if isEmpty (mErrors m) then data
                      else mErrors m ++ lineFeed :: data)) m
      | Ok false => m
      | Throw err => raise err m
      end
  | ProcError message =>
      let m := markTime (Some message) (Some (-1)) true m in
      if ignoresErrors then settlePromise (Resolved (mOutput m)) m
      else settlePromise (RejectedError message) m
  | ProcExit None =>
      raise (TypeError "Cannot read properties of null (reading 'toString')") m
  | ProcExit (Some exitCode) =>
      let m := markTime (Some (txt (pretty exitCode)))
                 (Some (if exitCode =? 0 then 0 else -1)) true m in
      if (exitCode =? 0) || ignoresErrors then
        settlePromise (Resolved (mOutput m)) m
      else
        settlePromise
          (RejectedExit
             (if isEmpty (mErrors m) then txt (pretty exitCode) else mErrors m)
             exitCode (mOutput m)) m
  | Tick => markTime None None false m
  end.

(** [monitorProcess] after the events [es] of the process. *)
Definition monitorProcess (es : list procEvent) : Monitor :=
  fold_left handle es monitorStart.
End MonitorProcess.

(** All that the process wrote to [stdout]. *)
Definition stdoutOf (es : list procEvent) : text :=
  flat_map (fun e => match e with Stdout data => data | _ => [] end) es.

Definition isTerminal (e : procEvent) : bool :=
  match e with ProcError _ | ProcExit _ => true | _ => false end.

Definition isRejection (s : settlement) : bool :=
  match s with Resolved _ => false | _ => true end.

(* ------------------------------------------------------------------ *)
(** * [escapeArg] *)

Definition backslash : ascii := ascii_of_nat 92.
Definition quote : ascii := ascii_of_nat 34.

(** The class of [escapeArg]: the space, the quote and the backslash. *)
Definition needsQuotes (a : ascii) : bool :=
  Ascii.eqb a " " || Ascii.eqb a quote || Ascii.eqb a backslash.

(** When the text has a character of the class, every backslash is
    doubled, then a backslash is put before every quote, and the result
    is put between quotes. *)
Definition escapeArg (s : text) : text :=
  if regexTest (Cls needsQuotes) s then
    quote ::
    replaceAll (Lit (String quote "")) (fun _ _ => [backslash; quote]) 0
      (replaceAll (Lit (String backslash "")) (fun _ _ => [backslash; backslash])
         0 s)
    ++ [quote]
  else s.

(** What a character becomes between the quotes. *)
Definition escapedChar (a : ascii) : text :=
  if Ascii.eqb a backslash then [backslash; backslash]
  else if Ascii.eqb a quote then [backslash; quote]
  else [a].

(** The command line of the audio loop in its iteration [j], for the
    [audioIndex] 0 of the call: the first one is [args], the others have
    the track [j] in [args[4]]. *)
Definition audioAttempt (args : list string) (j : nat) : list string :=
  match j with
  | O => args
  | S _ => <[4%nat := "0:a:" +:+ pretty (Z.of_nat j)]> args
  end.

(** The first [k] runs of the encoder fail. *)
Definition failsBefore (runs : list (option error)) (k : nat) : Prop :=
  forall j, (j < k)%nat -> exists e, runs !! j = Some (Some e).

(** The names of the tasks that the scheduler holds: waiting in a queue,
    or with a process or a rename in flight. *)
Definition known (st : Sched) : list string :=
  map name (videoQueue st) ++ map name (redoQueue st)
  ++ map (fun tb => name (fst tb)) (live st)
  ++ map (fun tb => name (fst tb)) (renaming st).

(** How often the scheduler holds a task of the name [n]. *)
Definition tally (n : string) (st : Sched) : nat :=
  count_occ string_dec (known st) n.

(* ================================================================== *)
(** * Properties *)

Example tmp_example : tmp "/s/Film.v720.webm" = "/s/Film.v720.tmp.webm".
Proof. vm_compute. reflexivity. Qed.

Example plan_example :
  map name (plannedQueue true false 1920 1080 true false false false "/s/F"
              (fun _ => false) (fun _ _ => [])) =
  ["1080p"; "720p"; "480p"; "360p"; "320p"].
Proof. vm_compute. reflexivity. Qed.

(* ------------------------------------------------------------------ *)
(** ** Numbers *)

Lemma Qlt_bool_iff (a b : Q) : Qlt_bool a b = true <-> (a < b)%Q.
Proof.
  unfold Qlt_bool. rewrite negb_true_iff.
  destruct (Qle_bool b a) eqn:E.
  - apply Qle_bool_iff in E. split; [discriminate|].
    intros Hlt. exfalso. exact (Qlt_not_le _ _ Hlt E).
  - split; [intros _|reflexivity].
    apply Qnot_le_lt. intros Hle. apply Qle_bool_iff in Hle. congruence.
Qed.

Lemma Qlt_bool_inject (a : Z) (n : Z) (d : positive) :
  Qlt_bool (inject_Z a) (n # d) = (a * Z.pos d <? n).
Proof.
  unfold Qlt_bool, Qle_bool. simpl. rewrite Z.mul_1_r.
  rewrite Z.leb_antisym, negb_involutive. reflexivity.
Qed.

(* ------------------------------------------------------------------ *)
(** ** The planner *)

Section PlannerFacts.
Variables (isMovie isExtra : bool) (pw ph : Z) (hasVideo : bool).
Variables (hasMobile hasSample : bool).

Lemma skip_when_desktop_present (streamW : Q) (streamH : Z) :
  480 <= streamH ->
  shouldSkipVideo isMovie isExtra pw ph true hasMobile hasSample
    streamW streamH = true.
Proof.
  intros H. unfold shouldSkipVideo.
  replace (streamH >=? 480) with true
    by (symmetry; apply Z.geb_le; lia).
  simpl. rewrite !orb_true_r. reflexivity.
Qed.

Lemma upscale_640_360 :
  512 <= pw \/ 288 <= ph ->
  Qlt_bool (inject_Z pw * (5 # 4)) 640
  && Qlt_bool (inject_Z ph * (5 # 4)) (inject_Z 360) = false.
Proof.
  intros H. apply andb_false_iff.
  unfold Qlt_bool, Qle_bool; simpl.
  rewrite !negb_false_iff, !Z.leb_le. lia.
Qed.

Lemma upscale_569_320 :
  512 <= pw \/ 288 <= ph ->
  Qlt_bool (inject_Z pw * (5 # 4)) 569
  && Qlt_bool (inject_Z ph * (5 # 4)) (inject_Z 320) = false.
Proof.
  intros H. apply andb_false_iff.
  unfold Qlt_bool, Qle_bool; simpl.
  rewrite !negb_false_iff, !Z.leb_le. lia.
Qed.
End PlannerFacts.

Lemma path_mobile (isMovie isExtra : bool) (pw ph : Z) (hv hd hm hs : bool)
      (mpdRoot : string) :
  renditionPath isMovie isExtra pw ph hv hd hm hs mpdRoot
    {| w := 640; h := 360 |} = mpdRoot +:+ ".mobile.mp4".
Proof. reflexivity. Qed.

Lemma path_sample (isMovie isExtra : bool) (pw ph : Z) (hv hd hm hs : bool)
      (mpdRoot : string) :
  renditionPath isMovie isExtra pw ph hv hd hm hs mpdRoot
    {| w := 569; h := 320 |} = mpdRoot +:+ ".sample.mp4".
Proof. reflexivity. Qed.

(** C6, counterexample. A full-HD movie whose output directory holds the
    manifest only: the planner yields 360p and 320p, without 480p, and
    the manifest step is not taken. *)
Lemma C6_counterexample :
  let present := fun p => String.eqb p "/mnt/streaming/Movies/Film.mpd" in
  ~ specPlanWithDesktop
      (map name
         (plannedQueue true false 1920 1080 true true false false
            "/mnt/streaming/Movies/Film" present (fun _ _ => [])))
      (needsManifest true false 1920 1080 true true false false).
Proof.
  intros present [Hnames _]. vm_compute in Hnames. discriminate Hnames.
Qed.

(** C6, amended. When the desktop artifacts are present and the mobile and
    sample videos are not, every planned task is 360p or 320p (480p and
    above are skipped), the tasks are exactly 360p and 320p for a source of
    at least 512 pixels across or 288 pixels high, and no manifest is
    needed. *)
Theorem C6_plan_with_desktop_present
        (isMovie isExtra : bool) (pw ph : Z) (mpdRoot : string)
        (present : string -> bool)
        (ffmpegArgs : Resolution -> string -> list string) :
  present (mpdRoot +:+ ".mobile.mp4") = false ->
  present (mpdRoot +:+ ".sample.mp4") = false ->
  let queue :=
    plannedQueue isMovie isExtra pw ph true true false false mpdRoot present
      ffmpegArgs in
  needsManifest isMovie isExtra pw ph true true false false = false /\
  (forall t, In t queue -> name t = "360p" \/ name t = "320p") /\
  (512 <= pw \/ 288 <= ph -> map name queue = ["360p"; "320p"]).
Proof.
  intros Hmobile Hsample queue.
  assert (Hskip : forall sw sh, 480 <= sh ->
            shouldSkipVideo isMovie isExtra pw ph true false false sw sh = true)
    by (intros; apply skip_when_desktop_present; assumption).
  assert (H360 : shouldSkipVideo isMovie isExtra pw ph true false false 640 360
                 = Qlt_bool (inject_Z pw * (5 # 4)) 640
                   && Qlt_bool (inject_Z ph * (5 # 4)) (inject_Z 360)).
  { unfold shouldSkipVideo. simpl. rewrite !andb_false_r, !orb_false_r.
    reflexivity. }
  assert (H320 : shouldSkipVideo isMovie isExtra pw ph true false false 569 320
                 = Qlt_bool (inject_Z pw * (5 # 4)) 569
                   && Qlt_bool (inject_Z ph * (5 # 4)) (inject_Z 320)).
  { unfold shouldSkipVideo. simpl. rewrite !andb_false_r, !orb_false_r.
    reflexivity. }
  split; [|split].
  - unfold needsManifest, groupedVideoCount, videoCount, resolutions.
    cbn [fold_left w h orb negb].
    rewrite !Hskip by lia.
    destruct (shouldSkipVideo _ _ _ _ _ _ _ 640 360);
      destruct (shouldSkipVideo _ _ _ _ _ _ _ 569 320); reflexivity.
  - intros t. subst queue.
    unfold plannedQueue, plan, resolutions. cbn [fold_left].
    unfold planStep at 1 2 3 4 5. cbn [w h].
    rewrite !Hskip by lia. clear H360 H320.
    rewrite !path_mobile, !path_sample, ?Hmobile, ?Hsample.
    destruct (shouldSkipVideo _ _ _ _ _ _ _ 640 360);
      destruct (shouldSkipVideo _ _ _ _ _ _ _ 569 320);
      cbn; rewrite ?Hmobile, ?Hsample; cbn;
      intros Hin; intuition (subst; auto).
  - intros Hsize. subst queue.
    unfold plannedQueue, plan, resolutions. cbn [fold_left].
    unfold planStep at 1 2 3 4 5. cbn [w h].
    rewrite !Hskip by lia.
    rewrite H360, H320, upscale_640_360, upscale_569_320 by assumption.
    rewrite !path_mobile, !path_sample.
    cbn. rewrite Hmobile. cbn. rewrite Hsample. reflexivity.
Qed.

Lemma C6_plan_with_desktop_present_witness :
  let present := fun p => String.eqb p "/mnt/streaming/Movies/Film.mpd" in
  let queue :=
    plannedQueue true false 1920 1080 true true false false
      "/mnt/streaming/Movies/Film" present (fun _ _ => []) in
  needsManifest true false 1920 1080 true true false false = false /\
  (forall t, In t queue -> name t = "360p" \/ name t = "320p") /\
  (512 <= 1920 \/ 288 <= 1080 -> map name queue = ["360p"; "320p"]).
Proof.
  intros present.
  apply (C6_plan_with_desktop_present true false 1920 1080
           "/mnt/streaming/Movies/Film" present (fun _ _ => []));
    reflexivity.
Defined.

(* ------------------------------------------------------------------ *)
(** ** The head of [createStreaming] *)

Section PipelineFacts.
Variables STREAM_SHARE VIDEO_SOURCE : string.
Variable dirname : string -> string.
Variable pathJoin : string -> string -> string.
Variable htmlEscape : text -> text.
Variable ffmpegArgs : Resolution -> string -> list string.

Let run := createStreaming STREAM_SHARE VIDEO_SOURCE dirname pathJoin
             htmlEscape ffmpegArgs.
Let rootOf := mpdRootOf STREAM_SHARE VIDEO_SOURCE.

Lemma pickAudio_nil (path : string) : pickAudio path [] = None.
Proof. unfold pickAudio. destruct (regexTest _ _); reflexivity. Qed.

(** C7. When the output directory holds the manifest or the av file, the
    mobile video and the sample video, [createStreaming] returns [false]
    and leaves the world as it found it: no process is spawned and no
    file is touched, so a second run in a row does the same. *)
Theorem C7_all_artifacts_present_no_spawn
        (env : Env) (path : string) (audios : list AudioTrack)
        (video : option VideoTrack) (subtitles : list SubtitlesTrack)
        (isMovie isExtra : bool) (duration : Q) (world : World) :
  is_Some (files world !! (rootOf path +:+ ".mpd"))
  \/ is_Some (files world !! (rootOf path +:+ ".av.webm")) ->
  is_Some (files world !! (rootOf path +:+ ".mobile.mp4")) ->
  is_Some (files world !! (rootOf path +:+ ".sample.mp4")) ->
  let first := run env path audios video subtitles isMovie isExtra duration
                 world in
  first = (Returned false, world) /\
  spawns (snd first) = spawns world /\
  run env path audios video subtitles isMovie isExtra duration (snd first)
  = (Returned false, snd first).
Proof.
  intros Hdesktop [mobile Hmobile] [sample Hsample].
  assert (H : run env path audios video subtitles isMovie isExtra duration
                world = (Returned false, world)).
  { unfold run, createStreaming.
    destruct (match video with
              | Some v => pixel_dimensions v
              | None => (1, 1)
              end) as [pw ph].
    unfold existsAsync, getFiles, ret, bind. fold (rootOf path).
    destruct ((ph >? 1100) || truthy (video ≫= stereo_mode));
      [reflexivity|].
    cbn beta iota.
    destruct (files world !! pathJoin (dirname (rootOf path)) "busy.txt");
      [reflexivity|].
    destruct (files world !! (rootOf path +:+ ".mpd")) eqn:Empd;
      cbn beta iota.
    - rewrite Hmobile, Hsample. reflexivity.
    - destruct Hdesktop as [[mpd Hmpd]|[av Hav]]; [discriminate Hmpd|].
      rewrite Hav, Hmobile, Hsample. reflexivity. }
  intros first. subst first. rewrite H. simpl. auto.
Qed.

(** C10. With no audio track, a call that passes the early checks
    (height at most 1100, not stereoscopic, no busy marker, artifacts
    not all present) throws a [TypeError] when it reads the channel
    count of the primary track: no process has been spawned and the only
    file that may have appeared is the parent directory. *)
Theorem C10_no_audio_track_throws
        (env : Env) (path : string) (video : option VideoTrack)
        (subtitles : list SubtitlesTrack) (isMovie isExtra : bool)
        (duration : Q) (world : World) :
  snd (match video with Some v => pixel_dimensions v | None => (1, 1) end)
  <= 1100 ->
  truthy (video ≫= stereo_mode) = false ->
  files world !! pathJoin (dirname (rootOf path)) "busy.txt" = None ->
  ~ ((is_Some (files world !! (rootOf path +:+ ".mpd"))
      \/ is_Some (files world !! (rootOf path +:+ ".av.webm")))
     /\ is_Some (files world !! (rootOf path +:+ ".mobile.mp4"))
     /\ is_Some (files world !! (rootOf path +:+ ".sample.mp4"))) ->
  exists message world',
    run env path [] video subtitles isMovie isExtra duration world
    = (Thrown (TypeError message), world') /\
    spawns world' = spawns world /\
    (files world' = files world
     \/ files world' = <[dirname (rootOf path +:+ ".mpd") := []]> (files world)).
Proof.
  intros Hheight Hstereo Hbusy Hmissing.
  unfold run, createStreaming.
  destruct (match video with
            | Some v => pixel_dimensions v
            | None => (1, 1)
            end) as [pw ph].
  simpl in Hheight.
  unfold existsAsync, mkdirSync, setFiles, getFiles, ret, throw, bind.
  fold (rootOf path).
  replace (ph >? 1100) with false
    by (symmetry; rewrite Z.gtb_ltb; apply Z.ltb_ge; lia).
  rewrite Hstereo. cbn [orb]. cbn beta iota. rewrite Hbusy.
  rewrite pickAudio_nil.
  assert (Hnot : (match files world !! (rootOf path +:+ ".mpd") with
                  | Some _ => true
                  | None =>
                      match files world !! (rootOf path +:+ ".av.webm") with
                      | Some _ => true
                      | None => false
                      end
                  end
                  && match files world !! (rootOf path +:+ ".mobile.mp4") with
                     | Some _ => true | None => false end
                  && match files world !! (rootOf path +:+ ".sample.mp4") with
                     | Some _ => true | None => false end) = false).
  { apply not_true_is_false. intros Hall.
    apply Hmissing.
    destruct (files world !! (rootOf path +:+ ".mpd")),
      (files world !! (rootOf path +:+ ".av.webm")),
      (files world !! (rootOf path +:+ ".mobile.mp4")),
      (files world !! (rootOf path +:+ ".sample.mp4"));
      simpl in Hall; try discriminate; eauto 6. }
  destruct (files world !! (rootOf path +:+ ".mpd")) eqn:Empd;
    destruct (files world !! (rootOf path +:+ ".av.webm")) eqn:Eav;
    destruct (files world !! (rootOf path +:+ ".mobile.mp4")) eqn:Emobile;
    destruct (files world !! (rootOf path +:+ ".sample.mp4")) eqn:Esample;
    simpl in Hnot; try discriminate; cbn beta iota; rewrite ?Eav;
    rewrite ?Emobile, ?Esample; cbn beta iota; cbn [andb];
    destruct (files world !! dirname (rootOf path +:+ ".mpd"));
    eexists; eexists; (split; [reflexivity|]); simpl; auto.
Qed.
End PipelineFacts.

Lemma C7_all_artifacts_present_no_spawn_witness :
  let first :=
    createStreaming linuxShare linuxSource posixDirname posixJoin escapeMarkup
      (fun _ _ => []) quietEnv film [stereoTrack] (Some fullHD) [] true false
      7200000 finishedFilm in
  first = (Returned false, finishedFilm) /\
  spawns (snd first) = spawns finishedFilm /\
  createStreaming linuxShare linuxSource posixDirname posixJoin escapeMarkup
    (fun _ _ => []) quietEnv film [stereoTrack] (Some fullHD) [] true false
    7200000 (snd first)
  = (Returned false, snd first).
Proof.
  apply (C7_all_artifacts_present_no_spawn linuxShare linuxSource posixDirname
           posixJoin escapeMarkup (fun _ _ => []) quietEnv film [stereoTrack]
           (Some fullHD) [] true false 7200000 finishedFilm).
  - left. exists []. vm_compute. reflexivity.
  - exists []. vm_compute. reflexivity.
  - exists []. vm_compute. reflexivity.
Defined.

Lemma C10_no_audio_track_throws_witness :
  exists message world',
    createStreaming linuxShare linuxSource posixDirname posixJoin escapeMarkup
      (fun _ _ => []) quietEnv film [] (Some fullHD) [] true false 7200000
      emptyWorld
    = (Thrown (TypeError message), world') /\
    spawns world' = spawns emptyWorld /\
    (files world' = files emptyWorld
     \/ files world'
        = <[posixDirname (mpdRootOf linuxShare linuxSource film +:+ ".mpd") := []]>
            (files emptyWorld)).
Proof.
  apply (C10_no_audio_track_throws linuxShare linuxSource posixDirname
           posixJoin escapeMarkup (fun _ _ => []) quietEnv film (Some fullHD)
           [] true false 7200000 emptyWorld).
  - simpl. lia.
  - reflexivity.
  - vm_compute. reflexivity.
  - intros [_ [[x Hx] _]]. vm_compute in Hx. discriminate Hx.
Defined.

(* ------------------------------------------------------------------ *)
(** ** The retry policy of the parallel phase *)

Lemma retryInParallel_spec (t : Z) (pd : Q) :
  retryInParallel t pd = true <->
  ((pd < 10)%Q /\ 4 * t < 3 * maxTries) \/ 2 * t < maxTries.
Proof.
  unfold retryInParallel, maxTries.
  rewrite orb_true_iff, andb_true_iff, !Qlt_bool_iff.
  assert (H1 : (inject_Z t < inject_Z 6 * 3 / 4)%Q <-> 4 * t < 3 * 6).
  { unfold Qlt; simpl. lia. }
  assert (H2 : (inject_Z t < inject_Z 6 / 2)%Q <-> 2 * t < 6).
  { unfold Qlt; simpl. lia. }
  rewrite H1, H2. tauto.
Qed.

(** C1, counterexample. On its fourth failure a task whose progress is
    below 10% is sent back to [videoQueue] and started again in the
    parallel pool, although 4 is not below [floor(0.75 * 6) = 4] nor below
    [floor(0.5 * 6) = 3]. *)
Lemma C1_counterexample :
  let st :=
    runEvents (schedule [lowBudget "720p"; lowBudget "360p"] (noMaps 7200000))
      [Exit 1 1 "" 10; Exit 1 1 "" 20; Exit 1 1 "" 30] in
  live st !! 1%nat
  = Some (withProcess (Some 4%nat) (withTries 3 (lowBudget "720p")), Parallel) /\
  (let st' := deliver (Exit 1 1 "" 40) st in
   redoQueue st' = [] /\
   live st' !! 1%nat
   = Some (withProcess (Some 5%nat) (withTries 4 (lowBudget "720p")),
           Parallel)) /\
  ~ specRetryInParallel 4 0.
Proof.
  split; [vm_compute; reflexivity|].
  split; [split; vm_compute; reflexivity|].
  unfold specRetryInParallel. vm_compute. intros [[_ H]|H]; discriminate H.
Qed.

(** C1, amended. A task of the parallel phase that fails is put back into
    [videoQueue] exactly when the percentage that the handler reads from
    the progress record is below 10 and the incremented attempt count is
    below [0.75 * maxTries = 4.5] (at most 4), or the incremented count is
    below [0.5 * maxTries = 3]; in every other case it is appended to
    [redoQueue]. Either way [checkQueue] runs next. *)
Theorem C1_parallel_failure_policy (now : Z) (task : VideoRender) (st : Sched) :
  let t := tries task + 1 in
  let pd := percentDone st task in
  let task' := withTries t (withProcess None task) in
  let st' := withRunning (running st - 1) st in
  (retryInParallel t pd = true <->
   ((pd < 10)%Q /\ 4 * t < 3 * maxTries) \/ 2 * t < maxTries) /\
  parallelFailed now task st
  = checkQueue
      (report now [] (-1) (name task) true
         (if retryInParallel t pd
          then withQueues (task' :: videoQueue st) (redoQueue st) st'
          else withQueues (videoQueue st) (redoQueue st ++ [task']) st')).
Proof.
  intros t pd task' st'. split; [apply retryInParallel_spec|].
  unfold parallelFailed. cbn [tries withTries withProcess name].
  change (percentDone (withRunning (running st - 1) st) (withProcess None task))
    with pd.
  fold t. destruct (retryInParallel t pd); reflexivity.
Qed.

(* ------------------------------------------------------------------ *)
(** ** [checkQueue] *)

Lemma pop_nil {A} : pop (@nil A) = None.
Proof. reflexivity. Qed.

Lemma pop_snoc {A} (l : list A) (a : A) : pop (l ++ [a]) = Some (a, l).
Proof.
  unfold pop. rewrite last_snoc, removelast_last. reflexivity.
Qed.

Lemma snoc_cases {A} (l : list A) : l = [] \/ exists l' a, l = l' ++ [a].
Proof.
  destruct l as [|x l]; [left; reflexivity|right].
  destruct (exists_last (l := x :: l)) as (l' & a & E); [discriminate|].
  exists l', a. exact E.
Qed.

Lemma report_fields now data stream n dn st :
  let st' := report now data stream n dn st in
  videoQueue st' = videoQueue st /\ redoQueue st' = redoQueue st /\
  running st' = running st /\ live st' = live st /\
  renaming st' = renaming st /\ timers st' = timers st /\
  settled st' = settled st /\ spawned st' = spawned st /\
  killed st' = killed st /\ renamed st' = renamed st.
Proof.
  unfold report.
  destruct (videoProgress now data stream n dn (Some (progress st)));
    cbn; repeat split; reflexivity.
Qed.

(** With nothing pending, [checkQueue] starts the head of [redoQueue] when
    nothing runs, resolves when nothing is left, and waits otherwise. *)
Lemma checkQueue_nil (st : Sched) :
  videoQueue st = [] ->
  checkQueue st =
  if running st =? 0 then
    match redoQueue st with
    | task :: rest => startTask Redo task (withQueues [] rest st)
    | [] => settle (Ok tt) st
    end
  else st.
Proof.
  intros H. unfold checkQueue. rewrite H. cbn [length checkQueueFuel].
  rewrite H. cbn [length Z.of_nat Z.ltb Z.compare].
  rewrite andb_false_r.
  destruct (running st =? 0); cbn [andb]; [|reflexivity].
  destruct (redoQueue st); reflexivity.
Qed.


(* ------------------------------------------------------------------ *)
(** ** Counting tasks *)

Lemma parallelCount_snoc_parallel l t :
  parallelCount (l ++ [(t, Parallel)]) = S (parallelCount l).
Proof.
  unfold parallelCount. rewrite filter_app, length_app.
  rewrite filter_cons_True by exact I. simpl. lia.
Qed.

Lemma parallelCount_snoc_redo l t :
  parallelCount (l ++ [(t, Redo)]) = parallelCount l.
Proof.
  unfold parallelCount. rewrite filter_app, length_app.
  rewrite filter_cons_False by (intros H; exact H). simpl. lia.
Qed.

Lemma parallelCount_le l : (parallelCount l <= length l)%nat.
Proof. unfold parallelCount. apply length_filter. Qed.

Lemma parallelCount_delete l i t b :
  l !! i = Some (t, b) ->
  parallelCount l
  = (parallelCount (delete i l) + if isParallel (t, b) then 1 else 0)%nat.
Proof.
  intros H. unfold parallelCount.
  rewrite <- (take_drop_middle l i (t, b) H) at 1.
  rewrite delete_take_drop, !filter_app, !length_app.
  destruct b; cbn [isParallel snd].
  - rewrite filter_cons_True by exact I. simpl. lia.
  - rewrite filter_cons_False by (intros F; exact F). lia.
Qed.

Lemma length_delete_lookup {A} (l : list A) i x :
  l !! i = Some x -> length l = S (length (delete i l)).
Proof.
  intros H. rewrite length_delete by (exists x; exact H).
  apply lookup_lt_Some in H. lia.
Qed.

Lemma ltb_0_O : (0 <? Z.of_nat 0) = false.
Proof. reflexivity. Qed.

Lemma ltb_0_S (n : nat) : (0 <? Z.of_nat (S n)) = true.
Proof. apply Z.ltb_lt. lia. Qed.

(** [checkQueue] empties [videoQueue] when the tasks at hand are fewer
    than the slots, and keeps the balance. *)
Lemma checkQueueFuel_balanced (n : nat) (fuel : nat) :
  (n <= 5)%nat ->
  forall st,
    (length (videoQueue st) < fuel)%nat ->
    running st
    = Z.of_nat (parallelCount (live st) + parallelCount (renaming st)) ->
    (length (videoQueue st) + length (redoQueue st) + length (live st)
     + length (renaming st) <= n)%nat ->
    Balanced n (checkQueueFuel fuel st) /\
    videoQueue (checkQueueFuel fuel st) = [].
Proof.
  intros Hn. induction fuel as [|fuel IH]; intros st Hfuel Hrun Hcount;
    [lia|].
  pose proof (parallelCount_le (live st)) as Hl.
  pose proof (parallelCount_le (renaming st)) as Hr.
  cbn [checkQueueFuel].
  destruct (snoc_cases (videoQueue st)) as [E|(rest & task & E)].
  - rewrite E in *. cbn [length Z.of_nat Z.ltb Z.compare].
    rewrite andb_false_r.
    destruct (running st =? 0) eqn:E0; cbn [andb];
      destruct (redoQueue st) as [|task rest] eqn:ER;
      cbn [length]; rewrite ?ltb_0_S, ?ltb_0_O;
      unfold Balanced;
      cbn [settle startTask withQueues running live renaming redoQueue
           videoQueue];
      rewrite ?ER, ?parallelCount_snoc_redo, ?length_app; cbn [length] in *;
      repeat split; try assumption; try lia.
  - rewrite E in *. rewrite length_app in Hcount, Hfuel. cbn [length] in *.
    replace (running st <? simultaneousMax) with true
      by (symmetry; apply Z.ltb_lt; unfold simultaneousMax; lia).
    replace (0 <? Z.of_nat (length (rest ++ [task]))) with true
      by (symmetry; apply Z.ltb_lt; rewrite length_app; cbn; lia).
    cbn [andb]. rewrite pop_snoc.
    apply IH.
    + cbn. lia.
    + cbn [startTask withRunning withQueues running live renaming].
      rewrite parallelCount_snoc_parallel. lia.
    + cbn [startTask withRunning withQueues running live renaming redoQueue
           videoQueue].
      rewrite length_app. cbn [length]. lia.
Qed.

Lemma checkQueue_balanced (n : nat) (st : Sched) :
  (n <= 5)%nat ->
  running st
  = Z.of_nat (parallelCount (live st) + parallelCount (renaming st)) ->
  (length (videoQueue st) + length (redoQueue st) + length (live st)
   + length (renaming st) <= n)%nat ->
  Balanced n (checkQueue st) /\ videoQueue (checkQueue st) = [].
Proof.
  intros Hn Hrun Hcount. unfold checkQueue.
  apply checkQueueFuel_balanced; auto.
Qed.

Ltac open_report :=
  match goal with
  | |- context [report ?a ?b ?c ?d ?e ?s] =>
      let H := fresh "Hrep" in
      pose proof (report_fields a b c d e s) as H; cbv zeta in H;
      destruct H as (?E1 & ?E2 & ?E3 & ?E4 & ?E5 & ?E6 & ?E7 & ?E8 & ?E9 & ?E10);
      generalize dependent (report a b c d e s); intros
  end.

Lemma parallelFailed_balanced (n : nat) now task st :
  (n <= 5)%nat ->
  videoQueue st = [] ->
  running st
  = Z.of_nat (parallelCount (live st) + parallelCount (renaming st)) + 1 ->
  (length (redoQueue st) + length (live st) + length (renaming st) + 1 <= n)%nat ->
  Balanced n (parallelFailed now task st) /\
  videoQueue (parallelFailed now task st) = [].
Proof.
  intros Hn HV Hrun Hcount. unfold parallelFailed.
  destruct (retryInParallel _ _); open_report;
    apply checkQueue_balanced; auto;
    cbn [withQueues withRunning videoQueue redoQueue running live renaming] in *;
    try congruence.
  - rewrite E3, E4, E5. lia.
  - rewrite E1, E2, E4, E5, HV. cbn [length]. lia.
  - rewrite E3, E4, E5. lia.
  - rewrite E1, E2, E4, E5, HV, length_app. cbn [length]. lia.
Qed.

Lemma redoFailed_balanced (n : nat) now err task st :
  (n <= 5)%nat ->
  videoQueue st = [] ->
  Balanced (n - 1) st -> (1 <= n)%nat ->
  Balanced n (redoFailed now err task st) /\
  videoQueue (redoFailed now err task st) = [].
Proof.
  intros Hn HV [Hrun Hcount] Hpos. unfold redoFailed.
  destruct (_ <? maxTries).
  - open_report. apply checkQueue_balanced; auto;
      cbn [withQueues videoQueue redoQueue running live renaming] in *.
    + rewrite E3, E4, E5. exact Hrun.
    + rewrite E1, E2, E4, E5, HV, length_app. cbn [length]. lia.
  - unfold Balanced. cbn. repeat split; [exact Hrun|lia|exact HV].
Qed.

Lemma parallelCount_snoc l tb :
  parallelCount (l ++ [tb])
  = (parallelCount l + if isParallel tb then 1 else 0)%nat.
Proof.
  destruct tb as [t []]; cbn [isParallel snd].
  - rewrite parallelCount_snoc_parallel. lia.
  - rewrite parallelCount_snoc_redo. lia.
Qed.

Lemma Balanced_weaken (n m : nat) st :
  (n <= m)%nat -> Balanced n st -> Balanced m st.
Proof. intros H [H1 H2]. split; [exact H1|lia]. Qed.

Lemma failed_balanced (n : nat) now err tb i st :
  (n <= 5)%nat ->
  videoQueue st = [] -> Balanced n st -> live st !! i = Some tb ->
  let st' := failed now err tb (withFlight (delete i (live st)) (renaming st) st) in
  Balanced n st' /\ videoQueue st' = [].
Proof.
  intros Hn HV [Hrun Hcount] Hi st'. subst st'.
  pose proof (length_delete_lookup _ _ _ Hi) as Hlen.
  destruct tb as [t b].
  pose proof (parallelCount_delete _ _ _ _ Hi) as Hpar.
  unfold failed. destruct b; cbn [snd fst isParallel] in *.
  - apply parallelFailed_balanced; auto;
      cbn [withFlight videoQueue redoQueue running live renaming]; lia.
  - apply redoFailed_balanced; auto; [|lia].
    split; cbn [withFlight videoQueue redoQueue running live renaming]; lia.
Qed.

(** Every event keeps the balance and leaves [videoQueue] empty as long as
    the promise is not settled. *)
Lemma deliver_balanced (n : nat) (e : event) (st : Sched) :
  (n <= 5)%nat ->
  videoQueue st = [] -> Balanced n st ->
  Balanced n (deliver e st) /\
  (settled (deliver e st) = None -> videoQueue (deliver e st) = []).
Proof.
  intros Hn HV HB. destruct e as [i stream data now|i code errs now|i msg now
                                 |i err now|]; cbn [deliver].
  - destruct (live st !! i); [|auto].
    open_report. unfold Balanced in *. rewrite E2, E3, E4, E5. split; [exact HB|].
    intros _. congruence.
  - destruct (live st !! i) as [tb|] eqn:Hi; [|auto].
    open_report.
    assert (HB' : Balanced n s) by (unfold Balanced in *; rewrite E2, E3, E4, E5; exact HB).
    assert (HV' : videoQueue s = []) by congruence.
    assert (Hi' : live s !! i = Some tb) by congruence.
    destruct (code =? 0).
    + destruct HB' as [Hrun Hcount].
      pose proof (length_delete_lookup _ _ _ Hi') as Hlen.
      destruct tb as [t b].
      pose proof (parallelCount_delete _ _ _ _ Hi') as Hpar.
      unfold Balanced.
      cbn [withFlight videoQueue redoQueue running live renaming].
      rewrite parallelCount_snoc, length_app. cbn [length].
      split; [split; lia|auto].
    + destruct (failed_balanced n now
                  (ProcessError (if String.eqb errs "" then pretty code else errs)
                     code) tb i s Hn HV' HB' Hi') as [H1 H2].
      split; [exact H1|intros _; exact H2].
  - destruct (live st !! i) as [tb|] eqn:Hi; [|auto].
    open_report.
    assert (HB' : Balanced n s) by (unfold Balanced in *; rewrite E2, E3, E4, E5; exact HB).
    assert (HV' : videoQueue s = []) by congruence.
    assert (Hi' : live s !! i = Some tb) by congruence.
    destruct (failed_balanced n now (SystemError msg) tb i s Hn HV' HB' Hi')
      as [H1 H2].
    split; [exact H1|intros _; exact H2].
  - destruct (renaming st !! i) as [tb|] eqn:Hi; [|auto].
    destruct HB as [Hrun Hcount].
    pose proof (length_delete_lookup _ _ _ Hi) as Hlen.
    destruct tb as [t b].
    pose proof (parallelCount_delete _ _ _ _ Hi) as Hpar.
    destruct b; cbn [snd fst isParallel] in *.
    + destruct (checkQueue_balanced n
                  (withRunning
                     (running (logRename err t
                        (withFlight (live st) (delete i (renaming st)) st)) - 1)
                     (logRename err t
                        (withFlight (live st) (delete i (renaming st)) st))) Hn)
        as [H1 H2];
        cbn [withRunning logRename withFlight videoQueue redoQueue running live
             renaming]; try lia.
      * rewrite HV. cbn [length]. lia.
      * split; [exact H1|intros _; exact H2].
    + destruct (checkQueue_balanced (n - 1)
                  (logRename err t
                     (withFlight (live st) (delete i (renaming st)) st)))
        as [H1 H2];
        cbn [withRunning logRename withFlight videoQueue redoQueue running live
             renaming]; try lia.
      * rewrite HV. cbn [length]. lia.
      * destruct err as [e|].
        -- destruct (redoFailed_balanced n now e t _ Hn H2 H1) as [H3 H4];
             [lia|].
           split; [exact H3|intros _; exact H4].
        -- split; [apply (Balanced_weaken (n - 1)); [lia|exact H1]|].
           intros _; exact H2.
  - destruct (timers st) as [|err rest]; [auto|].
    unfold cleanUpAndFailTimeout, Balanced in *.
    cbn [settle withTimers videoQueue redoQueue running live renaming settled].
    split; [exact HB|].
    destruct (settled st); discriminate.
Qed.

(* ------------------------------------------------------------------ *)
(** ** The states that a run of the scheduler reaches *)

Lemma plan_length (isMovie isExtra : bool) (pw ph : Z) (hv hd hm hs : bool)
      (mpdRoot : string) (present : string -> bool)
      (ffmpegArgs : Resolution -> string -> list string) :
  (length (plannedQueue isMovie isExtra pw ph hv hd hm hs mpdRoot present
             ffmpegArgs) <= 5)%nat.
Proof.
  unfold plannedQueue, plan.
  assert (H : forall l acc,
             (length (snd (fold_left
                             (planStep isMovie isExtra pw ph hv hd hm hs mpdRoot
                                present ffmpegArgs) l acc))
              <= length (snd acc) + length l)%nat).
  { induction l as [|r l IH]; intros acc; cbn [fold_left length]; [lia|].
    etransitivity; [apply IH|].
    unfold planStep. destruct acc as [dv vq].
    destruct (shouldSkipVideo _ _ _ _ _ _ _ _ _); cbn [snd]; [lia|].
    destruct (present _); cbn [snd]; rewrite ?length_app; cbn [length]; lia. }
  specialize (H resolutions ([], [])). exact H.
Qed.

Lemma schedule_balanced (queue : list VideoRender) (p : VideoProgress) :
  (length queue <= 5)%nat ->
  Balanced (length queue) (schedule queue p) /\
  videoQueue (schedule queue p) = [].
Proof.
  intros H. unfold schedule.
  apply checkQueue_balanced; cbn; [exact H|reflexivity|lia].
Qed.

Lemma reachable_balanced (queue : list VideoRender) (p : VideoProgress) st :
  (length queue <= 5)%nat ->
  reachable queue p st ->
  Balanced (length queue) st /\ (settled st = None -> videoQueue st = []).
Proof.
  intros H R. induction R as [|st e R [IH1 IH2] Hopen].
  - destruct (schedule_balanced queue p H) as [H1 H2]. auto.
  - apply deliver_balanced; auto.
Qed.

(** C2. In every state that a run of the scheduler reaches from the queue
    of the planner, the tasks with a live external process, whether they
    were dispatched from [videoQueue] or from [redoQueue], are at most
    [simultaneousMax = 6], and so is the counter [running]. *)
Theorem C2_running_tasks_bounded
        (isMovie isExtra : bool) (pw ph : Z) (hv hd hm hs : bool)
        (mpdRoot : string) (present : string -> bool)
        (ffmpegArgs : Resolution -> string -> list string)
        (p : VideoProgress) (st : Sched) :
  reachable
    (plannedQueue isMovie isExtra pw ph hv hd hm hs mpdRoot present ffmpegArgs)
    p st ->
  Z.of_nat (length (live st)) <= simultaneousMax /\
  0 <= running st <= simultaneousMax.
Proof.
  intros R.
  pose proof (plan_length isMovie isExtra pw ph hv hd hm hs mpdRoot present
                ffmpegArgs) as Hlen.
  destruct (reachable_balanced _ _ _ Hlen R) as [[Hrun Hcount] _].
  pose proof (parallelCount_le (live st)).
  pose proof (parallelCount_le (renaming st)).
  unfold simultaneousMax. lia.
Qed.

(* ------------------------------------------------------------------ *)
(** ** The guard on [running], for queues of any length *)

Lemma checkQueueFuel_within_limit (fuel : nat) :
  forall st, WithinLimit st -> WithinLimit (checkQueueFuel fuel st).
Proof.
  induction fuel as [|fuel IH]; intros st [Hrun Hmax]; [split; assumption|].
  cbn [checkQueueFuel].
  destruct (running st <? simultaneousMax) eqn:Hlt; cbn [andb].
  - apply Z.ltb_lt in Hlt.
    destruct (0 <? Z.of_nat (length (videoQueue st))).
    + destruct (pop (videoQueue st)) as [[task rest]|]; [|split; assumption].
      apply IH. split;
        cbn [startTask withRunning withQueues running live renaming].
      * rewrite parallelCount_snoc_parallel. lia.
      * lia.
    + destruct ((running st =? 0) && (0 <? Z.of_nat (length (redoQueue st)))).
      * destruct (redoQueue st) as [|task rest]; [split; assumption|].
        split; cbn [startTask withQueues running live renaming];
          rewrite ?parallelCount_snoc_redo; assumption.
      * destruct (running st =? 0); split; assumption.
  - destruct ((running st =? 0) && (0 <? Z.of_nat (length (redoQueue st)))).
    + destruct (redoQueue st) as [|task rest]; [split; assumption|].
      split; cbn [startTask withQueues running live renaming];
        rewrite ?parallelCount_snoc_redo; assumption.
    + destruct (running st =? 0); split; assumption.
Qed.

Lemma failed_within_limit now err tb i st :
  WithinLimit st -> live st !! i = Some tb ->
  WithinLimit (failed now err tb (withFlight (delete i (live st)) (renaming st) st)).
Proof.
  intros [Hrun Hmax] Hi. destruct tb as [t b].
  pose proof (parallelCount_delete _ _ _ _ Hi) as Hpar.
  unfold failed. destruct b; cbn [snd fst isParallel] in *.
  - unfold parallelFailed.
    destruct (retryInParallel _ _); open_report;
      apply checkQueueFuel_within_limit; split;
      cbn [withQueues withRunning withFlight running live renaming] in *;
      rewrite ?E3, ?E4, ?E5; lia.
  - unfold redoFailed. destruct (_ <? maxTries).
    + open_report. apply checkQueueFuel_within_limit. split;
        cbn [withQueues withFlight running live renaming] in *;
        rewrite ?E3, ?E4, ?E5; lia.
    + unfold cleanUpAndFail.
      split; cbn [withFlight running live renaming]; lia.
Qed.

Lemma deliver_within_limit (e : event) (st : Sched) :
  WithinLimit st -> WithinLimit (deliver e st).
Proof.
  intros HG. destruct e as [i stream data now|i code errs now|i msg now
                           |i err now|]; cbn [deliver].
  - destruct (live st !! i); [|exact HG].
    open_report. unfold WithinLimit in *. rewrite E3, E4, E5. exact HG.
  - destruct (live st !! i) as [tb|] eqn:Hi; [|exact HG].
    open_report.
    assert (HG' : WithinLimit s) by (unfold WithinLimit in *; rewrite E3, E4, E5; exact HG).
    assert (Hi' : live s !! i = Some tb) by congruence.
    destruct (code =? 0); [|apply failed_within_limit; assumption].
    destruct HG' as [Hrun Hmax]. destruct tb as [t b].
    pose proof (parallelCount_delete _ _ _ _ Hi') as Hpar.
    split; cbn [withFlight running live renaming];
      rewrite ?parallelCount_snoc; lia.
  - destruct (live st !! i) as [tb|] eqn:Hi; [|exact HG].
    open_report.
    assert (HG' : WithinLimit s) by (unfold WithinLimit in *; rewrite E3, E4, E5; exact HG).
    assert (Hi' : live s !! i = Some tb) by congruence.
    apply failed_within_limit; assumption.
  - destruct (renaming st !! i) as [tb|] eqn:Hi; [|exact HG].
    destruct HG as [Hrun Hmax]. destruct tb as [t b].
    pose proof (parallelCount_delete _ _ _ _ Hi) as Hpar.
    pose proof (parallelCount_le (live st)).
    destruct b; cbn [snd fst isParallel] in *.
    + apply checkQueueFuel_within_limit. split;
        cbn [withRunning logRename withFlight running live renaming]; lia.
    + assert (HG1 : WithinLimit (checkQueue
                (logRename err t
                   (withFlight (live st) (delete i (renaming st)) st)))).
      { apply checkQueueFuel_within_limit. split;
          cbn [logRename withFlight running live renaming]; lia. }
      destruct err as [e|]; [|exact HG1].
      unfold redoFailed. destruct (_ <? maxTries).
      * open_report. apply checkQueueFuel_within_limit.
        destruct HG1 as [G1 G2]. split;
          cbn [withQueues running live renaming] in *;
          rewrite ?E3, ?E4, ?E5; assumption.
      * exact HG1.
  - destruct (timers st) as [|err rest]; [exact HG|].
    unfold cleanUpAndFailTimeout, WithinLimit in *.
    cbn [settle withTimers running live renaming]. exact HG.
Qed.


Lemma C2_running_tasks_bounded_witness :
  let st := deliver (Exit 0 1 "" 10) (schedule filmQueue (noMaps 7200000)) in
  Z.of_nat (length (live st)) <= simultaneousMax /\
  0 <= running st <= simultaneousMax.
Proof.
  apply (C2_running_tasks_bounded true false 1920 1080 true false false false
           "/mnt/streaming/Movies/Film" (fun _ => false)
           (fun _ path => [tmp path]) (noMaps 7200000)).
  apply reach_step; [apply reach_start|vm_compute; reflexivity].
Defined.

(* ------------------------------------------------------------------ *)
(** ** The retry in the parallel pool *)












(* ------------------------------------------------------------------ *)
(** ** The abort of the pipeline *)

Lemma pop_Forall {A} (P : A -> Prop) (l rest : list A) (a : A) :
  pop l = Some (a, rest) -> Forall P l -> Forall P rest.
Proof.
  intros Hpop Hall. destruct (snoc_cases l) as [E|(l' & b & E)]; subst l.
  - discriminate Hpop.
  - rewrite pop_snoc in Hpop. injection Hpop as -> ->.
    apply Forall_app in Hall. tauto.
Qed.

Lemma checkQueueFuel_unarmed (fuel : nat) :
  forall st, Unarmed st -> Unarmed (checkQueueFuel fuel st).
Proof.
  induction fuel as [|fuel IH]; intros st (HV & HR & HK); [repeat split; assumption|].
  cbn [checkQueueFuel].
  destruct ((running st <? simultaneousMax)
            && (0 <? Z.of_nat (length (videoQueue st)))).
  - destruct (pop (videoQueue st)) as [[task rest]|] eqn:Hpop;
      [|repeat split; assumption].
    apply IH. repeat split; cbn; try assumption.
    exact (pop_Forall _ _ _ _ Hpop HV).
  - destruct ((running st =? 0) && (0 <? Z.of_nat (length (redoQueue st)))).
    + destruct (redoQueue st) as [|task rest] eqn:ER;
        [repeat split; try assumption; rewrite ER; constructor|].
      repeat split; cbn; try assumption.
      inversion HR; assumption.
    + destruct (running st =? 0); repeat split; assumption.
Qed.

Lemma report_unarmed now data stream n dn st :
  Unarmed st -> Unarmed (report now data stream n dn st).
Proof.
  intros H. unfold Unarmed in *.
  destruct (report_fields now data stream n dn st)
    as (E1 & E2 & _ & _ & _ & _ & _ & _ & E9 & _).
  rewrite E1, E2, E9. exact H.
Qed.

Lemma failed_unarmed now err tb l r st :
  Unarmed st -> Unarmed (failed now err tb (withFlight l r st)).
Proof.
  intros (HV & HR & HK). unfold failed. destruct (snd tb).
  - unfold parallelFailed.
    destruct (retryInParallel _ _);
      apply checkQueueFuel_unarmed, report_unarmed; repeat split; cbn;
      try assumption.
    + constructor; [reflexivity|assumption].
    + apply Forall_app. split; [assumption|]. constructor; [reflexivity|constructor].
  - unfold redoFailed. destruct (_ <? maxTries).
    + apply checkQueueFuel_unarmed, report_unarmed; repeat split; cbn;
        try assumption.
      apply Forall_app. split; [assumption|]. constructor; [reflexivity|constructor].
    + repeat split; assumption.
Qed.

Lemma handles_unarmed (q : list VideoRender) :
  Forall (fun t => process t = None) q -> handles q = [].
Proof.
  induction 1 as [|t q Ht _ IH]; [reflexivity|].
  unfold handles in *. cbn. rewrite Ht. exact IH.
Qed.

Lemma deliver_unarmed (e : event) (st : Sched) :
  Unarmed st -> Unarmed (deliver e st).
Proof.
  intros HU. destruct e as [i stream data now|i code errs now|i msg now
                           |i err now|]; cbn [deliver].
  - destruct (live st !! i); [apply report_unarmed|]; exact HU.
  - destruct (live st !! i) as [tb|]; [|exact HU].
    destruct (code =? 0).
    + apply (report_unarmed now (txt (pretty code)) 0 (name (fst tb)) true) in HU.
      destruct HU as (HV & HR & HK). repeat split; assumption.
    + apply failed_unarmed, report_unarmed, HU.
  - destruct (live st !! i) as [tb|]; [|exact HU].
    apply failed_unarmed, report_unarmed, HU.
  - destruct (renaming st !! i) as [tb|]; [|exact HU].
    destruct HU as (HV & HR & HK).
    destruct (snd tb).
    + apply checkQueueFuel_unarmed. repeat split; assumption.
    + assert (H1 : Unarmed (checkQueue
                     (logRename err (fst tb)
                        (withFlight (live st) (delete i (renaming st)) st))))
        by (apply checkQueueFuel_unarmed; repeat split; assumption).
      destruct err as [e|]; [|exact H1].
      destruct H1 as (H1 & H2 & H3).
      unfold redoFailed. destruct (_ <? maxTries).
      * apply checkQueueFuel_unarmed, report_unarmed; repeat split; cbn;
          try assumption.
        apply Forall_app. split; [assumption|].
        constructor; [reflexivity|constructor].
      * repeat split; assumption.
  - destruct (timers st) as [|err rest]; [exact HU|].
    destruct HU as (HV & HR & HK).
    unfold cleanUpAndFailTimeout. repeat split; cbn.
    + apply Forall_app; split; assumption.
    + assumption.
    + rewrite HK, handles_unarmed; [reflexivity|].
      apply Forall_app; split; assumption.
Qed.

(** The loop of [cleanUpAndFail] walks [videoQueue] and [redoQueue], and a
    task in a queue never holds a process: in no run is a process killed. *)
Lemma cleanUpAndFail_kills_nothing (queue : list VideoRender)
      (p : VideoProgress) (st : Sched) :
  Forall (fun t => process t = None) queue ->
  reachable queue p st -> killed st = [].
Proof.
  intros Hq R.
  assert (HU : Unarmed st).
  { induction R as [|st e R IH Hopen].
    - unfold schedule. apply checkQueueFuel_unarmed.
      repeat split; cbn; [exact Hq|constructor].
    - apply deliver_unarmed, IH. }
  apply HU.
Qed.

(** What holds of the redo phase. A redo task is started only by a
    [checkQueue] that finds [running = 0] and [videoQueue] empty, one task
    for each call. *)
Lemma redo_started_when_idle (st : Sched) :
  videoQueue st = [] ->
  live (checkQueue st) <> live st ->
  running st = 0 /\
  exists task rest,
    redoQueue st = task :: rest /\
    redoQueue (checkQueue st) = rest /\
    live (checkQueue st)
    = live st ++ [(withProcess (Some (length (spawned st))) task, Redo)].
Proof.
  intros HV Hlive. rewrite (checkQueue_nil st HV) in *.
  destruct (running st =? 0) eqn:E; [|congruence].
  apply Z.eqb_eq in E. split; [exact E|].
  destruct (redoQueue st) as [|task rest]; [cbn in Hlive; congruence|].
  exists task, rest. repeat split.
Qed.

(** A redo task that fails with attempts to spare goes to the end of
    [redoQueue]; with none left it arms the timer of [cleanUpAndFail], and
    the timer rejects the promise with the error of that task. *)
Lemma redo_failure_policy (now : Z) (err : error) (task : VideoRender)
      (st : Sched) :
  (tries task + 1 < maxTries ->
   redoFailed now err task st
   = checkQueue
       (report now [] (-1) (name task) true
          (withQueues (videoQueue st)
             (redoQueue st ++ [withProcess None (withTries (tries task + 1) task)])
             st))) /\
  (maxTries <= tries task + 1 ->
   redoFailed now err task st = cleanUpAndFail err st /\
   (settled st = None -> timers st = [] ->
    settled (deliver TimerFired (cleanUpAndFail err st)) = Some (Throw err))).
Proof.
  unfold redoFailed. cbn [tries withTries]. split; intros H.
  - replace (tries task + 1 <? maxTries) with true
      by (symmetry; apply Z.ltb_lt; exact H).
    reflexivity.
  - replace (tries task + 1 <? maxTries) with false
      by (symmetry; apply Z.ltb_ge; exact H).
    split; [reflexivity|]. intros Hopen Htimers.
    unfold deliver, cleanUpAndFail. cbn [timers]. rewrite Htimers.
    cbn [app]. unfold cleanUpAndFailTimeout, settle, withTimers.
    cbn [settled]. rewrite Hopen. reflexivity.
Qed.

(** C4, the failing run. Both renditions wait in [redoQueue] with five
    attempts each. The first redo task exits with code 0 and its rename is
    rejected: the [finally] callback starts the second redo task, the
    [catch] callback finds the attempts exhausted and calls
    [cleanUpAndFail]. When the timer fires the promise is rejected with
    the error of the rename, no process is killed, and the second redo
    task is still running. *)
Theorem C4_abort_leaves_redo_task_running :
  let st :=
    runEvents (schedule [lowBudget "720p"; lowBudget "360p"] (noMaps 7200000))
      renameRejected in
  settled st = Some (Throw (SystemError "EACCES")) /\
  map (fun tb => (name (fst tb), process (fst tb), tries (fst tb), snd tb))
      (live st)
  = [("720p", Some 11%nat, 5, Redo)] /\
  killed st = [].
Proof. vm_compute. repeat split; reflexivity. Qed.

(* ------------------------------------------------------------------ *)
(** ** The progress aggregator *)

Lemma recordOf_default {A} (m : option (gmap string A)) (n : string) :
  recordOf (Some (default ∅ m)) n = recordOf m n.
Proof. destruct m; cbn; [reflexivity|apply lookup_empty]. Qed.

(** A numeral followed by a fraction is not an integer numeral: [toInt]
    gives 0 for it, whatever the digits. *)
Lemma isNumeral_fraction (ds fs : text) : isNumeral (ds ++ "."%char :: fs) = false.
Proof.
  unfold isNumeral. destruct (ds ++ "."%char :: fs) eqn:E.
  - destruct ds; discriminate E.
  - rewrite <- E. rewrite forallb_app. cbn. apply andb_false_r.
Qed.

Lemma toInt_fraction (ds fs : text) : toInt (ds ++ "."%char :: fs) = 0.
Proof.
  assert (G : forall s, isNumeral (s ++ "."%char :: fs) = false)
    by (intros s; apply isNumeral_fraction).
  unfold toInt. destruct ds as [|a ds].
  - reflexivity.
  - cbn [app]. pose proof (G (a :: ds)) as Ha. pose proof (G ds) as Hd.
    cbn [app] in Ha. rewrite Ha, Hd.
    destruct a as [[] [] [] [] [] [] [] []]; reflexivity.
Qed.

(** With its progress record at hand [videoProgress] returns for every
    line. A line without a percent marker and without a time marker,
    delivered with [done = false], leaves the percent, speed and error
    record of every task as they were. A line with a time marker and no
    percent marker, delivered on stdout with [done = false], sets the
    percent of the task (read with the default -1, as the function reads
    it) to the share of the seconds that the function makes of the marker
    in the duration of the asset (a positive number of milliseconds), or
    in the 180000 ms of the sample clip for the task named 320p. *)
Lemma videoProgress_returns_and_reads_markers
        (now : Z) (data : text) (stream : Z) (name : string) (done : bool)
        (p : VideoProgress) :
  exists p',
    videoProgress now data stream name done (Some p) = Ok p' /\
    (regexExec rePercent data = None -> regexExec reTime data = None ->
     done = false ->
     forall n, recordOf (percent p') n = recordOf (percent p) n /\
               recordOf (speed p') n = recordOf (speed p) n /\
               recordOf (errors p') n = recordOf (errors p) n) /\
    (forall c, regexExec rePercent data = None ->
               regexExec reTime data = Some c ->
               stream = 0 -> done = false -> (0 < duration p)%Q ->
               (default (-1) (recordOf (percent p') name)
                == timePercent
                     (if String.eqb name "320p" then 180000 else duration p)
                     (elapsedSeconds c))%Q).
Proof.
  unfold videoProgress.
  set (D := if String.eqb name "320p" then 180000%Q else duration p).
  destruct ((stream =? 0) || (negb (isEmpty data) && readFromError p) || done)
    eqn:Hgate.
  - destruct (match marker D data with Some _ => true | None => false end
              || (done && (stream <=? 0))) eqn:Hmark.
    + destruct (negb (Qeq_bool (default (-1)%Q (default ∅ (percent p) !! name))
                        (if stream <? 0 then (-1)%Q
                         else if done then 100%Q
                         else min (round (default 0%Q (marker D data)) (1 # 10))
                                  (999 # 10)))) eqn:Hnew.
      * eexists. split; [reflexivity|]. cbn [percent speed errors]. split.
        -- intros H1 H2 Hd. exfalso. subst done. unfold marker in Hmark.
           rewrite H1, H2 in Hmark. discriminate Hmark.
        -- intros c H1 H2 Hs Hd _. subst stream done. cbn [Z.ltb Z.compare].
           unfold marker. rewrite H1, H2. cbn [default recordOf mbind
                                              option_bind].
           rewrite lookup_insert_eq. reflexivity.
      * eexists. split; [reflexivity|]. cbn [percent speed errors]. split.
        -- intros H1 H2 Hd. exfalso. subst done. unfold marker in Hmark.
           rewrite H1, H2 in Hmark. discriminate Hmark.
        -- intros c H1 H2 Hs Hd _. subst stream done.
           apply negb_false_iff, Qeq_bool_iff in Hnew.
           cbn [Z.ltb Z.compare] in Hnew. unfold marker in Hnew.
           rewrite H1, H2 in Hnew. cbn [default] in Hnew.
           rewrite recordOf_default.
           assert (E : default (-1)%Q (default ∅ (percent p) !! name)
                       = default (-1)%Q (recordOf (percent p) name)).
           { rewrite <- recordOf_default. reflexivity. }
           rewrite <- E. exact Hnew.
    + eexists. split; [reflexivity|]. cbn [percent speed errors]. split.
      * intros H1 H2 Hd. subst done. cbn [andb].
        intros n. rewrite !recordOf_default. auto.
      * intros c H1 H2 Hs Hd _. exfalso. unfold marker in Hmark.
        rewrite H1, H2 in Hmark. discriminate Hmark.
  - eexists. split; [reflexivity|]. cbn [percent speed errors]. split.
    + intros _ _ _ n. rewrite !recordOf_default. auto.
    + intros c _ _ Hs _ _. exfalso. subst stream. discriminate Hgate.
Qed.

(** C9, the failing input. The encoder reports its position with a
    fraction of a second, and the third group of [reTime] takes the
    fraction with the seconds. For the line [out_time=00:01:45.000000] the
    three groups are 00, 01 and 45.000000; [toInt] gives 0 for the third,
    which is not an integer numeral, so that the function counts 60 seconds
    where the marker says 105. For the task 720p of a two-hour asset it
    records 0.8%, the share of 60 seconds, exactly what it records for
    [out_time=00:01:00.000000] and for [out_time=00:01:59.990000]; the
    share of 105 seconds is 1.5%. *)
Theorem C9_seconds_with_fraction_dropped :
  let data := txt "out_time=00:01:45.000000" in
  let run line :=
    videoProgress 1000 line 0 "720p" false (Some (noMaps 7200000)) in
  exists c p' v,
    regexExec rePercent data = None /\
    regexExec reTime data = Some c /\
    (capture 1 c, capture 2 c, capture 3 c)
    = (txt "00", txt "01", txt "45.000000") /\
    toInt (capture 3 c) = 0 /\
    elapsedSeconds c = 60 /\
    run data = Ok p' /\
    recordOf (percent p') "720p" = Some v /\
    (v == 8 # 10)%Q /\
    (v == timePercent 7200000 60)%Q /\
    (timePercent 7200000 105 == 15 # 10)%Q /\
    run (txt "out_time=00:01:00.000000") = Ok p' /\
    run (txt "out_time=00:01:59.990000") = Ok p'.
Proof.
  cbv zeta beta.
  eexists. eexists. eexists.
  split; [vm_compute; reflexivity|].
  split; [vm_compute; reflexivity|].
  split; [vm_compute; reflexivity|].
  split; [vm_compute; reflexivity|].
  split; [vm_compute; reflexivity|].
  split; [vm_compute; reflexivity|].
  split; [vm_compute; reflexivity|].
  split; [vm_compute; reflexivity|].
  split; [vm_compute; reflexivity|].
  split; [vm_compute; reflexivity|].
  split; vm_compute; reflexivity.
Qed.

(* ------------------------------------------------------------------ *)
(** ** The matcher *)

Lemma stripPrefix_app (p s : text) : stripPrefix p (p ++ s) = Some s.
Proof.
  induction p as [|a p IH]; [reflexivity|].
  cbn. rewrite Ascii.eqb_refl. exact IH.
Qed.

Lemma stripPrefix_none_extend (p v : text) (a : ascii) (rest : text) :
  stripPrefix p v = None -> ~ In a p ->
  stripPrefix p (v ++ a :: rest) = None.
Proof.
  revert v. induction p as [|b p IH]; intros v H Hin; [discriminate H|].
  destruct v as [|c v]; cbn in *.
  - destruct (Ascii.eqb b a) eqn:E; [|reflexivity].
    apply Ascii.eqb_eq in E. subst. exfalso. apply Hin. left. reflexivity.
  - destruct (Ascii.eqb b c); [|reflexivity].
    apply IH; [exact H|]. intros F. apply Hin. right. exact F.
Qed.

Section Greedy.
Context {A : Type} (p : ascii -> bool) (k : text -> option A).

Lemma manyGreedy_through (u v : text) (x : A) :
  forallb p u = true -> manyGreedy p k v = Some x ->
  manyGreedy p k (u ++ v) = Some x.
Proof.
  induction u as [|a u IH]; intros Hu Hv; [exact Hv|].
  cbn in Hu. apply andb_true_iff in Hu. destruct Hu as [Ha Hu].
  cbn. rewrite Ha, (IH Hu Hv). reflexivity.
Qed.

Lemma manyGreedy_over (u v : text) :
  forallb p u = true -> (forall a s, In a u -> k (a :: s) = None) ->
  manyGreedy p k (u ++ v) = manyGreedy p k v.
Proof.
  induction u as [|a u IH]; intros Hu Hk; [reflexivity|].
  cbn in Hu. apply andb_true_iff in Hu. destruct Hu as [Ha Hu].
  cbn. rewrite Ha, (IH Hu) by (intros b s Hb; apply Hk; right; exact Hb).
  destruct (manyGreedy p k v); [reflexivity|].
  apply Hk. left. reflexivity.
Qed.

Lemma manyLazy_over (u v : text) :
  forallb p u = true ->
  (forall u1 a u2, u = u1 ++ a :: u2 -> k (a :: u2 ++ v) = None) ->
  manyLazy p k (u ++ v) = manyLazy p k v.
Proof.
  induction u as [|a u IH]; intros Hu Hk; [reflexivity|].
  cbn in Hu. apply andb_true_iff in Hu. destruct Hu as [Ha Hu].
  cbn. rewrite (Hk [] a u eq_refl), Ha.
  apply IH; [exact Hu|].
  intros u1 b u2 E. apply (Hk (a :: u1) b u2). rewrite E. reflexivity.
Qed.

Lemma manyLazy_here (v : text) (x : A) :
  k v = Some x -> manyLazy p k v = Some x.
Proof. intros H. destruct v; cbn; rewrite H; reflexivity. Qed.
End Greedy.

Lemma separator_not_slash (a : ascii) :
  isSeparator a = false -> Ascii.eqb "/" a = false.
Proof.
  unfold isSeparator, oneOf. intros H.
  cbn [txt list_ascii_of_string existsb] in H.
  apply orb_false_iff in H. destruct H as [H _].
  rewrite Ascii.eqb_sym. exact H.
Qed.

Lemma separator_is_dot (a : ascii) : isSeparator a = true -> dot a = true.
Proof.
  unfold isSeparator, oneOf. intros H.
  cbn [txt list_ascii_of_string existsb] in H.
  apply orb_true_iff in H. destruct H as [H|H].
  - apply Ascii.eqb_eq in H. subst a. reflexivity.
  - apply orb_true_iff in H. destruct H as [H|H]; [|discriminate H].
    apply Ascii.eqb_eq in H. subst a. reflexivity.
Qed.

Lemma file_parts (file : text) :
  forallb (fun a => dot a && negb (isSeparator a)) file = true ->
  forallb dot file = true /\ forall a, In a file -> isSeparator a = false.
Proof.
  induction file as [|b f IH]; intros H; [split; [reflexivity|intros a []]|].
  cbn in H. apply andb_true_iff in H. destruct H as [Hb Hf].
  apply andb_true_iff in Hb. destruct Hb as [Hd Hs].
  apply negb_true_iff in Hs. destruct (IH Hf) as [IH1 IH2].
  split; [cbn; rewrite Hd; exact IH1|].
  intros a [E|Hin]; [subst; exact Hs|apply IH2; exact Hin].
Qed.

(** No closing tag starts inside a file name that is followed by one. *)
Lemma closeTag_not_inside (a : ascii) (u rest : text) :
  (forall b, In b (a :: u) -> isSeparator b = false) ->
  stripPrefix closeTag (a :: u ++ closeTag ++ rest) = None.
Proof.
  intros H. unfold closeTag at 1. cbn [txt list_ascii_of_string stripPrefix].
  destruct (Ascii.eqb "<" a); [|reflexivity].
  destruct u as [|b u]; cbn [app stripPrefix]; [reflexivity|].
  rewrite (separator_not_slash b); [reflexivity|].
  apply H. right. left. reflexivity.
Qed.

(** The match of [reBaseURL] at an element that ends its line: the greedy
    [.*] takes the directory, the lazy group the file name. *)
Lemma matchAt_element (directory : text) (separator : ascii) (file rest : text) :
  forallb dot directory = true -> isSeparator separator = true ->
  forallb (fun a => dot a && negb (isSeparator a)) file = true ->
  matchAt reBaseURL
    (openTag ++ directory ++ separator :: file ++ closeTag ++ lineFeed :: rest)
  = Some (length (openTag ++ directory ++ separator :: file ++ closeTag),
          [(3%nat, closeTag); (2%nat, file); (1%nat, openTag)]).
Proof.
  intros Hd Hs Hf. destruct (file_parts file Hf) as [Hfd Hfs].
  unfold matchAt, reBaseURL. cbn [cats exec].
  fold openTag closeTag. rewrite stripPrefix_app.
  erewrite manyGreedy_through; [reflexivity|exact Hd|].
  cbn [manyGreedy]. rewrite (separator_is_dot _ Hs).
  rewrite manyGreedy_over;
    [|exact Hfd|intros a s Ha; rewrite (Hfs a Ha); reflexivity].
  replace (manyGreedy dot _ (closeTag ++ lineFeed :: rest)) with (@None (nat * caps))
    by (vm_compute; reflexivity).
  rewrite Hs.
  rewrite manyLazy_over;
    [|exact Hfd
     |intros u1 a u2 E; rewrite closeTag_not_inside; [reflexivity|];
      intros b Hb; apply Hfs; rewrite E; apply in_or_app; right; exact Hb].
  erewrite manyLazy_here; [reflexivity|].
  rewrite stripPrefix_app. f_equal. f_equal.
  - rewrite !length_app. cbn [length]. rewrite !length_app. cbn [length]. lia.
  - f_equal; [|f_equal]; f_equal.
    + rewrite length_app.
      replace (length closeTag + length (lineFeed :: rest)
               - length (lineFeed :: rest))%nat with (length closeTag) by lia.
      apply take_app_length.
    + f_equal. rewrite length_app.
      replace (length file + length (closeTag ++ lineFeed :: rest)
               - length (closeTag ++ lineFeed :: rest))%nat
        with (length file) by lia.
      apply take_app_length.
    + f_equal. f_equal. rewrite length_app.
      replace (length openTag
               + length (directory ++ separator :: file ++ closeTag
                         ++ lineFeed :: rest)
               - length (directory ++ separator :: file ++ closeTag
                         ++ lineFeed :: rest))%nat
        with (length openTag) by lia.
      apply take_app_length.
Qed.

Section ReplaceAll.
Variables (r : re) (f : text -> caps -> text).

Lemma replaceAll_skip (m rest : text) :
  replaceAll r f (length m) (m ++ rest) = replaceAll r f 0 rest.
Proof.
  induction m as [|a m IH]; [destruct rest; reflexivity|].
  cbn [length app replaceAll]. exact IH.
Qed.

Lemma replaceAll_match (a : ascii) (m rest : text) (c : caps) :
  matchAt r (a :: m ++ rest) = Some (length (a :: m), c) ->
  replaceAll r f 0 (a :: m ++ rest)
  = f (a :: m) c ++ replaceAll r f 0 rest.
Proof.
  intros H. cbn [replaceAll]. rewrite H. cbn [length].
  change (a :: m ++ rest) with ((a :: m) ++ rest) at 1.
  rewrite (take_app_length' (a :: m) rest) by reflexivity.
  rewrite replaceAll_skip. reflexivity.
Qed.

Lemma replaceAll_pass (pre rest : text) :
  (forall u a v, pre = u ++ a :: v -> matchAt r (a :: v ++ rest) = None) ->
  replaceAll r f 0 (pre ++ rest) = pre ++ replaceAll r f 0 rest.
Proof.
  induction pre as [|a pre IH]; intros H; [reflexivity|].
  cbn [app replaceAll]. rewrite (H [] a pre eq_refl).
  f_equal. apply IH. intros u b v E. apply (H (a :: u) b v).
  rewrite E. reflexivity.
Qed.
End ReplaceAll.

Lemma matchAt_without_openTag (s : text) :
  stripPrefix openTag s = None -> matchAt reBaseURL s = None.
Proof.
  intros H. unfold matchAt, reBaseURL. cbn [cats exec].
  fold openTag. rewrite H. reflexivity.
Qed.

Lemma searchFrom_none (r : re) (u v : text) (i : nat) :
  searchFrom r i (u ++ v) = None -> matchAt r v = None.
Proof.
  revert i. induction u as [|a u IH]; intros i H.
  - destruct v; cbn in H; destruct (matchAt r _) as [[n c]|]; congruence.
  - cbn [app searchFrom] in H.
    destruct (matchAt r (a :: u ++ v)) as [[n c]|]; [discriminate H|].
    exact (IH _ H).
Qed.

Lemma plain_has_no_openTag (t : text) (u v : text) :
  regexTest (Lit "<BaseURL>") t = false -> t = u ++ v ->
  stripPrefix openTag v = None.
Proof.
  unfold regexTest. intros H E. subst t.
  destruct (searchFrom (Lit "<BaseURL>") 0 (u ++ v)) eqn:S; [discriminate H|].
  apply searchFrom_none in S. unfold matchAt in S. cbn [exec] in S.
  fold openTag in S. destruct (stripPrefix openTag v); [discriminate S|reflexivity].
Qed.

Lemma regexTest_class (p : ascii -> bool) (s : text) :
  regexTest (Cls p) s = existsb p s.
Proof.
  unfold regexTest.
  assert (H : forall i,
             match searchFrom (Cls p) i s with Some _ => true | None => false end
             = existsb p s).
  { induction s as [|a s IH]; intros i; [reflexivity|].
    cbn [searchFrom existsb]. unfold matchAt. cbn [exec].
    destruct (p a); [reflexivity|]. apply IH. }
  apply H.
Qed.

(** The two tests of the replacement callback find what the
    specification names: a markup-significant character, an entity. *)
Lemma manyGreedy_entity {A} (f : text -> A) (s : text) :
  match manyGreedy isEntityChar
          (fun s' => match stripPrefix (txt ";") s' with
                     | Some s'' => Some (f s'')
                     | None => None
                     end) s
  with Some _ => true | None => false end
  = entityEnds s.
Proof.
  induction s as [|a s IH]; [reflexivity|].
  cbn [manyGreedy entityEnds]. destruct (isEntityChar a) eqn:Ha.
  - destruct (manyGreedy isEntityChar _ s) eqn:Hs; [exact IH|].
    rewrite <- IH.
    cbn [txt list_ascii_of_string stripPrefix].
    destruct (Ascii.eqb ";" a) eqn:E; [|reflexivity].
    apply Ascii.eqb_eq in E. subst a. discriminate Ha.
  - cbn [txt list_ascii_of_string stripPrefix]. rewrite (Ascii.eqb_sym a).
    destruct (Ascii.eqb ";" a); reflexivity.
Qed.

Lemma matchAt_entity (s : text) :
  match matchAt reEntity s with Some _ => true | None => false end
  = startsWithEntity s.
Proof.
  unfold matchAt, reEntity, Plus. cbn [cats exec].
  destruct s as [|a s]; [reflexivity|].
  cbn [txt list_ascii_of_string stripPrefix startsWithEntity].
  rewrite (Ascii.eqb_sym a).
  destruct (Ascii.eqb "&" a); [|destruct s; reflexivity].
  destruct s as [|b s]; [reflexivity|]. cbn [andb].
  change (fun a0 : ascii => oneOf "#" a0 || inRange "a" "z" a0 || isDigit a0)
    with isEntityChar.
  change (oneOf "#" b || inRange "a" "z" b || isDigit b) with (isEntityChar b).
  destruct (isEntityChar b); [|reflexivity]. cbn [andb].
  apply (manyGreedy_entity
           (fun s'' => ((length (a :: b :: s) - length s'')%nat, @nil (nat * text)))).
Qed.

Lemma regexTest_entity (s : text) : regexTest reEntity s = hasEntity s.
Proof.
  unfold regexTest.
  assert (H : forall i,
             match searchFrom reEntity i s with Some _ => true | None => false end
             = hasEntity s).
  { induction s as [|a s IH]; intros i; [reflexivity|].
    cbn [searchFrom hasEntity]. rewrite <- matchAt_entity.
    destruct (matchAt reEntity (a :: s)) as [[n c]|]; [reflexivity|].
    cbn [orb]. apply IH. }
  apply H.
Qed.

Lemma fixPath_spec (htmlEscape : text -> text) (value : text) :
  fixPath htmlEscape value = specValue htmlEscape value.
Proof.
  unfold fixPath, specValue, reMarkup.
  rewrite regexTest_class, regexTest_entity. reflexivity.
Qed.

(* ------------------------------------------------------------------ *)
(** ** The manifest fix-up *)

Section ManifestFacts.
Variable htmlEscape : text -> text.

Let callback : text -> caps -> text :=
  fun _ c => capture 1 c ++ fixPath htmlEscape (capture 2 c) ++ capture 3 c.

Lemma fix_lineFeed (rest : text) :
  fixManifest htmlEscape (lineFeed :: rest)
  = lineFeed :: fixManifest htmlEscape rest.
Proof.
  unfold fixManifest.
  apply (replaceAll_pass reBaseURL _ [lineFeed] rest).
  intros u a v E. apply matchAt_without_openTag.
  destruct u as [|b u]; [|destruct u; discriminate E].
  injection E as <- <-. reflexivity.
Qed.

Lemma fix_plain (t rest : text) :
  wellFormed (Plain t) = true ->
  fixManifest htmlEscape (t ++ lineFeed :: rest)
  = t ++ lineFeed :: fixManifest htmlEscape rest.
Proof.
  intros H. cbn [wellFormed] in H. apply andb_true_iff in H.
  destruct H as [Hdot Hno]. apply negb_true_iff in Hno.
  rewrite <- fix_lineFeed. unfold fixManifest.
  apply replaceAll_pass. intros u a v E.
  apply matchAt_without_openTag.
  change (a :: v ++ lineFeed :: rest) with ((a :: v) ++ lineFeed :: rest).
  apply stripPrefix_none_extend.
  - exact (plain_has_no_openTag t u (a :: v) Hno E).
  - vm_compute. intuition discriminate.
Qed.

Lemma fix_element (indent directory : text) (separator : ascii)
      (file rest : text) :
  wellFormed (Element indent directory separator file) = true ->
  fixManifest htmlEscape
    (renderLine (Element indent directory separator file) ++ lineFeed :: rest)
  = indent ++ openTag ++ fixPath htmlEscape file ++ closeTag
    ++ lineFeed :: fixManifest htmlEscape rest.
Proof.
  intros H. cbn [wellFormed] in H.
  apply andb_true_iff in H. destruct H as [H Hf].
  apply andb_true_iff in H. destruct H as [H Hs].
  apply andb_true_iff in H. destruct H as [Hi Hd].
  cbn [renderLine]. rewrite <- fix_lineFeed. unfold fixManifest.
  rewrite <- !app_assoc.
  rewrite replaceAll_pass.
  - f_equal.
    set (m := txt "BaseURL>" ++ directory ++ separator :: file ++ closeTag).
    assert (E : openTag ++ directory ++ (separator :: file ++ closeTag)
                ++ lineFeed :: rest
                = "<"%char :: m ++ lineFeed :: rest).
    { subst m. unfold openTag. cbn [txt list_ascii_of_string app].
      rewrite <- !app_assoc. cbn [app]. rewrite <- !app_assoc.
      reflexivity. }
    assert (E' : "<"%char :: m
                 = openTag ++ directory ++ separator :: file ++ closeTag)
      by reflexivity.
    rewrite E.
    rewrite (replaceAll_match reBaseURL _ "<"%char m (lineFeed :: rest)
               [(3%nat, closeTag); (2%nat, file); (1%nat, openTag)]).
    + cbn [capture group Nat.eqb default]. rewrite <- !app_assoc. reflexivity.
    + rewrite <- E, E'.
      replace (openTag ++ directory ++ (separator :: file ++ closeTag)
               ++ lineFeed :: rest)
        with (openTag ++ directory ++ separator :: file ++ closeTag
              ++ lineFeed :: rest)
        by (cbn [app]; rewrite <- !app_assoc; reflexivity).
      apply matchAt_element; assumption.
  - intros u a v E. apply matchAt_without_openTag.
    assert (Ha : negb (Ascii.eqb a "<") = true).
    { rewrite forallb_forall in Hi. apply Hi. rewrite E.
      apply in_or_app. right. left. reflexivity. }
    apply negb_true_iff in Ha. unfold openTag.
    cbn [txt list_ascii_of_string stripPrefix].
    rewrite Ascii.eqb_sym, Ha. reflexivity.
Qed.

(** In a manifest whose [BaseURL] elements stand one to a line and hold a
    value with a directory prefix, the fix-up turns the value of every
    element into the bare file name, all directories stripped, and escapes
    that name when it holds [&], [<] or [>] and no entity; the other lines
    are unchanged. *)
Lemma fixManifest_bare_names (ls : list line) :
  forallb wellFormed ls = true ->
  fixManifest htmlEscape (render ls)
  = flat_map (fun l => specFixedLine htmlEscape l ++ [lineFeed]) ls.
Proof.
  induction ls as [|l ls IH]; intros H; [reflexivity|].
  cbn [forallb] in H. apply andb_true_iff in H. destruct H as [Hl Hls].
  cbn [render flat_map]. fold (render ls). rewrite <- app_assoc.
  cbn [app]. destruct l as [t|indent directory separator file].
  - cbn [renderLine specFixedLine]. rewrite fix_plain by exact Hl.
    rewrite (IH Hls), <- app_assoc. reflexivity.
  - rewrite fix_element by exact Hl. cbn [specFixedLine].
    rewrite fixPath_spec, (IH Hls), <- !app_assoc. reflexivity.
Qed.
End ManifestFacts.

Example tomAndJerry_fixed :
  forallb wellFormed tomAndJerry = true /\
  str (fixManifest escapeMarkup (render tomAndJerry))
  = "<Representation id=0>" +:+ newline
    +:+ "  <BaseURL>Tom &amp; Jerry.v720.webm</BaseURL>" +:+ newline
    +:+ "</Representation>" +:+ newline.
Proof. vm_compute. split; reflexivity. Qed.

(** C8, the failing input. The expression of the fix-up needs a [/] or a
    backslash inside the element, and the callback that escapes is run on
    its matches only. A [BaseURL] element that holds a bare file name, as
    it does when the renditions are written to the working directory, is
    not matched: the name holds an [&] and no entity, the specification
    has it escaped, and the fix-up leaves the manifest as it was, with the
    [&] in it. The same name behind a directory is escaped. *)
Theorem C8_bare_value_left_unescaped :
  let value := txt "Tom & Jerry.v720.webm" in
  let element (v : text) := txt "  " ++ openTag ++ v ++ closeTag ++ [lineFeed] in
  existsb isMarkup value = true /\
  hasEntity value = false /\
  specValue escapeMarkup value = txt "Tom &amp; Jerry.v720.webm" /\
  regexExec reBaseURL (element value) = None /\
  fixManifest escapeMarkup (element value) = element value /\
  fixManifest escapeMarkup (element (txt "Movies/" ++ value))
  = element (txt "Tom &amp; Jerry.v720.webm").
Proof.
  vm_compute. repeat split; reflexivity.
Qed.

(** Two elements on one line are taken for one: the first [.*] of the
    expression runs to the last separator before the last end tag. *)
Example two_elements_on_a_line :
  str (fixManifest escapeMarkup
         (txt "<BaseURL>a/1.webm</BaseURL><BaseURL>b/2.webm</BaseURL>"))
  = "<BaseURL>2.webm</BaseURL>".
Proof. vm_compute. reflexivity. Qed.

(* ------------------------------------------------------------------ *)
(** ** The manifest assembly *)

(** C3, a failing run. The assembly of [rawManifest] succeeds, and the
    directory goes through a state in which the final name of the manifest
    holds what the multiplexer wrote, with the directory still in the
    [BaseURL] value: the property of the specification fails. *)
Lemma C3_counterexample :
  fst (manifestStage escapeMarkup (muxEnv rawManifest) [] None filmMpd
         "/mnt/streaming/Movies/error-report.txt" emptyWorld)
  = Returned tt /\
  ~ specNeverUnfixed escapeMarkup filmMpd rawManifest
      (snd (manifestStage escapeMarkup (muxEnv rawManifest) [] None filmMpd
              "/mnt/streaming/Movies/error-report.txt" emptyWorld)).
Proof.
  split; [vm_compute; reflexivity|].
  intros H.
  set (after := snd (manifestStage _ _ _ _ _ _ _)) in H.
  assert (Hin : In (nth 1 (history after) ∅) (history after)).
  { apply nth_In. vm_compute. lia. }
  destruct (H _ Hin) as [F|F]; vm_compute in F; discriminate F.
Qed.

(** C3, the defect in every successful run. The audio and the video
    paths rename a file once it is complete; the manifest is renamed first
    and completed afterwards. The multiplexer writes to the temporary path,
    [rename(tmp(mpdPath), mpdPath)] moves what it wrote to the final name,
    and only then is the manifest read back, its [BaseURL] values rewritten
    and escaped, and written again, in place, under the final name. The
    directory goes through three states: the raw manifest under the
    temporary name, the raw manifest under the final name, the rewritten
    manifest under the final name. Between the last two the final name
    holds a manifest without the rewrites, and the rewritten manifest is
    never under the temporary name. *)
Theorem C3_manifest_fixed_after_rename
        (htmlEscape : text -> text) (env : Env) (dashVideos : list string)
        (audioPath : option string) (mpdPath errorReportPath : string)
        (raw : text) (world : World) :
  mux env = Ok raw ->
  tmp mpdPath <> mpdPath ->
  exists written moved fixed after,
    manifestStage htmlEscape env dashVideos audioPath mpdPath errorReportPath
      world = (Returned tt, after) /\
    history after = history world ++ [written; moved; fixed] /\
    files after = fixed /\
    written !! tmp mpdPath = Some raw /\
    written !! mpdPath = files world !! mpdPath /\
    moved !! tmp mpdPath = None /\
    moved !! mpdPath = Some raw /\
    fixed !! tmp mpdPath = None /\
    fixed !! mpdPath = Some (fixManifest htmlEscape raw).
Proof.
  intros Hmux Hdiff.
  unfold manifestStage, try, runFfmpeg, rename, readFile, writeFile, spawn,
    setFiles, getFiles, throw, ret, bind.
  rewrite Hmux. cbn [files history spawns].
  rewrite lookup_insert_eq. cbn [files history spawns].
  rewrite lookup_insert_eq. cbn [files history spawns].
  eexists. eexists. eexists. eexists.
  split; [reflexivity|]. cbn [files history spawns].
  split; [rewrite <- !app_assoc; reflexivity|].
  split; [reflexivity|].
  split; [apply lookup_insert_eq|].
  split; [apply lookup_insert_ne; exact Hdiff|].
  split; [rewrite lookup_insert_ne by congruence; apply lookup_delete_eq|].
  split; [apply lookup_insert_eq|].
  split; [|apply lookup_insert_eq].
  rewrite !lookup_insert_ne by congruence. apply lookup_delete_eq.
Qed.

Lemma C3_manifest_fixed_after_rename_witness :
  exists written moved fixed after,
    manifestStage escapeMarkup (muxEnv rawManifest) [] None filmMpd
      "/mnt/streaming/Movies/error-report.txt" emptyWorld
    = (Returned tt, after) /\
    history after = history emptyWorld ++ [written; moved; fixed] /\
    files after = fixed /\
    written !! tmp filmMpd = Some rawManifest /\
    written !! filmMpd = files emptyWorld !! filmMpd /\
    moved !! tmp filmMpd = None /\
    moved !! filmMpd = Some rawManifest /\
    fixed !! tmp filmMpd = None /\
    fixed !! filmMpd = Some (fixManifest escapeMarkup rawManifest).
Proof.
  apply (C3_manifest_fixed_after_rename escapeMarkup (muxEnv rawManifest) []
           None filmMpd "/mnt/streaming/Movies/error-report.txt" rawManifest
           emptyWorld).
  - reflexivity.
  - vm_compute. discriminate.
Defined.

(* ------------------------------------------------------------------ *)
(** ** Fuel and the percentage that the failure handler reads *)

Lemma pop_length {A} (l rest : list A) (a : A) :
  pop l = Some (a, rest) -> length l = S (length rest).
Proof.
  intros H. destruct (snoc_cases l) as [E|(l' & b & E)]; subst l.
  - discriminate H.
  - rewrite pop_snoc in H. injection H as -> ->.
    rewrite length_app. cbn. lia.
Qed.

(** [checkQueue] never runs out of fuel: any fuel above the length of
    [videoQueue] gives the same state. *)
Lemma checkQueueFuel_enough (n m : nat) :
  forall st,
    (length (videoQueue st) < n)%nat -> (length (videoQueue st) < m)%nat ->
    checkQueueFuel n st = checkQueueFuel m st.
Proof.
  revert m. induction n as [|n IH]; intros m st Hn Hm; [lia|].
  destruct m as [|m]; [lia|]. cbn [checkQueueFuel].
  destruct ((running st <? simultaneousMax)
            && (0 <? Z.of_nat (length (videoQueue st)))); [|reflexivity].
  destruct (pop (videoQueue st)) as [[task rest]|] eqn:Hpop; [|reflexivity].
  apply pop_length in Hpop.
  apply IH; cbn [startTask withRunning withQueues videoQueue]; lia.
Qed.

Lemma checkQueue_any_fuel (fuel : nat) (st : Sched) :
  (length (videoQueue st) < fuel)%nat ->
  checkQueueFuel fuel st = checkQueue st.
Proof.
  intros H. unfold checkQueue. apply checkQueueFuel_enough; [exact H|lia].
Qed.

(** When a process ends in an error, [monitorProcess] reports it with
    [stream = -1] and [done = true] before the promise is rejected, and
    [videoProgress] then sets the percent of the task to -1: the failure
    handler never reads 10 or more. *)
Lemma percentDone_after_failure (now : Z) (data : text) (task : VideoRender)
      (st : Sched) :
  (percentDone (report now data (-1) (name task) true st) task < 10)%Q.
Proof.
  unfold percentDone, report, videoProgress.
  rewrite orb_true_r. cbn [andb Z.ltb Z.gtb Z.leb Z.compare].
  rewrite orb_true_r.
  destruct (negb (Qeq_bool _ (-1))) eqn:E;
    cbn [withProgress progress percent mbind option_bind default].
  - rewrite lookup_insert_eq. reflexivity.
  - apply negb_false_iff, Qeq_bool_iff in E.
    destruct (default ∅ (percent (progress st)) !! name task) as [v|];
      cbn [default] in *; [rewrite E|]; reflexivity.
Qed.

(** So in a run the policy of the parallel phase is decided by the attempt
    count alone: the task goes back to [videoQueue] up to its fourth
    failure. *)
Lemma retry_decided_by_attempts (now : Z) (data : text) (task : VideoRender)
      (st : Sched) :
  retryInParallel (tries task + 1)
    (percentDone (report now data (-1) (name task) true st) task)
  = (tries task + 1 <? 5).
Proof.
  pose proof (percentDone_after_failure now data task st) as H.
  pose proof (retryInParallel_spec (tries task + 1)
                (percentDone (report now data (-1) (name task) true st) task))
    as S.
  unfold maxTries in S.
  destruct (retryInParallel _ _); destruct (tries task + 1 <? 5) eqn:E;
    try reflexivity.
  - apply Z.ltb_ge in E. destruct (proj1 S eq_refl) as [[_ F]|F]; lia.
  - apply Z.ltb_lt in E. apply S. left. split; [exact H|lia].
Qed.

(** A whole run on an empty output directory: the audio stream, the five
    renditions and the manifest are made by seven processes, and the
    manifest ends up with the bare file name. *)
Example film_pipeline_run :
  let r :=
    createStreaming linuxShare linuxSource posixDirname posixJoin escapeMarkup
      (fun _ path => [tmp path]) smoothRun film [stereoTrack] (Some fullHD) []
      true false 7200000 emptyWorld in
  fst r = Returned true /\
  length (spawns (snd r)) = 7%nat /\
  str <$> files (snd r) !! filmMpd
  = Some ("<Representation id=0>" +:+ newline
          +:+ "<BaseURL>Film.v720.webm</BaseURL>" +:+ newline).
Proof. vm_compute. repeat split; reflexivity. Qed.

(* ------------------------------------------------------------------ *)
(** ** The two phases of a run *)

Lemma all_parallel_count (l : list (VideoRender * branch)) :
  Forall (fun tb => snd tb = Parallel /\ 0 <= tries (fst tb) <= 4) l ->
  parallelCount l = length l.
Proof.
  induction 1 as [|[t b] l [Hb _] _ IH]; [reflexivity|].
  cbn in Hb. subst b. unfold parallelCount in *.
  rewrite filter_cons_True by exact I. cbn. rewrite IH. reflexivity.
Qed.

Lemma idle_parallel_nil (st : Sched) :
  WithinLimit st ->
  Forall (fun tb => snd tb = Parallel /\ 0 <= tries (fst tb) <= 4)
    (inFlight st) ->
  running st = 0 -> live st = [] /\ renaming st = [].
Proof.
  intros [Hrun _] Hall H0. unfold inFlight in Hall.
  apply Forall_app in Hall. destruct Hall as [Hl Hr].
  rewrite (all_parallel_count _ Hl), (all_parallel_count _ Hr) in Hrun.
  split; apply length_zero_iff_nil; lia.
Qed.

(** [checkQueue] in the parallel phase: it stays there, or opens the redo
    phase with the head of [redoQueue] when nothing runs. *)
Lemma checkQueueFuel_serial (fuel : nat) :
  forall st,
    WithinLimit st ->
    Forall (fun t => tries t = 5) (redoQueue st) ->
    Forall (fun tb => snd tb = Parallel /\ 0 <= tries (fst tb) <= 4)
      (inFlight st) ->
    Forall (fun t => 0 <= tries t <= 4) (videoQueue st) ->
    Serial (checkQueueFuel fuel st).
Proof.
  induction fuel as [|fuel IH]; intros st HW HR HF HV.
  { split; [exact HR|left; split; [exact HF|intros _; exact HV]]. }
  cbn [checkQueueFuel].
  destruct (running st <? simultaneousMax) eqn:Hlt; cbn [andb].
  - destruct (0 <? Z.of_nat (length (videoQueue st))) eqn:Hq.
    + destruct (pop (videoQueue st)) as [[task rest]|] eqn:Hpop.
      * destruct (snoc_cases (videoQueue st)) as [E|(l' & b & E)];
          rewrite E in *; [discriminate Hpop|].
        rewrite pop_snoc in Hpop. injection Hpop as -> ->.
        apply Forall_app in HV. destruct HV as [HV Hb].
        inversion Hb as [|? ? Hb' _]; subst.
        apply Z.ltb_lt in Hlt. destruct HW as [Hrun Hmax].
        apply IH.
        -- split; cbn [startTask withRunning withQueues running live renaming].
           ++ rewrite parallelCount_snoc_parallel. lia.
           ++ lia.
        -- exact HR.
        -- unfold inFlight in *.
           cbn [startTask withRunning withQueues live renaming].
           apply Forall_app in HF. destruct HF as [Hl Hr].
           apply Forall_app. split; [|exact Hr].
           apply Forall_app. split; [exact Hl|].
           constructor; [|constructor]. cbn. split; [reflexivity|exact Hb'].
        -- exact HV.
      * split; [exact HR|left; split; [exact HF|intros _; exact HV]].
    + assert (EV : videoQueue st = []).
      { destruct (videoQueue st) eqn:E; [reflexivity|].
        cbn [length] in Hq. rewrite ltb_0_S in Hq. discriminate Hq. }
      destruct (running st =? 0) eqn:E0; cbn [andb].
      * apply Z.eqb_eq in E0.
        destruct (idle_parallel_nil st HW HF E0) as [El Er].
        destruct (redoQueue st) as [|task rest] eqn:ER.
        -- cbn [length]. rewrite ltb_0_O.
           split; [cbn; rewrite ER; constructor|].
           left. unfold inFlight. cbn. rewrite El, Er. split; [constructor|].
           intros _. rewrite EV. constructor.
        -- cbn [length]. rewrite ltb_0_S.
           inversion HR as [|? ? Ht HR']; subst.
           split; [exact HR'|]. right.
           exists (withProcess (Some (length (spawned st))) task).
           unfold inFlight. cbn. rewrite El, Er.
           repeat split; [exact Ht|]. intros _. exact EV.
      * destruct (0 <? Z.of_nat (length (redoQueue st)));
          (split; [exact HR|left; split; [exact HF|intros _; exact HV]]).
  - destruct (running st =? 0) eqn:E0; cbn [andb].
    + apply Z.eqb_eq in E0. apply Z.ltb_ge in Hlt.
      unfold simultaneousMax in Hlt. lia.
    + split; [exact HR|left; split; [exact HF|intros _; exact HV]].
Qed.

Lemma lone_redo_in_live (st : Sched) (t : VideoRender) (i : nat)
      (tb : VideoRender * branch) :
  inFlight st = [(t, Redo)] -> live st !! i = Some tb ->
  tb = (t, Redo) /\ live st = [(t, Redo)] /\ renaming st = [] /\ i = 0%nat.
Proof.
  unfold inFlight. intros E Hi.
  destruct (live st) as [|x l]; [discriminate Hi|].
  cbn in E. injection E as -> E.
  apply app_eq_nil in E. destruct E as [-> ->].
  destruct i as [|i]; [|discriminate Hi].
  cbn in Hi. injection Hi as <-. auto.
Qed.

Lemma lone_redo_in_renaming (st : Sched) (t : VideoRender) (i : nat)
      (tb : VideoRender * branch) :
  inFlight st = [(t, Redo)] -> renaming st !! i = Some tb ->
  tb = (t, Redo) /\ live st = [] /\ renaming st = [(t, Redo)] /\ i = 0%nat.
Proof.
  unfold inFlight. intros E Hi.
  destruct (live st) as [|x l].
  - cbn in E. rewrite E in Hi.
    destruct i as [|i]; [|discriminate Hi].
    cbn in Hi. injection Hi as <-. auto.
  - cbn in E. injection E as -> E.
    apply app_eq_nil in E. destruct E as [_ E].
    rewrite E in Hi. discriminate Hi.
Qed.

Lemma Forall_delete_list {A} (P : A -> Prop) (l : list A) (i : nat) :
  Forall P l -> Forall P (delete i l).
Proof.
  intros H. rewrite delete_take_drop. apply Forall_app. split.
  - apply Forall_take, H.
  - apply Forall_drop, H.
Qed.

(** A failure that [monitorProcess] has reported, in either phase. *)
Lemma failed_serial now err data (tb : VideoRender * branch) (i : nat) st :
  Serial st -> WithinLimit st -> settled st = None ->
  live st !! i = Some tb ->
  Serial (failed now err tb
            (withFlight
               (delete i (live (report now data (-1) (name (fst tb)) true st)))
               (renaming (report now data (-1) (name (fst tb)) true st))
               (report now data (-1) (name (fst tb)) true st))).
Proof.
  intros [HR HS] [Hrun Hmax] Hopen Hi. destruct tb as [t b]. cbn [fst].
  pose proof (report_fields now data (-1) (name t) true st) as HF.
  cbv zeta in HF.
  destruct HF as (F1 & F2 & F3 & F4 & F5 & F6 & F7 & F8 & F9 & F10).
  pose proof (parallelCount_delete _ _ _ _ Hi) as Hpar.
  destruct HS as [[Hall HV]|(t0 & E & Ht0 & HV)].
  - specialize (HV Hopen).
    assert (Hb : b = Parallel /\ 0 <= tries t <= 4).
    { unfold inFlight in Hall. apply Forall_app in Hall.
      destruct Hall as [Hl _]. rewrite Forall_lookup in Hl.
      exact (Hl i (t, b) Hi). }
    destruct Hb as [-> Ht]. cbn [isParallel snd] in Hpar.
    unfold failed, parallelFailed. cbn [snd fst].
    change (percentDone
              (withRunning _ (withFlight _ _ (report now data (-1) (name t) true st)))
              (withProcess None t))
      with (percentDone (report now data (-1) (name t) true st) t).
    cbn [tries withTries withProcess].
    rewrite retry_decided_by_attempts.
    set (s := report now data (-1) (name t) true st) in *.
    unfold inFlight in Hall. apply Forall_app in Hall. destruct Hall as [Hl Hr].
    destruct (tries t + 1 <? 5) eqn:Hd.
    + apply Z.ltb_lt in Hd. unfold checkQueue.
      match goal with
      | |- context [report ?a ?b ?c ?d ?e ?x] =>
          pose proof (report_fields a b c d e x) as HG; cbv zeta in HG;
          destruct HG as (G1 & G2 & G3 & G4 & G5 & G6 & G7 & G8 & G9 & G10);
          set (mid := report a b c d e x) in *
      end.
      cbn [withQueues withRunning withFlight videoQueue redoQueue running live
           renaming settled] in *.
      apply checkQueueFuel_serial.
      * split; rewrite ?G3, ?G4, ?G5, ?F3, ?F4, ?F5; lia.
      * rewrite G2, F2. exact HR.
      * unfold inFlight. rewrite G4, G5, F4, F5. apply Forall_app.
        split; [apply Forall_delete_list; exact Hl|exact Hr].
      * rewrite G1, F1. constructor; [cbn; lia|exact HV].
    + apply Z.ltb_ge in Hd. unfold checkQueue.
      match goal with
      | |- context [report ?a ?b ?c ?d ?e ?x] =>
          pose proof (report_fields a b c d e x) as HG; cbv zeta in HG;
          destruct HG as (G1 & G2 & G3 & G4 & G5 & G6 & G7 & G8 & G9 & G10);
          set (mid := report a b c d e x) in *
      end.
      cbn [withQueues withRunning withFlight videoQueue redoQueue running live
           renaming settled] in *.
      apply checkQueueFuel_serial.
      * split; rewrite ?G3, ?G4, ?G5, ?F3, ?F4, ?F5; lia.
      * rewrite G2, F2. apply Forall_app. split; [exact HR|].
        constructor; [cbn; lia|constructor].
      * unfold inFlight. rewrite G4, G5, F4, F5. apply Forall_app.
        split; [apply Forall_delete_list; exact Hl|exact Hr].
      * rewrite G1, F1. exact HV.
  - destruct (lone_redo_in_live st t0 i (t, b) E Hi) as (Etb & El & Er & ->).
    injection Etb as -> ->.
    unfold failed, redoFailed. cbn [snd fst tries withTries].
    replace (tries t0 + 1 <? maxTries) with false
      by (symmetry; apply Z.ltb_ge; unfold maxTries; lia).
    unfold cleanUpAndFail. split; cbn [withFlight redoQueue]; rewrite ?F2;
      [exact HR|].
    left. unfold inFlight.
    cbn [withFlight live renaming settled videoQueue].
    rewrite F4, F5, F1, El, Er. cbn. split; [constructor|].
    intros _. rewrite (HV Hopen). constructor.
Qed.

Lemma report_serial now data stream n dn st :
  Serial st -> Serial (report now data stream n dn st).
Proof.
  intros H. unfold Serial, inFlight in *.
  destruct (report_fields now data stream n dn st)
    as (E1 & E2 & _ & E4 & E5 & _ & E7 & _).
  rewrite E1, E2, E4, E5, E7. exact H.
Qed.

Lemma report_within_limit now data stream n dn st :
  WithinLimit st -> WithinLimit (report now data stream n dn st).
Proof.
  intros H. unfold WithinLimit in *.
  destruct (report_fields now data stream n dn st)
    as (_ & _ & E3 & E4 & E5 & _).
  rewrite E3, E4, E5. exact H.
Qed.

Lemma deliver_serial (e : event) (st : Sched) :
  Serial st -> WithinLimit st -> settled st = None -> Serial (deliver e st).
Proof.
  intros HS HW Hopen.
  destruct e as [i stream data now|i code errs now|i msg now|i err now|];
    cbn [deliver].
  - destruct (live st !! i); [apply report_serial|]; exact HS.
  - destruct (live st !! i) as [tb|] eqn:Hi; [|exact HS].
    destruct (code =? 0); [|apply failed_serial; assumption].
    pose proof (report_serial now (txt (pretty code)) 0 (name (fst tb)) true st HS)
      as HS'.
    pose proof (report_fields now (txt (pretty code)) 0 (name (fst tb)) true st)
      as HF. cbv zeta in HF.
    destruct HF as (F1 & F2 & F3 & F4 & F5 & F6 & F7 & F8 & F9 & F10).
    set (s := report now (txt (pretty code)) 0 (name (fst tb)) true st) in *.
    rewrite <- F4 in Hi.
    destruct HS' as [HR [[Hall HV]|(t0 & E & Ht0 & HV)]]; split; try exact HR.
    + left. unfold inFlight in *.
      cbn [withFlight live renaming settled videoQueue].
      apply Forall_app in Hall. destruct Hall as [Hl Hr].
      split; [|exact HV]. apply Forall_app. split.
      * apply Forall_delete_list. exact Hl.
      * apply Forall_app. split; [exact Hr|].
        constructor; [|constructor]. rewrite Forall_lookup in Hl.
        exact (Hl i tb Hi).
    + right. exists t0.
      destruct (lone_redo_in_live s t0 i tb E Hi) as (-> & El & Er & ->).
      unfold inFlight. cbn [withFlight live renaming settled videoQueue].
      rewrite El, Er. cbn. auto.
  - destruct (live st !! i) as [tb|] eqn:Hi; [|exact HS].
    apply failed_serial; assumption.
  - destruct (renaming st !! i) as [tb|] eqn:Hi; [|exact HS].
    destruct HW as [Hrun Hmax]. destruct tb as [t b].
    pose proof (parallelCount_delete _ _ _ _ Hi) as Hpar.
    pose proof (parallelCount_le (live st)) as Hle.
    destruct HS as [HR [[Hall HV]|(t0 & E & Ht0 & HV)]].
    + specialize (HV Hopen). unfold inFlight in Hall.
      apply Forall_app in Hall. destruct Hall as [Hl Hr].
      assert (Hb : b = Parallel /\ 0 <= tries t <= 4).
      { rewrite Forall_lookup in Hr. exact (Hr i (t, b) Hi). }
      destruct Hb as [-> Ht]. cbn [snd fst isParallel] in *.
      unfold checkQueue. apply checkQueueFuel_serial.
      * split; cbn [withRunning logRename withFlight running live renaming]; lia.
      * exact HR.
      * unfold inFlight.
        cbn [withRunning logRename withFlight running live renaming].
        apply Forall_app. split; [exact Hl|apply Forall_delete_list; exact Hr].
      * exact HV.
    + specialize (HV Hopen).
      destruct (lone_redo_in_renaming st t0 i (t, b) E Hi) as (Etb & El & Er & ->).
      injection Etb as -> ->. cbn [snd fst isParallel] in *.
      assert (H1 : Serial (checkQueue
                    (logRename err t0
                       (withFlight (live st) (delete 0%nat (renaming st)) st)))).
      { unfold checkQueue. apply checkQueueFuel_serial.
        - split; cbn [logRename withFlight running live renaming]; lia.
        - exact HR.
        - unfold inFlight. cbn [logRename withFlight live renaming].
          rewrite El, Er. constructor.
        - cbn [logRename withFlight videoQueue]. rewrite HV. constructor. }
      destruct err as [e|]; [|exact H1].
      unfold redoFailed. cbn [tries withTries].
      replace (tries t0 + 1 <? maxTries) with false
        by (symmetry; apply Z.ltb_ge; unfold maxTries; lia).
      exact H1.
  - destruct (timers st) as [|err rest]; [exact HS|].
    destruct HS as [HR HS]. split; [exact HR|].
    unfold cleanUpAndFailTimeout, inFlight in *.
    cbn [settle withTimers live renaming settled videoQueue].
    rewrite Hopen.
    destruct HS as [[Hall _]|(t0 & E & Ht0 & _)].
    + left. split; [exact Hall|discriminate].
    + right. exists t0. repeat split; try assumption. discriminate.
Qed.

Lemma reachable_serial (queue : list VideoRender) (p : VideoProgress) st :
  Forall (fun t => tries t = 0) queue ->
  reachable queue p st -> Serial st /\ WithinLimit st.
Proof.
  intros Hq R. induction R as [|st e R [IH1 IH2] Hopen].
  - assert (HW : WithinLimit
                   {| videoQueue := queue; redoQueue := []; running := 0;
                      progress := p; live := []; renaming := []; timers := [];
                      settled := None; spawned := []; killed := [];
                      renamed := [] |})
      by (split; cbn; unfold simultaneousMax; lia).
    split.
    + unfold schedule, checkQueue.
      apply checkQueueFuel_serial; [exact HW|constructor|constructor|].
      cbn [videoQueue].
      eapply Forall_impl; [exact Hq|]. cbn. intros t Ht. lia.
    + unfold schedule. apply checkQueueFuel_within_limit. exact HW.
  - split; [apply deliver_serial; assumption|].
    apply deliver_within_limit. exact IH2.
Qed.

Lemma reachable_step (queue : list VideoRender) (p : VideoProgress) st e :
  reachable queue p st -> reachable queue p (step st e).
Proof.
  intros R. unfold step. destruct (settled st) eqn:E; [exact R|].
  apply reach_step; assumption.
Qed.

Lemma reachable_runEvents (queue : list VideoRender) (p : VideoProgress)
      (es : list event) :
  reachable queue p (runEvents (schedule queue p) es).
Proof.
  unfold runEvents.
  assert (H : forall st, reachable queue p st ->
                         reachable queue p (fold_left step es st)).
  { induction es as [|e es IH]; intros st R; [exact R|].
    cbn [fold_left]. apply IH, reachable_step, R. }
  apply H, reach_start.
Qed.

Lemma live_redo_alone (st : Sched) (i : nat) (t : VideoRender) :
  Serial st -> WithinLimit st ->
  live st !! i = Some (t, Redo) ->
  live st = [(t, Redo)] /\ renaming st = [] /\ running st = 0 /\ tries t = 5.
Proof.
  intros [_ HS] [Hrun _] Hi.
  destruct HS as [[Hall _]|(t0 & E & Ht0 & _)].
  - unfold inFlight in Hall. apply Forall_app in Hall. destruct Hall as [Hl _].
    rewrite Forall_lookup in Hl. destruct (Hl i (t, Redo) Hi) as [F _].
    discriminate F.
  - destruct (lone_redo_in_live st t0 i (t, Redo) E Hi) as (Et & El & Er & _).
    injection Et as <-. rewrite El, Er in Hrun. cbn in Hrun. auto.
Qed.

(** X1. The redo phase is serial. In a run on tasks that start with no
    attempt, a redo task whose process is live is the only task that the
    event loop knows: no other process runs, no rename is in flight,
    [running] is 0, and the task has failed five times before. *)
Theorem redo_task_runs_alone
        (queue : list VideoRender) (p : VideoProgress) (st : Sched)
        (i : nat) (t : VideoRender) :
  Forall (fun t => tries t = 0) queue ->
  reachable queue p st ->
  live st !! i = Some (t, Redo) ->
  live st = [(t, Redo)] /\ renaming st = [] /\ running st = 0 /\ tries t = 5.
Proof.
  intros Hq R Hi.
  destruct (reachable_serial queue p st Hq R) as [HS HW].
  exact (live_redo_alone st i t HS HW Hi).
Qed.

Lemma redo_task_runs_alone_witness :
  let st := runEvents (schedule twoTasks (noMaps 7200000)) tenFailures in
  live st = [(redoTask, Redo)] /\ renaming st = [] /\ running st = 0 /\
  tries redoTask = 5.
Proof.
  apply (redo_task_runs_alone twoTasks (noMaps 7200000) _ 0%nat redoTask).
  - repeat constructor.
  - apply reachable_runEvents.
  - vm_compute. reflexivity.
Defined.

(** X2. The redo phase gives one attempt. When the process of a redo task
    exits with an error, the task is not put back into [redoQueue]: the
    handler calls [cleanUpAndFail] with the error, and the timer that it
    sets rejects the promise with that error. *)
Theorem redo_failure_aborts
        (queue : list VideoRender) (p : VideoProgress) (st : Sched)
        (i : nat) (t : VideoRender) (code : Z) (errs : string) (now : Z) :
  Forall (fun t => tries t = 0) queue ->
  reachable queue p st -> settled st = None -> timers st = [] ->
  live st !! i = Some (t, Redo) -> code <> 0 ->
  let err := ProcessError (if String.eqb errs "" then pretty code else errs)
               code in
  let st' := deliver (Exit i code errs now) st in
  redoQueue st' = redoQueue st /\ live st' = [] /\ spawned st' = spawned st /\
  settled (deliver TimerFired st') = Some (Throw err).
Proof.
  intros Hq R Hopen Htimers Hi Hcode err st'.
  destruct (reachable_serial queue p st Hq R) as [HS HW].
  destruct (live_redo_alone st i t HS HW Hi) as (El & Er & _ & Ht).
  assert (i = 0%nat) as ->.
  { rewrite El in Hi. destruct i; [reflexivity|discriminate Hi]. }
  subst st'. cbn [deliver]. rewrite Hi.
  replace (code =? 0) with false by (symmetry; apply Z.eqb_neq; exact Hcode).
  unfold failed, redoFailed. cbn [snd fst tries withTries].
  replace (tries t + 1 <? maxTries) with false
    by (symmetry; apply Z.ltb_ge; unfold maxTries; lia).
  fold err.
  destruct (report_fields now (txt (pretty code)) (-1) (name t) true st)
    as (F1 & F2 & F3 & F4 & F5 & F6 & F7 & F8 & F9 & F10).
  set (s := report now (txt (pretty code)) (-1) (name t) true st) in *.
  unfold cleanUpAndFail, cleanUpAndFailTimeout, settle, withTimers.
  cbn [withFlight redoQueue live spawned timers settled].
  rewrite F2, F4, F6, F7, F8, El, Htimers, Hopen. cbn. auto.
Qed.

Lemma redo_failure_aborts_witness :
  let st := runEvents (schedule twoTasks (noMaps 7200000)) tenFailures in
  let st' := deliver (Exit 0 1 "" 110) st in
  redoQueue st' = redoQueue st /\ live st' = [] /\ spawned st' = spawned st /\
  settled (deliver TimerFired st')
  = Some (Throw (ProcessError (if String.eqb "" "" then pretty 1 else "") 1)).
Proof.
  apply (redo_failure_aborts twoTasks (noMaps 7200000) _ 0%nat redoTask 1 "" 110).
  - repeat constructor.
  - apply reachable_runEvents.
  - vm_compute. reflexivity.
  - vm_compute. reflexivity.
  - vm_compute. reflexivity.
  - discriminate.
Defined.

(* ------------------------------------------------------------------ *)
(** ** When the promise settles *)

Lemma only_parallel_count (l : list (VideoRender * branch)) :
  Forall (fun tb => snd tb = Parallel) l -> parallelCount l = length l.
Proof.
  induction 1 as [|[t b] l Hb _ IH]; [reflexivity|].
  cbn in Hb. subst b. unfold parallelCount in *.
  rewrite filter_cons_True by exact I. cbn. rewrite IH. reflexivity.
Qed.

(** [checkQueue] resolves the promise only when nothing is left. *)
Lemma checkQueueFuel_resolved (fuel : nat) :
  forall st,
    settled st = None -> WithinLimit st ->
    Forall (fun tb => snd tb = Parallel) (inFlight st) ->
    forall r, settled (checkQueueFuel fuel st) = Some r ->
              r = Ok tt /\
              videoQueue (checkQueueFuel fuel st) = [] /\
              redoQueue (checkQueueFuel fuel st) = [] /\
              live (checkQueueFuel fuel st) = [] /\
              renaming (checkQueueFuel fuel st) = [].
Proof.
  induction fuel as [|fuel IH]; intros st Hopen HW HF r; cbn [checkQueueFuel].
  { intros H. congruence. }
  destruct (running st <? simultaneousMax) eqn:Hlt; cbn [andb].
  - destruct (0 <? Z.of_nat (length (videoQueue st))) eqn:Hq.
    + destruct (pop (videoQueue st)) as [[task rest]|] eqn:Hpop;
        [|intros H; congruence].
      apply Z.ltb_lt in Hlt. destruct HW as [Hrun Hmax].
      apply IH.
      * exact Hopen.
      * split; cbn [startTask withRunning withQueues running live renaming].
        -- rewrite parallelCount_snoc_parallel. lia.
        -- lia.
      * unfold inFlight in *.
        cbn [startTask withRunning withQueues live renaming].
        apply Forall_app in HF. destruct HF as [Hl Hr].
        apply Forall_app. split; [|exact Hr].
        apply Forall_app. split; [exact Hl|].
        constructor; [reflexivity|constructor].
    + assert (EV : videoQueue st = []).
      { destruct (videoQueue st) eqn:E; [reflexivity|].
        cbn [length] in Hq. rewrite ltb_0_S in Hq. discriminate Hq. }
      destruct (running st =? 0) eqn:E0; cbn [andb]; [|intros H; congruence].
      apply Z.eqb_eq in E0.
      assert (Hnil : live st = [] /\ renaming st = []).
      { destruct HW as [Hrun _]. unfold inFlight in HF.
        apply Forall_app in HF. destruct HF as [Hl Hr].
        rewrite (only_parallel_count _ Hl), (only_parallel_count _ Hr) in Hrun.
        split; apply length_zero_iff_nil; lia. }
      destruct Hnil as [El Er].
      destruct (redoQueue st) as [|task rest] eqn:ER.
      * cbn [length]. rewrite ltb_0_O. unfold settle.
        cbn [settled videoQueue redoQueue live renaming].
        rewrite Hopen. intros H. injection H as <-. auto.
      * cbn [length]. rewrite ltb_0_S.
        cbn [startTask withQueues settled]. intros H. congruence.
  - destruct (running st =? 0) eqn:E0; cbn [andb]; [|intros H; congruence].
    apply Z.eqb_eq in E0. apply Z.ltb_ge in Hlt.
    unfold simultaneousMax in Hlt. lia.
Qed.

Lemma checkQueue_resolved (st : Sched) (r : result unit) :
  settled st = None -> WithinLimit st ->
  Forall (fun tb => snd tb = Parallel) (inFlight st) ->
  settled (checkQueue st) = Some r -> r = Ok tt /\ Finished (checkQueue st).
Proof.
  intros H1 H2 H3 H4. unfold checkQueue, Finished in *.
  exact (checkQueueFuel_resolved _ st H1 H2 H3 r H4).
Qed.

Lemma forget_tries (l : list (VideoRender * branch)) :
  Forall (fun tb => snd tb = Parallel /\ 0 <= tries (fst tb) <= 4) l ->
  Forall (fun tb => snd tb = Parallel) l.
Proof. intros H. eapply Forall_impl; [exact H|]. intros tb [Hb _]. exact Hb. Qed.

Lemma failed_resolved now err data (tb : VideoRender * branch) (i : nat) st
      (r : result unit) :
  Serial st -> WithinLimit st -> settled st = None ->
  live st !! i = Some tb ->
  let st' :=
    failed now err tb
      (withFlight
         (delete i (live (report now data (-1) (name (fst tb)) true st)))
         (renaming (report now data (-1) (name (fst tb)) true st))
         (report now data (-1) (name (fst tb)) true st)) in
  settled st' = Some r -> r = Ok tt /\ Finished st'.
Proof.
  intros [HR HS] [Hrun Hmax] Hopen Hi. destruct tb as [t b]. cbn [fst].
  pose proof (report_fields now data (-1) (name t) true st) as HF.
  cbv zeta in HF.
  destruct HF as (F1 & F2 & F3 & F4 & F5 & F6 & F7 & F8 & F9 & F10).
  set (s := report now data (-1) (name t) true st) in *.
  pose proof (parallelCount_delete _ _ _ _ Hi) as Hpar.
  destruct HS as [[Hall HV]|(t0 & E & Ht0 & HV)].
  - assert (Hb : b = Parallel).
    { unfold inFlight in Hall. apply Forall_app in Hall.
      destruct Hall as [Hl _]. rewrite Forall_lookup in Hl.
      exact (proj1 (Hl i (t, b) Hi)). }
    subst b. cbn [isParallel snd] in Hpar.
    apply forget_tries in Hall. unfold inFlight in Hall.
    apply Forall_app in Hall. destruct Hall as [Hl Hr].
    unfold failed, parallelFailed. cbn [snd fst].
    destruct (retryInParallel _ _); cbv zeta;
      match goal with
      | |- context [report ?a ?b ?c ?d ?e ?x] =>
          pose proof (report_fields a b c d e x) as HG; cbv zeta in HG;
          destruct HG as (G1 & G2 & G3 & G4 & G5 & G6 & G7 & G8 & G9 & G10);
          set (mid := report a b c d e x) in *
      end;
      cbn [withQueues withRunning withFlight videoQueue redoQueue running live
           renaming settled] in *;
      apply checkQueue_resolved;
      try (rewrite G7, F7; exact Hopen);
      try (split; rewrite ?G3, ?G4, ?G5, ?F3, ?F4, ?F5; lia);
      (unfold inFlight; rewrite G4, G5, F4, F5; apply Forall_app;
       split; [apply Forall_delete_list; exact Hl|exact Hr]).
  - destruct (lone_redo_in_live st t0 i (t, b) E Hi) as (Etb & El & Er & ->).
    injection Etb as -> ->.
    unfold failed, redoFailed. cbn [snd fst tries withTries].
    replace (tries t0 + 1 <? maxTries) with false
      by (symmetry; apply Z.ltb_ge; unfold maxTries; lia).
    cbv zeta. unfold cleanUpAndFail. cbn [withFlight settled].
    rewrite F7, Hopen. discriminate.
Qed.

Lemma deliver_resolved (e : event) (st : Sched) (r : result unit) :
  Serial st -> WithinLimit st -> settled st = None ->
  settled (deliver e st) = Some r ->
  r = Ok tt -> Finished (deliver e st).
Proof.
  intros HS HW Hopen.
  destruct e as [i stream data now|i code errs now|i msg now|i err now|];
    cbn [deliver].
  - destruct (live st !! i) as [tb|]; [|congruence].
    destruct (report_fields now data stream (name (fst tb)) false st)
      as (_ & _ & _ & _ & _ & _ & F7 & _).
    rewrite F7. congruence.
  - destruct (live st !! i) as [tb|] eqn:Hi; [|congruence].
    destruct (code =? 0).
    + cbn [withFlight settled].
      destruct (report_fields now (txt (pretty code)) 0 (name (fst tb)) true st)
        as (_ & _ & _ & _ & _ & _ & F7 & _).
      rewrite F7. congruence.
    + intros H _. eapply failed_resolved; eassumption.
  - destruct (live st !! i) as [tb|] eqn:Hi; [|congruence].
    intros H _. eapply failed_resolved; eassumption.
  - destruct (renaming st !! i) as [tb|] eqn:Hi; [|congruence].
    destruct HW as [Hrun Hmax]. destruct tb as [t b].
    pose proof (parallelCount_delete _ _ _ _ Hi) as Hpar.
    pose proof (parallelCount_le (live st)) as Hle.
    destruct HS as [HR [[Hall HV]|(t0 & E & Ht0 & HV)]].
    + apply forget_tries in Hall. unfold inFlight in Hall.
      apply Forall_app in Hall. destruct Hall as [Hl Hr].
      assert (Hb : b = Parallel).
      { rewrite Forall_lookup in Hr. exact (Hr i (t, b) Hi). }
      subst b. cbn [snd fst isParallel] in *.
      intros H _. eapply checkQueue_resolved; [| | |exact H].
      * exact Hopen.
      * split; cbn [withRunning logRename withFlight running live renaming]; lia.
      * unfold inFlight.
        cbn [withRunning logRename withFlight running live renaming].
        apply Forall_app. split; [exact Hl|apply Forall_delete_list; exact Hr].
    + destruct (lone_redo_in_renaming st t0 i (t, b) E Hi) as (Etb & El & Er & ->).
      injection Etb as -> ->. cbn [snd fst isParallel] in *.
      assert (H1 : forall r', settled (checkQueue
                    (logRename err t0
                       (withFlight (live st) (delete 0%nat (renaming st)) st)))
                  = Some r' ->
                  r' = Ok tt /\
                  Finished (checkQueue
                    (logRename err t0
                       (withFlight (live st) (delete 0%nat (renaming st)) st)))).
      { intros r'. apply checkQueue_resolved.
        - exact Hopen.
        - split; cbn [logRename withFlight running live renaming]; lia.
        - unfold inFlight. cbn [logRename withFlight live renaming].
          rewrite El, Er. constructor. }
      destruct err as [e|].
      * unfold redoFailed. cbn [tries withTries].
        replace (tries t0 + 1 <? maxTries) with false
          by (symmetry; apply Z.ltb_ge; unfold maxTries; lia).
        unfold cleanUpAndFail, Finished.
        cbn [settled videoQueue redoQueue live renaming].
        intros H _. exact (proj2 (H1 r H)).
      * intros H _. exact (proj2 (H1 r H)).
  - destruct (timers st) as [|err rest]; [congruence|].
    unfold cleanUpAndFailTimeout, settle, withTimers. cbn [settled].
    rewrite Hopen. intros H E. subst r. discriminate H.
Qed.

(** X3. The promise is resolved only when the work is done: in a run on
    tasks that start with no attempt, once [resolve()] has been called no
    task waits in [videoQueue] or [redoQueue], no process is live and no
    rename is in flight. *)
Theorem resolved_means_finished
        (queue : list VideoRender) (p : VideoProgress) (st : Sched) :
  Forall (fun t => tries t = 0) queue ->
  reachable queue p st ->
  settled st = Some (Ok tt) -> Finished st.
Proof.
  intros Hq R. induction R as [|st e R IH Hopen]; intros H.
  - unfold schedule in *.
    eapply checkQueue_resolved; [| | |exact H].
    + reflexivity.
    + split; cbn; unfold simultaneousMax; lia.
    + constructor.
  - destruct (reachable_serial queue p st Hq R) as [HS HW].
    exact (deliver_resolved e st (Ok tt) HS HW Hopen H eq_refl).
Qed.

Lemma resolved_means_finished_witness :
  Finished (runEvents (schedule twoTasks (noMaps 7200000)) twoSuccesses).
Proof.
  apply (resolved_means_finished twoTasks (noMaps 7200000)).
  - repeat constructor.
  - apply reachable_runEvents.
  - vm_compute. reflexivity.
Defined.

(* ------------------------------------------------------------------ *)
(** ** The number of spawns *)

Lemma checkQueueFuel_settles (fuel : nat) :
  forall st r, settled (checkQueueFuel fuel st) = Some r ->
               settled st = Some r \/ r = Ok tt.
Proof.
  induction fuel as [|fuel IH]; intros st r; cbn [checkQueueFuel]; [auto|].
  destruct ((running st <? simultaneousMax)
            && (0 <? Z.of_nat (length (videoQueue st)))).
  - destruct (pop (videoQueue st)) as [[task rest]|]; [|auto].
    intros H. apply IH in H. exact H.
  - destruct ((running st =? 0) && (0 <? Z.of_nat (length (redoQueue st)))).
    + destruct (redoQueue st); auto.
    + destruct (running st =? 0); [|auto].
      unfold settle. cbn [settled]. destruct (settled st); [auto|].
      intros H. injection H as <-. auto.
Qed.

Lemma checkQueue_settles (st : Sched) (r : result unit) :
  settled st = None -> settled (checkQueue st) = Some r -> r = Ok tt.
Proof.
  intros Hopen H. apply checkQueueFuel_settles in H.
  destruct H as [H|H]; [congruence|exact H].
Qed.

Lemma report_settled now data stream n dn st :
  settled (report now data stream n dn st) = settled st.
Proof. apply (report_fields now data stream n dn st). Qed.

Lemma failed_settles now err tb st (r : result unit) :
  settled st = None -> settled (failed now err tb st) = Some r -> r = Ok tt.
Proof.
  intros Hopen. unfold failed. destruct (snd tb).
  - unfold parallelFailed. destruct (retryInParallel _ _);
      apply checkQueue_settles; rewrite report_settled; exact Hopen.
  - unfold redoFailed. destruct (_ <? maxTries).
    + apply checkQueue_settles. rewrite report_settled. exact Hopen.
    + cbn. congruence.
Qed.

(** Only the timer of [cleanUpAndFail] rejects the promise. *)
Lemma deliver_settles (e : event) (st : Sched) (r : result unit) :
  e <> TimerFired -> settled st = None ->
  settled (deliver e st) = Some r -> r = Ok tt.
Proof.
  intros He Hopen.
  destruct e as [i stream data now|i code errs now|i msg now|i err now|];
    cbn [deliver]; [| | | |congruence].
  - destruct (live st !! i); [rewrite report_settled|]; congruence.
  - destruct (live st !! i) as [tb|]; [|congruence].
    destruct (code =? 0).
    + cbn [withFlight settled]. rewrite report_settled. congruence.
    + apply failed_settles. cbn [withFlight settled].
      rewrite report_settled. exact Hopen.
  - destruct (live st !! i) as [tb|]; [|congruence].
    apply failed_settles. cbn [withFlight settled].
    rewrite report_settled. exact Hopen.
  - destruct (renaming st !! i) as [tb|]; [|congruence].
    destruct (snd tb).
    + apply checkQueue_settles. exact Hopen.
    + set (st2 := checkQueue _).
      assert (H2 : forall r2, settled st2 = Some r2 -> r2 = Ok tt)
        by (intros r2; apply checkQueue_settles; exact Hopen).
      destruct err as [e|]; [|apply H2].
      unfold redoFailed. destruct (_ <? maxTries).
      * intros H. apply checkQueueFuel_settles in H.
        destruct H as [H|H]; [|exact H].
        rewrite report_settled in H. cbn [withQueues settled] in H.
        apply H2, H.
      * cbn [cleanUpAndFail settled]. apply H2.
Qed.

Section Spending.
(** The command lines that are counted. *)
Variable sel : list string -> bool.

Lemma budget_app (q1 q2 : list VideoRender) :
  budget sel (q1 ++ q2) = budget sel q1 + budget sel q2.
Proof.
  induction q1 as [|t q IH]; cbn; [reflexivity|].
  unfold budget in *. cbn. rewrite IH. lia.
Qed.

Lemma flightBudget_app (l1 l2 : list (VideoRender * branch)) :
  flightBudget sel (l1 ++ l2) = flightBudget sel l1 + flightBudget sel l2.
Proof.
  induction l1 as [|t q IH]; cbn; [reflexivity|].
  unfold flightBudget in *. cbn. rewrite IH. lia.
Qed.

Lemma spawnsOf_app (l1 l2 : list (string * list string)) :
  spawnsOf sel (l1 ++ l2) = spawnsOf sel l1 + spawnsOf sel l2.
Proof.
  induction l1 as [|t q IH]; cbn; [reflexivity|].
  unfold spawnsOf in *. cbn. rewrite IH. lia.
Qed.

Lemma budget_cons (t : VideoRender) (q : list VideoRender) :
  budget sel (t :: q)
  = share sel (args t) * (maxTries - tries t) + budget sel q.
Proof. reflexivity. Qed.

Lemma budget_single (t : VideoRender) :
  budget sel [t] = share sel (args t) * (maxTries - tries t).
Proof. unfold budget. cbn. lia. Qed.

Lemma flightBudget_single (tb : VideoRender * branch) :
  flightBudget sel [tb]
  = share sel (args (fst tb)) * (maxTries - 1 - tries (fst tb)).
Proof. unfold flightBudget. cbn. lia. Qed.

Lemma spawnsOf_single (c : string * list string) :
  spawnsOf sel [c] = share sel (snd c).
Proof. unfold spawnsOf. cbn. lia. Qed.

Lemma flightBudget_delete (l : list (VideoRender * branch)) (i : nat)
      (tb : VideoRender * branch) :
  l !! i = Some tb ->
  flightBudget sel l
  = flightBudget sel (delete i l)
    + share sel (args (fst tb)) * (maxTries - 1 - tries (fst tb)).
Proof.
  intros H. rewrite <- (take_drop_middle l i tb H) at 1.
  rewrite delete_take_drop, !flightBudget_app.
  change (tb :: drop (S i) l) with ([tb] ++ drop (S i) l).
  rewrite flightBudget_app, flightBudget_single. lia.
Qed.

Ltac by_share :=
  unfold share in *;
  repeat match goal with
         | |- context [if sel ?a then _ else _] => destruct (sel a)
         | H : context [if sel ?a then _ else _] |- _ => destruct (sel a)
         end;
  unfold maxTries in *; lia.

(** [checkQueue] turns budget into spawns, one for one. *)
Lemma checkQueueFuel_spendable (fuel : nat) :
  forall st, spendable sel (checkQueueFuel fuel st) = spendable sel st.
Proof.
  induction fuel as [|fuel IH]; intros st; [reflexivity|].
  cbn [checkQueueFuel].
  destruct ((running st <? simultaneousMax)
            && (0 <? Z.of_nat (length (videoQueue st)))).
  - destruct (pop (videoQueue st)) as [[task rest]|] eqn:Hpop; [|reflexivity].
    destruct (snoc_cases (videoQueue st)) as [E|(l' & b & E)];
      rewrite E in *; [discriminate Hpop|].
    rewrite pop_snoc in Hpop. injection Hpop as -> ->.
    rewrite IH. unfold spendable.
    cbn [startTask withRunning withQueues videoQueue redoQueue live renaming
         spawned].
    rewrite E, budget_app, flightBudget_app, spawnsOf_app.
    rewrite budget_single, flightBudget_single, spawnsOf_single.
    cbn [fst snd args tries withProcess]. by_share.
  - destruct ((running st =? 0) && (0 <? Z.of_nat (length (redoQueue st)))).
    + destruct (redoQueue st) as [|task rest] eqn:ER; [reflexivity|].
      unfold spendable.
      cbn [startTask withQueues videoQueue redoQueue live renaming spawned].
      rewrite ER, flightBudget_app, spawnsOf_app, budget_cons.
      rewrite flightBudget_single, spawnsOf_single.
      cbn [fst snd args tries withProcess]. by_share.
    + destruct (running st =? 0); reflexivity.
Qed.

Lemma report_spendable now data stream n dn st :
  spendable sel (report now data stream n dn st) = spendable sel st.
Proof.
  unfold spendable.
  destruct (report_fields now data stream n dn st)
    as (E1 & E2 & _ & E4 & E5 & _ & _ & E8 & _).
  rewrite E1, E2, E4, E5, E8. reflexivity.
Qed.

Lemma checkQueue_spendable (st : Sched) :
  spendable sel (checkQueue st) = spendable sel st.
Proof. apply checkQueueFuel_spendable. Qed.

Lemma failed_spendable now err (tb : VideoRender * branch) (i : nat) st :
  live st !! i = Some tb -> tries (fst tb) <= 5 ->
  spendable sel
    (failed now err tb (withFlight (delete i (live st)) (renaming st) st))
  <= spendable sel st.
Proof.
  intros Hi Hb. pose proof (flightBudget_delete _ _ _ Hi) as Hd.
  unfold failed. destruct (snd tb).
  - unfold parallelFailed. destruct (retryInParallel _ _);
      rewrite checkQueue_spendable, report_spendable; unfold spendable;
      cbn [withQueues withRunning withFlight videoQueue redoQueue live renaming
           spawned];
      rewrite ?budget_app, ?budget_single, ?budget_cons;
      cbn [tries withTries withProcess args]; by_share.
  - unfold redoFailed. cbn [tries withTries]. destruct (_ <? maxTries).
    + rewrite checkQueue_spendable, report_spendable. unfold spendable.
      cbn [withQueues withFlight videoQueue redoQueue live renaming spawned
           tries withTries withProcess].
      rewrite budget_app, budget_single.
      cbn [tries withTries withProcess args]. by_share.
    + unfold spendable, cleanUpAndFail.
      cbn [withFlight videoQueue redoQueue live renaming spawned].
      by_share.
Qed.

Lemma deliver_spendable (e : event) (st : Sched) :
  Forall (fun tb => tries (fst tb) <= 5) (inFlight st) ->
  e <> TimerFired ->
  spendable sel (deliver e st) <= spendable sel st.
Proof.
  intros HB He. unfold inFlight in HB. apply Forall_app in HB.
  destruct HB as [Hl Hr]. rewrite Forall_lookup in Hl, Hr.
  destruct e as [i stream data now|i code errs now|i msg now|i err now|];
    cbn [deliver]; [| | | |congruence].
  - destruct (live st !! i); [rewrite report_spendable|]; lia.
  - destruct (live st !! i) as [tb|] eqn:Hi; [|lia].
    rewrite <- (report_spendable now (txt (pretty code))
                  (if code =? 0 then 0 else -1) (name (fst tb)) true st).
    pose proof (Hl i tb Hi) as Hb.
    destruct (report_fields now (txt (pretty code))
                (if code =? 0 then 0 else -1) (name (fst tb)) true st)
      as (_ & _ & _ & F4 & _).
    set (s := report _ _ _ _ _ st) in *. rewrite <- F4 in Hi.
    destruct (code =? 0); [|apply failed_spendable; assumption].
    pose proof (flightBudget_delete _ _ _ Hi) as Hd. unfold spendable.
    cbn [withFlight videoQueue redoQueue live renaming spawned].
    rewrite flightBudget_app, flightBudget_single. lia.
  - destruct (live st !! i) as [tb|] eqn:Hi; [|lia].
    rewrite <- (report_spendable now (txt msg) (-1) (name (fst tb)) true st).
    pose proof (Hl i tb Hi) as Hb.
    destruct (report_fields now (txt msg) (-1) (name (fst tb)) true st)
      as (_ & _ & _ & F4 & _).
    set (s := report _ _ _ _ _ st) in *. rewrite <- F4 in Hi.
    apply failed_spendable; assumption.
  - destruct (renaming st !! i) as [tb|] eqn:Hi; [|lia].
    pose proof (Hr i tb Hi) as Hb.
    pose proof (flightBudget_delete _ _ _ Hi) as Hd.
    assert (H0 : spendable sel (logRename err (fst tb)
                   (withFlight (live st) (delete i (renaming st)) st))
                 = spendable sel st
                   - share sel (args (fst tb)) * (maxTries - 1 - tries (fst tb))).
    { unfold spendable.
      cbn [logRename withFlight videoQueue redoQueue live renaming spawned].
      lia. }
    destruct (snd tb).
    + rewrite checkQueue_spendable. unfold spendable in *.
      cbn [withRunning logRename withFlight videoQueue redoQueue live renaming
           spawned] in *. by_share.
    + set (st2 := checkQueue _).
      assert (H2 : spendable sel st2
                   = spendable sel st
                     - share sel (args (fst tb))
                       * (maxTries - 1 - tries (fst tb)))
        by (subst st2; rewrite checkQueue_spendable; exact H0).
      destruct err as [e|]; [|clear H0 Hd; by_share].
      unfold redoFailed. cbn [tries withTries]. destruct (_ <? maxTries).
      * rewrite checkQueue_spendable, report_spendable. unfold spendable in *.
        cbn [withQueues videoQueue redoQueue live renaming spawned].
        rewrite budget_app, budget_single.
        cbn [tries withTries withProcess args]. by_share.
      * unfold cleanUpAndFail, spendable in *.
        cbn [videoQueue redoQueue live renaming spawned]. by_share.
Qed.

Lemma budget_nonneg (q : list VideoRender) :
  Forall (fun t => tries t <= maxTries) q -> 0 <= budget sel q.
Proof.
  induction 1 as [|t q Ht _ IH]; [cbn; lia|].
  rewrite budget_cons. by_share.
Qed.

Lemma flightBudget_nonneg (l : list (VideoRender * branch)) :
  Forall (fun tb => tries (fst tb) <= 5) l -> 0 <= flightBudget sel l.
Proof.
  induction 1 as [|t q Ht _ IH]; [cbn; lia|].
  change (t :: q) with ([t] ++ q).
  rewrite flightBudget_app, flightBudget_single. by_share.
Qed.

Lemma serial_inFlight_tries (st : Sched) :
  Serial st -> Forall (fun tb => tries (fst tb) <= 5) (inFlight st).
Proof.
  intros [_ [[H _]|(t & E & Ht & _)]].
  - eapply Forall_impl; [exact H|]. cbn. intros tb [_ Hb]. lia.
  - rewrite E. repeat constructor. cbn. lia.
Qed.

(** What was spawned is covered by the budget as long as the promise is
    not rejected. *)
Lemma spawned_le_spendable (st : Sched) :
  Serial st -> settled st = None \/ Finished st ->
  spawnsOf sel (spawned st) <= spendable sel st.
Proof.
  intros HS Hs. pose proof (serial_inFlight_tries st HS) as HF.
  unfold inFlight in HF. apply Forall_app in HF. destruct HF as [Hl Hr].
  apply flightBudget_nonneg in Hl, Hr.
  assert (0 <= budget sel (redoQueue st)) as Hrq.
  { apply budget_nonneg. destruct HS as [H _].
    eapply Forall_impl; [exact H|]. cbn. unfold maxTries. intros; lia. }
  assert (0 <= budget sel (videoQueue st)) as Hvq.
  { destruct Hs as [Hopen|(E & _)]; [|rewrite E; cbn; lia].
    apply budget_nonneg. destruct HS as [_ [[_ H]|(t & _ & _ & H)]].
    - eapply Forall_impl; [exact (H Hopen)|]. cbn. unfold maxTries. intros; lia.
    - rewrite (H Hopen). constructor. }
  unfold spendable. lia.
Qed.

Lemma budget_fresh (queue : list VideoRender) :
  Forall (fun t => tries t = 0) queue ->
  budget sel queue = maxTries * tasksOf sel queue.
Proof.
  induction 1 as [|t q Ht _ IH]; [cbn; lia|].
  rewrite budget_cons, IH, Ht. unfold tasksOf. cbn [foldr]. lia.
Qed.

(** The bound as an invariant of the run: what was spawned is within the
    budget of the queue, and so is what can still be spent while the
    promise is pending. *)
Lemma spend_start (queue : list VideoRender) (p : VideoProgress) :
  Forall (fun t => tries t = 0) queue ->
  spawnsOf sel (spawned (schedule queue p)) <= maxTries * tasksOf sel queue /\
  (settled (schedule queue p) = None ->
   spendable sel (schedule queue p) <= maxTries * tasksOf sel queue).
Proof.
  intros Hq.
  assert (E : spendable sel (schedule queue p) = maxTries * tasksOf sel queue).
  { unfold schedule. rewrite checkQueue_spendable. unfold spendable.
    cbn [spawned videoQueue redoQueue live renaming].
    rewrite (budget_fresh queue Hq). cbn. lia. }
  split; [|intros _; lia].
  rewrite <- E. apply spawned_le_spendable.
  - apply (reachable_serial queue p _ Hq), reach_start.
  - destruct (settled (schedule queue p)) as [r|] eqn:Hs; [right|left; reflexivity].
    unfold schedule in *.
    eapply checkQueue_resolved; [| | |exact Hs].
    + reflexivity.
    + split; cbn; unfold simultaneousMax; lia.
    + constructor.
Qed.

Lemma spend_step (queue : list VideoRender) (p : VideoProgress) (st : Sched)
      (e : event) (bound : Z) :
  Forall (fun t => tries t = 0) queue ->
  reachable queue p st -> settled st = None ->
  spawnsOf sel (spawned st) <= bound -> spendable sel st <= bound ->
  spawnsOf sel (spawned (deliver e st)) <= bound /\
  (settled (deliver e st) = None -> spendable sel (deliver e st) <= bound).
Proof.
  intros Hq R Hopen IH1 IH2.
  destruct (reachable_serial queue p st Hq R) as [HS HW].
  destruct (reachable_serial queue p _ Hq (reach_step queue p st e R Hopen))
    as [HS' _].
  assert (He : e = TimerFired \/ e <> TimerFired)
    by (destruct e; [right|right|right|right|left]; congruence).
  destruct He as [->|He].
  - cbn [deliver]. destruct (timers st) as [|err rest].
    + split; [assumption|intros _; assumption].
    + split; [exact IH1|]. unfold cleanUpAndFailTimeout, settle, withTimers.
      cbn [settled]. rewrite Hopen. discriminate.
  - pose proof (deliver_spendable e st (serial_inFlight_tries st HS) He) as Hd.
    split; [|intros _; lia].
    etransitivity; [apply spawned_le_spendable; [exact HS'|]|lia].
    destruct (settled (deliver e st)) as [r|] eqn:Hs; [right|left; reflexivity].
    exact (deliver_resolved e st r HS HW Hopen Hs
             (deliver_settles e st r He Hopen Hs)).
Qed.

Lemma spawnsOf_filter (l : list (string * list string)) :
  spawnsOf sel l = Z.of_nat (length (List.filter (fun c => sel (snd c)) l)).
Proof.
  induction l as [|c l IH]; [reflexivity|].
  change (c :: l) with ([c] ++ l). rewrite spawnsOf_app, spawnsOf_single, IH.
  cbn [app List.filter]. unfold share. destruct (sel (snd c)); cbn [length]; lia.
Qed.

Lemma tasksOf_filter (q : list VideoRender) :
  tasksOf sel q = Z.of_nat (length (List.filter (fun t => sel (args t)) q)).
Proof.
  induction q as [|t q IH]; [reflexivity|].
  unfold tasksOf in *. cbn [foldr List.filter]. rewrite IH.
  unfold share. destruct (sel (args t)); cbn [length]; lia.
Qed.
End Spending.

Lemma spawnsOf_all (l : list (string * list string)) :
  spawnsOf (fun _ => true) l = Z.of_nat (length l).
Proof.
  induction l as [|c l IH]; [reflexivity|].
  unfold spawnsOf in *. cbn [foldr length]. rewrite IH. unfold share. lia.
Qed.

Lemma tasksOf_all (q : list VideoRender) :
  tasksOf (fun _ => true) q = Z.of_nat (length q).
Proof.
  induction q as [|t q IH]; [reflexivity|].
  unfold tasksOf in *. cbn [foldr length]. rewrite IH. unfold share. lia.
Qed.

(** X4. A run spawns [maxTries] processes for a task at most. In a run on
    tasks that start with no attempt, up to the moment at which the promise
    settles, and for every set [sel] of command lines: the [ffmpeg]
    processes that [startTask] has spawned with a command line of the set
    are at most 6 times as many as the tasks of the queue with such a
    command line. The processes of the run are at most 6 times as many as
    the tasks, and a task whose command line no other task of the queue
    shares has had 6 processes at most. Every task that the event loop
    knows from the pool has failed 4 times at most before, and every one
    from the redo queue exactly 5 times. *)
Theorem spawns_bounded
        (sel : list string -> bool)
        (queue : list VideoRender) (p : VideoProgress) (st : Sched) :
  Forall (fun t => tries t = 0) queue ->
  reachable queue p st ->
  Z.of_nat (length (List.filter (fun c => sel (snd c)) (spawned st)))
  <= maxTries * Z.of_nat (length (List.filter (fun t => sel (args t)) queue)) /\
  Z.of_nat (length (spawned st)) <= maxTries * Z.of_nat (length queue) /\
  (forall t,
     length (List.filter (fun t' => bool_decide (args t' = args t)) queue)
     = 1%nat ->
     Z.of_nat (length (List.filter (fun c => bool_decide (snd c = args t))
                         (spawned st)))
     <= maxTries) /\
  Forall (fun tb => match snd tb with
                    | Parallel => 0 <= tries (fst tb) <= 4
                    | Redo => tries (fst tb) = 5
                    end) (inFlight st).
Proof.
  intros Hq R.
  assert (H : forall s,
             spawnsOf s (spawned st) <= maxTries * tasksOf s queue
             /\ (settled st = None ->
                 spendable s st <= maxTries * tasksOf s queue)).
  { intros s. induction R as [|st e R [IH1 IH2] Hopen].
    - apply spend_start, Hq.
    - apply (spend_step s queue p st e _ Hq R Hopen IH1 (IH2 Hopen)). }
  split; [|split; [|split]].
  - rewrite <- spawnsOf_filter, <- tasksOf_filter. apply H.
  - rewrite <- spawnsOf_all, <- tasksOf_all. apply H.
  - intros t Hone.
    destruct (H (fun a => bool_decide (a = args t))) as [Ht _].
    rewrite spawnsOf_filter, tasksOf_filter, Hone in Ht. lia.
  - destruct (reachable_serial queue p st Hq R) as [[_ [[HP _]|(t & E & Ht & _)]] _].
    + eapply Forall_impl; [exact HP|]. cbn. intros [t b] [-> Hb]. exact Hb.
    + rewrite E. constructor; [exact Ht|constructor].
Qed.

Lemma spawns_bounded_witness :
  let sel := fun a : list string => bool_decide (a = ["720p"]) in
  let st := runEvents (schedule twoTasks (noMaps 7200000)) tenFailures in
  Z.of_nat (length (List.filter (fun c => sel (snd c)) (spawned st)))
  <= maxTries * Z.of_nat (length (List.filter (fun t => sel (args t)) twoTasks)) /\
  Z.of_nat (length (spawned st)) <= maxTries * Z.of_nat (length twoTasks) /\
  (forall t,
     length (List.filter (fun t' => bool_decide (args t' = args t)) twoTasks)
     = 1%nat ->
     Z.of_nat (length (List.filter (fun c => bool_decide (snd c = args t))
                         (spawned st)))
     <= maxTries) /\
  Forall (fun tb => match snd tb with
                    | Parallel => 0 <= tries (fst tb) <= 4
                    | Redo => tries (fst tb) = 5
                    end) (inFlight st).
Proof.
  intros sel st.
  apply (spawns_bounded sel twoTasks (noMaps 7200000)).
  - repeat constructor.
  - apply reachable_runEvents.
Defined.

(** In the run of [tenFailures] each of the two tasks has had its six
    processes, five in the pool and one from [redoQueue], where the
    second task still waits. *)
Example six_processes_each :
  let st := runEvents (schedule twoTasks (noMaps 7200000)) tenFailures in
  map (fun a => length (List.filter (fun c => bool_decide (snd c = a))
                          (spawned st)))
      [["720p"]; ["360p"]]
  = [5%nat; 6%nat] /\
  map (fun tb => (name (fst tb), tries (fst tb), snd tb)) (inFlight st)
  = [("360p", 5, Redo)] /\
  map (fun t => (name t, tries t)) (redoQueue st) = [("720p", 5)].
Proof. vm_compute. repeat split; reflexivity. Qed.

(* ------------------------------------------------------------------ *)
(** ** What a run never does *)

(** X5. The loop of [cleanUpAndFail] finds no process to kill. In a run on
    tasks that hold no process at the start, every task that waits in
    [videoQueue] or [redoQueue] has [process] undefined, in every state up
    to the rejection of the promise, and [kill] has not been called. *)
Theorem kill_loop_finds_no_process
        (queue : list VideoRender) (p : VideoProgress) (st : Sched) :
  Forall (fun t => process t = None) queue ->
  reachable queue p st ->
  handles (videoQueue st ++ redoQueue st) = [] /\ killed st = [].
Proof.
  intros Hq R.
  assert (HU : Unarmed st).
  { induction R as [|st e R IH Hopen].
    - unfold schedule. apply checkQueueFuel_unarmed.
      repeat split; cbn; [exact Hq|constructor].
    - apply deliver_unarmed, IH. }
  destruct HU as (HV & HR & HK). split; [|exact HK].
  apply handles_unarmed, Forall_app. split; assumption.
Qed.

Lemma kill_loop_finds_no_process_witness :
  let st := runEvents (schedule twoTasks (noMaps 7200000))
              (tenFailures ++ [Exit 0 1 "" 110; TimerFired]) in
  handles (videoQueue st ++ redoQueue st) = [] /\ killed st = [].
Proof.
  apply (kill_loop_finds_no_process twoTasks (noMaps 7200000)).
  - repeat constructor.
  - apply reachable_runEvents.
Defined.

(** X6. The progress test of the parallel retry never decides. When the
    process of a task of the parallel branch exits with an error, the exit
    report sets the percent of the task to -1 before the failure handler
    reads it, so the handler sends the task back to [videoQueue] exactly
    when its incremented [tries] is below 5, and to [redoQueue] otherwise,
    whatever progress the process had made. *)
Theorem parallel_retry_counts_attempts_only
        (st : Sched) (i : nat) (task : VideoRender) (code : Z) (errs : string)
        (now : Z) :
  live st !! i = Some (task, Parallel) ->
  code <> 0 ->
  let s := report now (txt (pretty code)) (-1) (name task) true st in
  let s' := withRunning (running s - 1)
              (withFlight (delete i (live s)) (renaming s) s) in
  let task' := withTries (tries task + 1) (withProcess None task) in
  deliver (Exit i code errs now) st
  = checkQueue
      (report now [] (-1) (name task) true
         (if tries task + 1 <? 5
          then withQueues (task' :: videoQueue s') (redoQueue s') s'
          else withQueues (videoQueue s') (redoQueue s' ++ [task']) s')).
Proof.
  intros Hi Hcode s s' task'.
  cbn [deliver]. rewrite Hi.
  replace (code =? 0) with false by (symmetry; apply Z.eqb_neq; exact Hcode).
  cbn [fst snd]. unfold failed, parallelFailed. cbn [snd fst].
  fold s. unfold percentDone.
  cbn [withProcess withTries withRunning withFlight tries name progress].
  pose proof (retry_decided_by_attempts now (txt (pretty code)) task st) as H.
  unfold percentDone in H. fold s in H. rewrite H.
  destruct (tries task + 1 <? 5); reflexivity.
Qed.

Lemma parallel_retry_counts_attempts_only_witness :
  let st := schedule twoTasks (noMaps 7200000) in
  let task := withProcess (Some 0%nat) (lowBudget "360p") in
  let s := report 10 (txt (pretty 1)) (-1) (name task) true st in
  let s' := withRunning (running s - 1)
              (withFlight (delete 0%nat (live s)) (renaming s) s) in
  let task' := withTries (tries task + 1) (withProcess None task) in
  deliver (Exit 0 1 "" 10) st
  = checkQueue
      (report 10 [] (-1) (name task) true
         (if tries task + 1 <? 5
          then withQueues (task' :: videoQueue s') (redoQueue s') s'
          else withQueues (videoQueue s') (redoQueue s' ++ [task']) s')).
Proof.
  apply (parallel_retry_counts_attempts_only
           (schedule twoTasks (noMaps 7200000)) 0%nat
           (withProcess (Some 0%nat) (lowBudget "360p")) 1 "" 10).
  - vm_compute. reflexivity.
  - lia.
Defined.

(** X7. The limit of the pool holds for a queue of any length. In a run on
    tasks that start with no attempt, however many they are, at most
    [simultaneousMax] processes are live, and [running] is the number of
    the tasks of the parallel branch whose process or rename is in
    flight. *)
Theorem pool_bounded_for_any_queue
        (queue : list VideoRender) (p : VideoProgress) (st : Sched) :
  Forall (fun t => tries t = 0) queue ->
  reachable queue p st ->
  Z.of_nat (length (live st)) <= simultaneousMax /\
  running st
  = Z.of_nat (parallelCount (live st) + parallelCount (renaming st)) /\
  0 <= running st <= simultaneousMax.
Proof.
  intros Hq R.
  destruct (reachable_serial queue p st Hq R) as [[_ HS] [Hrun Hmax]].
  split; [|split; [exact Hrun|lia]].
  destruct HS as [[Hall _]|(t & E & _)].
  - unfold inFlight in Hall. apply Forall_app in Hall. destruct Hall as [Hl _].
    rewrite <- (all_parallel_count _ Hl). lia.
  - unfold inFlight in E. apply (f_equal (@length _)) in E.
    rewrite length_app in E. cbn in E. unfold simultaneousMax. lia.
Qed.

Lemma pool_bounded_for_any_queue_witness :
  let st := schedule (replicate 9 (lowBudget "720p")) (noMaps 7200000) in
  Z.of_nat (length (live st)) <= simultaneousMax /\
  running st
  = Z.of_nat (parallelCount (live st) + parallelCount (renaming st)) /\
  0 <= running st <= simultaneousMax.
Proof.
  apply (pool_bounded_for_any_queue (replicate 9 (lowBudget "720p"))
           (noMaps 7200000)).
  - repeat constructor.
  - apply reach_start.
Defined.

(* ------------------------------------------------------------------ *)
(** ** The records of [videoProgress] in a run *)

(** [progress.errors] changes only in a call with [done] and a positive
    [stream]. *)
Lemma videoProgress_errors (now : Z) (data : text) (stream : Z) (n : string)
      (done : bool) (p p' : VideoProgress) (m : string) :
  done = false \/ stream <= 0 ->
  videoProgress now data stream n done (Some p) = Ok p' ->
  recordOf (errors p') m = recordOf (errors p) m.
Proof.
  intros Hd. unfold videoProgress.
  assert (E : done && (stream >? 0) = false).
  { destruct Hd as [->|Hs]; [reflexivity|].
    replace (stream >? 0) with false; [apply andb_false_r|].
    symmetry. rewrite Z.gtb_ltb. apply Z.ltb_ge. exact Hs. }
  rewrite E.
  assert (D : recordOf (Some (default ∅ (errors p))) m = recordOf (errors p) m).
  { destruct (errors p); cbn; [reflexivity|apply lookup_empty]. }
  repeat match goal with
         | |- context [if ?c then _ else _] => destruct c
         end;
    intros H; injection H as <-; cbn [errors]; exact D.
Qed.

Lemma report_errors now data stream n dn st (m : string) :
  dn = false \/ stream <= 0 ->
  recordOf (errors (progress (report now data stream n dn st))) m
  = recordOf (errors (progress st)) m.
Proof.
  intros Hd. unfold report.
  destruct (videoProgress now data stream n dn (Some (progress st))) as [p'|e]
    eqn:E; [|reflexivity].
  cbn [withProgress progress].
  exact (videoProgress_errors now data stream n dn (progress st) p' m Hd E).
Qed.

Lemma checkQueueFuel_progress (fuel : nat) :
  forall st, progress (checkQueueFuel fuel st) = progress st.
Proof.
  induction fuel as [|fuel IH]; intros st; [reflexivity|].
  cbn [checkQueueFuel].
  destruct (_ && _).
  - destruct (pop (videoQueue st)) as [[task rest]|]; [|reflexivity].
    rewrite IH. reflexivity.
  - destruct (_ && _).
    + destruct (redoQueue st); reflexivity.
    + destruct (running st =? 0); reflexivity.
Qed.

Lemma checkQueue_progress (st : Sched) : progress (checkQueue st) = progress st.
Proof. apply checkQueueFuel_progress. Qed.

Lemma failed_errors now err (tb : VideoRender * branch) st (m : string) :
  recordOf (errors (progress (failed now err tb st))) m
  = recordOf (errors (progress st)) m.
Proof.
  unfold failed. destruct (snd tb).
  - unfold parallelFailed. destruct (retryInParallel _ _);
      rewrite checkQueue_progress, report_errors by (right; lia); reflexivity.
  - unfold redoFailed. destruct (_ <? maxTries); [|reflexivity].
    rewrite checkQueue_progress, report_errors by (right; lia). reflexivity.
Qed.

Lemma deliver_errors (e : event) (st : Sched) (m : string) :
  recordOf (errors (progress (deliver e st))) m
  = recordOf (errors (progress st)) m.
Proof.
  destruct e as [i stream data now|i code errs now|i msg now|i err now|];
    cbn [deliver].
  - destruct (live st !! i); [|reflexivity].
    apply report_errors. left. reflexivity.
  - destruct (live st !! i) as [tb|]; [|reflexivity].
    assert (Hs : (if code =? 0 then 0 else -1) <= 0)
      by (destruct (code =? 0); lia).
    destruct (code =? 0) eqn:Ec.
    + cbn [withFlight progress]. apply report_errors. right. lia.
    + rewrite failed_errors. cbn [withFlight progress].
      apply report_errors. right. lia.
  - destruct (live st !! i) as [tb|]; [|reflexivity].
    rewrite failed_errors. cbn [withFlight progress].
    apply report_errors. right. lia.
  - destruct (renaming st !! i) as [tb|]; [|reflexivity].
    destruct (snd tb).
    + rewrite checkQueue_progress. reflexivity.
    + destruct err as [e|].
      * unfold redoFailed. destruct (_ <? maxTries).
        -- rewrite checkQueue_progress, report_errors by (right; lia).
           cbn [withQueues progress]. rewrite checkQueue_progress. reflexivity.
        -- cbn [cleanUpAndFail progress]. rewrite checkQueue_progress.
           reflexivity.
      * rewrite checkQueue_progress. reflexivity.
  - destruct (timers st); reflexivity.
Qed.

(** X8. The error counters are never incremented in a run. [monitorProcess]
    passes [done] only with the streams 0 and -1, and the scheduler's own
    calls pass -1, so no call of [videoProgress] meets [done && stream > 0]:
    in every state of a run the count of every task in [progress.errors]
    is what it was at the start. *)
Theorem errors_never_counted
        (queue : list VideoRender) (p : VideoProgress) (st : Sched)
        (n : string) :
  reachable queue p st ->
  recordOf (errors (progress st)) n = recordOf (errors p) n.
Proof.
  induction 1 as [|st e R IH Hopen].
  - unfold schedule. rewrite checkQueue_progress. reflexivity.
  - rewrite deliver_errors. exact IH.
Qed.

Lemma errors_never_counted_witness :
  recordOf (errors (progress (runEvents (schedule twoTasks (noMaps 7200000))
                                tenFailures))) "360p"
  = recordOf (errors (noMaps 7200000)) "360p".
Proof.
  apply (errors_never_counted twoTasks (noMaps 7200000)).
  apply reachable_runEvents.
Defined.

Lemma min_le_r (a b : Q) : (min a b <= b)%Q.
Proof.
  unfold min. destruct (Qle_bool a b) eqn:E.
  - apply Qle_bool_iff. exact E.
  - apply Qle_refl.
Qed.

Lemma recordOf_default_some {A} (m : option (gmap string A)) (n : string) (v : A) :
  default ∅ m !! n = Some v -> recordOf m n = Some v.
Proof.
  destruct m; cbn; [tauto|]. rewrite lookup_empty. discriminate.
Qed.

(** X9. The display reaches 100% only with the completion report. A call of
    [videoProgress] with [done = false] keeps every recorded percent at
    99.9 or below; the call with [done] and stream 0, which
    [monitorProcess] makes when the process exits with code 0, leaves the
    percent of the task at 100, and the call with [done] and a negative
    stream leaves it at -1 (a task without a record counts as -1, as in
    [progress.percent.get(name) ?? -1]). *)
Theorem percent_full_only_when_done
        (now : Z) (data : text) (stream : Z) (n : string) (done : bool)
        (p p' : VideoProgress) :
  videoProgress now data stream n done (Some p) = Ok p' ->
  (done = false ->
   (forall m v, recordOf (percent p) m = Some v -> (v <= 999 # 10)%Q) ->
   forall m v, recordOf (percent p') m = Some v -> (v <= 999 # 10)%Q) /\
  (done = true -> stream = 0 ->
   (default (-1) (recordOf (percent p') n) == 100)%Q) /\
  (done = true -> stream < 0 ->
   (default (-1) (recordOf (percent p') n) == -1)%Q).
Proof.
  unfold videoProgress.
  set (percent0 := default ∅ (percent p)).
  set (localDuration := if String.eqb n "320p" then 180000%Q else duration p).
  set (mk := marker localDuration data).
  intros H. split; [|split].
  - intros -> Hp m v.
    assert (Hold : percent0 !! m = Some v -> (v <= 999 # 10)%Q).
    { intros E. apply (Hp m), recordOf_default_some, E. }
    rewrite !andb_false_l, orb_false_r in H.
    destruct ((stream =? 0) || (negb (isEmpty data) && readFromError p));
      [|injection H as <-; exact Hold].
    destruct mk as [x|]; cbn [orb] in H; [|injection H as <-; exact Hold].
    destruct (negb (Qeq_bool _ _)); injection H as <-; [|exact Hold].
    cbn [percent recordOf mbind option_bind].
    destruct (decide (n = m)) as [->|Hne].
    + rewrite lookup_insert_eq. intros [= <-].
      destruct (stream <? 0); [discriminate|apply min_le_r].
    + rewrite lookup_insert_ne by exact Hne. exact Hold.
  - intros -> ->.
    cbn [Z.eqb orb andb Z.gtb Z.ltb Z.leb Z.compare] in H.
    rewrite orb_true_r in H.
    destruct (negb (Qeq_bool _ _)) eqn:E; injection H as <-;
      cbn [percent recordOf mbind option_bind].
    + rewrite lookup_insert_eq. reflexivity.
    + apply negb_false_iff, Qeq_bool_iff in E. exact E.
  - intros -> Hs.
    assert (E1 : (stream <? 0) = true) by (apply Z.ltb_lt; exact Hs).
    assert (E2 : (stream <=? 0) = true) by (apply Z.leb_le; lia).
    rewrite !orb_true_r, E1, E2 in H. cbn [andb orb] in H.
    rewrite orb_true_r in H.
    destruct (negb (Qeq_bool _ _)) eqn:E;
      [destruct (stream >? 0)|destruct (stream >? 0)]; injection H as <-;
      cbn [percent recordOf mbind option_bind].
    1,2: rewrite lookup_insert_eq; reflexivity.
    all: apply negb_false_iff, Qeq_bool_iff in E; exact E.
Qed.

Lemma percent_full_only_when_done_witness :
  let p := noMaps 7200000 in
  exists p',
    videoProgress 1000 (txt "out_time=02:30:00.000000") 0 "720p" false (Some p)
    = Ok p' /\
    (forall m v, recordOf (percent p') m = Some v -> (v <= 999 # 10)%Q).
Proof.
  intros p. eexists. split; [vm_compute; reflexivity|].
  refine (proj1 (percent_full_only_when_done 1000
                   (txt "out_time=02:30:00.000000") 0 "720p" false p _ _)
            eq_refl _).
  - vm_compute. reflexivity.
  - intros m v H. discriminate H.
Defined.

(* ------------------------------------------------------------------ *)
(** ** What the planner hands to the scheduler *)

Section PlanFacts.
Variables (isMovie isExtra : bool) (pw ph : Z) (hv hd hm hs : bool).
Variables (mpdRoot : string) (present : string -> bool).
Variable ffmpegArgs : Resolution -> string -> list string.

Lemma planStep_plannedFor (l : list Resolution) :
  forall acc,
    Forall (fun t => exists r, In r resolutions /\
                       plannedFor isMovie isExtra pw ph hv hd hm hs mpdRoot
                         present ffmpegArgs r t) (snd acc) ->
    Forall (fun r => In r resolutions) l ->
    Forall (fun t => exists r, In r resolutions /\
                       plannedFor isMovie isExtra pw ph hv hd hm hs mpdRoot
                         present ffmpegArgs r t)
      (snd (fold_left
              (planStep isMovie isExtra pw ph hv hd hm hs mpdRoot present
                 ffmpegArgs) l acc)).
Proof.
  induction l as [|r l IH]; intros [dv q] Hacc Hl; [exact Hacc|].
  cbn [fold_left]. apply Forall_cons in Hl. destruct Hl as [Hr Hl].
  apply IH; [|exact Hl]. unfold planStep.
  destruct (shouldSkipVideo _ _ _ _ _ _ _ _ _) eqn:Hskip; [exact Hacc|].
  destruct (present _) eqn:Hp; [exact Hacc|].
  cbn [snd] in *. apply Forall_app. split; [exact Hacc|].
  constructor; [|constructor].
  exists r. split; [exact Hr|].
  unfold plannedFor. cbn [name videoPath args tries process].
  repeat split; assumption.
Qed.

Lemma plan_plannedFor :
  Forall (fun t => exists r, In r resolutions /\
                     plannedFor isMovie isExtra pw ph hv hd hm hs mpdRoot
                       present ffmpegArgs r t)
    (plannedQueue isMovie isExtra pw ph hv hd hm hs mpdRoot present ffmpegArgs).
Proof.
  unfold plannedQueue, plan. apply planStep_plannedFor; [constructor|].
  apply List.Forall_forall. intros r Hr. exact Hr.
Qed.

Lemma plan_fresh :
  Forall (fun t => tries t = 0)
    (plannedQueue isMovie isExtra pw ph hv hd hm hs mpdRoot present ffmpegArgs).
Proof.
  eapply Forall_impl; [apply plan_plannedFor|].
  cbn. intros t (r & _ & _ & _ & _ & _ & _ & Ht & Hp). exact Ht.
Qed.

(** X10. What the planning loop queues. Every task of the queue was made
    for one of the five renditions, one that [shouldSkipVideo] lets pass
    and whose output file is absent: its name is the height followed by
    [p], its path is the path of the rendition, and it starts with
    [tries = 0] and without a process. *)
Theorem planned_tasks_are_fresh (t : VideoRender) :
  In t (plannedQueue isMovie isExtra pw ph hv hd hm hs mpdRoot present
          ffmpegArgs) ->
  exists r, In r resolutions /\
    plannedFor isMovie isExtra pw ph hv hd hm hs mpdRoot present ffmpegArgs r t.
Proof.
  intros Ht. pose proof plan_plannedFor as H.
  rewrite List.Forall_forall in H. exact (H t Ht).
Qed.
End PlanFacts.

Lemma planned_tasks_are_fresh_witness :
  exists r, In r resolutions /\
    plannedFor true false 1920 1080 true false false false
      "/mnt/streaming/Movies/Film" (fun _ => false) (fun _ path => [tmp path])
      r (withProcess None sampleTask).
Proof.
  apply (planned_tasks_are_fresh true false 1920 1080 true false false false
           "/mnt/streaming/Movies/Film" (fun _ => false)
           (fun _ path => [tmp path]) (withProcess None sampleTask)).
  vm_compute. auto 10.
Defined.

(* ------------------------------------------------------------------ *)
(** ** The inputs of the manifest *)

(** The test [streamW > w * 1.25 && streamH > h * 1.25]. *)
Lemma upscale_test (pw ph : Z) (sw : Q) (sh : Z) :
  Qlt_bool (inject_Z pw * (5 # 4)) sw
  && Qlt_bool (inject_Z ph * (5 # 4)) (inject_Z sh)
  = (5 * pw * Z.pos (Qden sw) <? 4 * Qnum sw) && (5 * ph <? 4 * sh).
Proof.
  unfold Qlt_bool, Qle_bool. cbn [Qnum Qden Qmult inject_Z].
  rewrite !Z.leb_antisym, !negb_involutive.
  f_equal; f_equal; lia.
Qed.

Section DashFacts.
Variables (isMovie isExtra : bool) (pw ph : Z) (hv hd hm hs : bool).
Variables (mpdRoot : string) (present : string -> bool).
Variable ffmpegArgs : Resolution -> string -> list string.

Lemma planStep_dash (l : list Resolution) :
  forall acc,
    length (fst (fold_left
                   (planStep isMovie isExtra pw ph hv hd hm hs mpdRoot present
                      ffmpegArgs) l acc))
    = (length (fst acc)
       + fold_right
           (fun r n =>
              (if negb (shouldSkipVideo isMovie isExtra pw ph hd hm hs
                          (w r) (h r))
                  && negb (small r) then 1 else 0) + n) 0 l)%nat.
Proof.
  induction l as [|r l IH]; intros [dv q]; cbn [fold_left fold_right]; [cbn; lia|].
  rewrite IH. unfold planStep.
  destruct (shouldSkipVideo _ _ _ _ _ _ _ _ _) eqn:Hs; [cbn; lia|].
  destruct (small r) eqn:Hm.
  - destruct (present _); cbn; lia.
  - destruct (present _); cbn [fst length negb andb]; rewrite length_app;
      cbn; lia.
Qed.

(** The renditions of [dashVideos] are the ones that [groupedVideoCount]
    counts. *)
Lemma dash_count :
  hv = true ->
  Z.of_nat (length (plannedDashVideos isMovie isExtra pw ph hv hd hm hs mpdRoot
                      present ffmpegArgs))
  = Z.max 0 (groupedVideoCount isMovie isExtra pw ph hv hd hm hs).
Proof.
  intros Hv. unfold plannedDashVideos, plan. rewrite planStep_dash.
  unfold groupedVideoCount, videoCount, resolutions, shouldSkipVideo.
  rewrite Hv.
  cbn [fst length fold_left fold_right w h negb orb].
  rewrite !orb_false_r.
  rewrite !(upscale_test pw ph). cbn [w h Qnum Qden inject_Z].
  set (a1 := 5 * pw * _ <? 4 * 1920). set (b1 := 5 * ph <? 4 * 1080).
  set (a2 := 5 * pw * _ <? 4 * 1280). set (b2 := 5 * ph <? 4 * 720).
  set (a3 := 5 * pw * _ <? 4 * 85333). set (b3 := 5 * ph <? 4 * 480).
  set (a4 := 5 * pw * _ <? 4 * 640). set (b4 := 5 * ph <? 4 * 360).
  set (a5 := 5 * pw * _ <? 4 * 569). set (b5 := 5 * ph <? 4 * 320).
  assert (Ha : a5 = true -> a4 = true).
  { subst a4 a5. rewrite !Z.ltb_lt. lia. }
  assert (Ha' : a4 = true -> a3 = true /\ a2 = true /\ a1 = true).
  { subst a1 a2 a3 a4. rewrite !Z.ltb_lt. lia. }
  assert (Hb : b5 = true -> b4 = true).
  { subst b4 b5. rewrite !Z.ltb_lt. lia. }
  assert (Hb' : b4 = true -> b3 = true /\ b2 = true /\ b1 = true).
  { subst b1 b2 b3 b4. rewrite !Z.ltb_lt. lia. }
  clearbody a1 a2 a3 a4 a5 b1 b2 b3 b4 b5.
  unfold small. cbn [h].
  (destruct a4;
   [destruct (Ha' eq_refl) as (-> & -> & ->)
   |assert (a5 = false) as ->
      by (destruct a5; [discriminate (Ha eq_refl)|reflexivity])]);
    (destruct b4;
     [destruct (Hb' eq_refl) as (-> & -> & ->)
     |assert (b5 = false) as ->
        by (destruct b5; [discriminate (Hb eq_refl)|reflexivity])]);
    repeat match goal with
           | |- context [?b] =>
               is_var b;
               match type of b with bool => destruct b end
           end;
    reflexivity.
Qed.

Lemma planStep_dash_paths (l : list Resolution) :
  forall acc,
    Forall (fun v => exists r, small r = false /\
                       v = renditionPath isMovie isExtra pw ph hv hd hm hs
                             mpdRoot r) (fst acc) ->
    Forall (fun v => exists r, small r = false /\
                       v = renditionPath isMovie isExtra pw ph hv hd hm hs
                             mpdRoot r)
      (fst (fold_left
              (planStep isMovie isExtra pw ph hv hd hm hs mpdRoot present
                 ffmpegArgs) l acc)).
Proof.
  induction l as [|r l IH]; intros [dv q] Hacc; [exact Hacc|].
  cbn [fold_left]. apply IH. unfold planStep.
  destruct (shouldSkipVideo _ _ _ _ _ _ _ _ _); [exact Hacc|].
  cbn [fst] in *.
  assert (H : Forall (fun v => exists r, small r = false /\
                         v = renditionPath isMovie isExtra pw ph hv hd hm hs
                               mpdRoot r)
                (if small r then dv
                 else dv ++ [renditionPath isMovie isExtra pw ph hv hd hm hs
                               mpdRoot r])).
  { destruct (small r) eqn:Hm; [exact Hacc|].
    apply Forall_app. split; [exact Hacc|].
    constructor; [|constructor]. exists r. split; [exact Hm|reflexivity]. }
  destruct (present _); exact H.
Qed.

Lemma dash_at_most_three :
  (length (plannedDashVideos isMovie isExtra pw ph hv hd hm hs mpdRoot present
             ffmpegArgs) <= 3)%nat.
Proof.
  unfold plannedDashVideos, plan. rewrite planStep_dash.
  unfold resolutions, small. cbn [fst length fold_right h].
  repeat match goal with
         | |- context [shouldSkipVideo ?a ?b ?c ?d ?e ?f ?g ?x ?y] =>
             destruct (shouldSkipVideo a b c d e f g x y)
         end; cbn; lia.
Qed.

(** X11. [dashVideos] holds what [groupedVideoCount] counts. With a video
    track, the list that the planning loop hands to the manifest stage has
    [groupedVideoCount] entries (none when the count is 0 or below), three
    at most; and when the count is 1 its one entry is the path that ends
    in [.av.webm], the file whose presence a later run takes for the
    desktop video. *)
Theorem dash_videos_counted :
  hv = true ->
  let dashVideos :=
    plannedDashVideos isMovie isExtra pw ph hv hd hm hs mpdRoot present
      ffmpegArgs in
  let count := groupedVideoCount isMovie isExtra pw ph hv hd hm hs in
  Z.of_nat (length dashVideos) = Z.max 0 count /\
  (length dashVideos <= 3)%nat /\
  (count = 1 -> dashVideos = [mpdRoot +:+ ".av.webm"]).
Proof.
  intros Hv dashVideos count.
  pose proof (dash_count Hv) as Hc. fold dashVideos count in Hc.
  split; [exact Hc|]. split; [apply dash_at_most_three|].
  intros H1. rewrite H1 in Hc.
  assert (HP : Forall (fun v => exists r, small r = false /\
                          v = renditionPath isMovie isExtra pw ph hv hd hm hs
                                mpdRoot r) dashVideos).
  { unfold dashVideos, plannedDashVideos, plan.
    apply planStep_dash_paths. constructor. }
  destruct dashVideos as [|v [|v' l]]; cbn [length] in Hc; try lia.
  apply Forall_cons in HP. destruct HP as [(r & Hm & ->) _].
  unfold renditionPath. fold count. rewrite Hm, H1. unfold ext. rewrite Hm.
  reflexivity.
Qed.

(** X12. The adaptation sets name every input of the manifest. When the
    manifest stage runs on the list of the planner, the set 0 of
    [-adaptation_sets] lists the streams [0 .. n-1] of the [n] videos, and
    with an audio file the set 1 names the stream [n]: the three-entry
    constant [',1,2'] is long enough for what the planner can hand over. *)
Theorem adaptation_sets_cover_planned_videos
        (audioPath : option string) (mpdPath : string) :
  hv = true ->
  needsManifest isMovie isExtra pw ph hv hd hm hs = true ->
  let dashVideos :=
    plannedDashVideos isMovie isExtra pw ph hv hd hm hs mpdRoot present
      ffmpegArgs in
  let n := length dashVideos in
  exists inputs,
    manifestArgs dashVideos audioPath mpdPath
    = inputs ++
      [ "-adaptation_sets";
        "id=0,streams=" +:+ String.concat "," (map pretty (seq 0 n)) +:+
        match audioPath with
        | Some _ => " id=1,streams=" +:+ pretty n
        | None => ""
        end;
        tmp mpdPath ].
Proof.
  intros Hv Hm dashVideos n.
  pose proof (dash_count Hv) as Hc. pose proof dash_at_most_three as H3.
  fold dashVideos in Hc, H3. unfold needsManifest in Hm.
  rewrite Z.gtb_ltb in Hm. apply Z.ltb_lt in Hm.
  subst n. unfold manifestArgs. rewrite length_rev.
  set (sets := "id=0,streams=0" +:+ _).
  set (spec := "id=0,streams=" +:+ _).
  assert (E : sets = spec).
  { subst sets spec.
    destruct dashVideos as [|a [|b [|c [|d l]]]]; cbn [length] in *; try lia;
      destruct audioPath; vm_compute; reflexivity. }
  rewrite E. eexists.
  change ["-f"; "webm_dash_manifest"; "-adaptation_sets"; spec; tmp mpdPath]
    with (["-f"; "webm_dash_manifest"] ++ ["-adaptation_sets"; spec; tmp mpdPath]).
  rewrite !app_assoc. reflexivity.
Qed.
End DashFacts.

Lemma dash_videos_counted_witness :
  let dashVideos :=
    plannedDashVideos true false 1920 1080 true false false false
      "/mnt/streaming/Movies/Film" (fun _ => false) (fun _ path => [tmp path]) in
  let count := groupedVideoCount true false 1920 1080 true false false false in
  Z.of_nat (length dashVideos) = Z.max 0 count /\
  (length dashVideos <= 3)%nat /\
  (count = 1 -> dashVideos = ["/mnt/streaming/Movies/Film" +:+ ".av.webm"]).
Proof.
  apply (dash_videos_counted true false 1920 1080 true false false false
           "/mnt/streaming/Movies/Film" (fun _ => false)
           (fun _ path => [tmp path])).
  reflexivity.
Defined.

Lemma adaptation_sets_cover_planned_videos_witness :
  let dashVideos :=
    plannedDashVideos true false 1920 1080 true false false false
      "/mnt/streaming/Movies/Film" (fun _ => false) (fun _ path => [tmp path]) in
  let n := length dashVideos in
  exists inputs,
    manifestArgs dashVideos (Some "/mnt/streaming/Movies/Film.audio.webm")
      "/mnt/streaming/Movies/Film.mpd"
    = inputs ++
      [ "-adaptation_sets";
        "id=0,streams=" +:+ String.concat "," (map pretty (seq 0 n)) +:+
        " id=1,streams=" +:+ pretty n;
        tmp "/mnt/streaming/Movies/Film.mpd" ].
Proof.
  apply (adaptation_sets_cover_planned_videos true false 1920 1080 true false
           false false "/mnt/streaming/Movies/Film" (fun _ => false)
           (fun _ path => [tmp path])
           (Some "/mnt/streaming/Movies/Film.audio.webm")
           "/mnt/streaming/Movies/Film.mpd").
  - reflexivity.
  - vm_compute. reflexivity.
Defined.

(* ------------------------------------------------------------------ *)
(** ** The temporary file of an output *)

Lemma txt_app (a b : string) : txt (a +:+ b) = txt a ++ txt b.
Proof.
  unfold txt. induction a as [|c a IH]; [reflexivity|].
  cbn [list_ascii_of_string app]. rewrite <- IH. reflexivity.
Qed.

Lemma str_app (a b : text) : str (a ++ b) = str a +:+ str b.
Proof.
  unfold str. induction a as [|c a IH]; [reflexivity|].
  cbn [string_of_list_ascii app]. rewrite IH. reflexivity.
Qed.

Lemma length_txt_app (a b : string) :
  length (txt (a +:+ b)) = (length (txt a) + length (txt b))%nat.
Proof. rewrite txt_app. apply length_app. Qed.

Lemma str_txt (s : string) : str (txt s) = s.
Proof. apply string_of_list_ascii_of_string. Qed.

Lemma manyGreedy_stops {A} (p : ascii -> bool) (k : text -> option A)
      (s : text) (y : ascii) :
  (forall a s', k (a :: s') = None) -> In y s -> p y = false ->
  manyGreedy p k s = None.
Proof.
  intros Hk. induction s as [|a s IH]; intros Hin Hy; [destruct Hin|].
  cbn. destruct (p a) eqn:Ha; [|apply Hk].
  destruct Hin as [->|Hin]; [congruence|].
  rewrite (IH Hin Hy). apply Hk.
Qed.

(** [reTmp] matches at its dot only when word characters alone follow to
    the end. *)
Lemma matchAt_reTmp_none (v : text) (y : ascii) :
  In y v -> isWord y = false -> forall a, matchAt reTmp (a :: v) = None.
Proof.
  intros Hin Hy a. unfold matchAt, reTmp, Plus. cbn [cats exec].
  cbn [txt list_ascii_of_string stripPrefix].
  destruct (Ascii.eqb "." a); [|reflexivity].
  destruct v as [|b v]; [reflexivity|].
  destruct (isWord b) eqn:Hb; [|reflexivity].
  destruct Hin as [->|Hin]; [congruence|].
  apply (manyGreedy_stops _ _ v y); [reflexivity|exact Hin|exact Hy].
Qed.

Lemma matchAt_reTmp_extension (e : text) :
  e <> [] -> forallb isWord e = true ->
  matchAt reTmp ("."%char :: e)
  = Some (S (length e), [(1%nat, "."%char :: e)]).
Proof.
  intros Hne He. unfold matchAt, reTmp, Plus. cbn [cats exec].
  cbn [txt list_ascii_of_string stripPrefix Ascii.eqb Bool.eqb].
  destruct e as [|b e]; [congruence|].
  cbn [forallb] in He. apply andb_true_iff in He. destruct He as [Hb He].
  rewrite Hb.
  rewrite <- (app_nil_r e) at 1.
  erewrite manyGreedy_through; [reflexivity|exact He|].
  cbn [manyGreedy exec length]. rewrite !Nat.sub_0_r.
  cbn [take]. rewrite firstn_all. reflexivity.
Qed.

Lemma searchFrom_pass (r : re) (pre rest : text) (i : nat) :
  (forall u a v, pre = u ++ a :: v -> matchAt r (a :: v ++ rest) = None) ->
  searchFrom r i (pre ++ rest) = searchFrom r (i + length pre) rest.
Proof.
  revert i. induction pre as [|a pre IH]; intros i H.
  - cbn [app length]. rewrite Nat.add_0_r. reflexivity.
  - cbn [app searchFrom]. rewrite (H [] a pre eq_refl).
    rewrite IH by (intros u b v E; apply (H (a :: u) b v); rewrite E;
                   reflexivity).
    cbn [length]. f_equal. lia.
Qed.

Lemma searchFrom_reTmp_none (s : text) (i : nat) :
  ~ In "."%char s -> searchFrom reTmp i s = None.
Proof.
  revert i. induction s as [|a s IH]; intros i H; [reflexivity|].
  cbn [searchFrom].
  assert (E : matchAt reTmp (a :: s) = None).
  { unfold matchAt, reTmp, Plus. cbn [cats exec].
    cbn [txt list_ascii_of_string stripPrefix].
    destruct (Ascii.eqb "." a) eqn:Ea; [|reflexivity].
    apply Ascii.eqb_eq in Ea. exfalso. apply H. left. symmetry. exact Ea. }
  rewrite E. apply IH. intros F. apply H. right. exact F.
Qed.

(** X13. [tmp] puts [.tmp] before the extension. For a file name that ends
    in a dot and a non-empty run of word characters the result is the name
    with [.tmp] inserted before that dot, whatever comes before, so the
    temporary file is never the output file itself; a name without a dot
    is returned as it is. *)
Theorem tmp_inserts_before_extension (root e : string) :
  e <> "" -> forallb isWord (txt e) = true ->
  tmp (root +:+ "." +:+ e) = root +:+ ".tmp." +:+ e /\
  tmp (root +:+ "." +:+ e) <> root +:+ "." +:+ e /\
  (forall file, ~ In "."%char (txt file) -> tmp file = file).
Proof.
  intros Hne He.
  assert (Hne' : txt e <> []).
  { intros F. apply Hne. rewrite <- (str_txt e), F. reflexivity. }
  assert (E : tmp (root +:+ "." +:+ e) = root +:+ ".tmp." +:+ e).
  { unfold tmp, replaceFirst. rewrite !txt_app.
    change (txt ".") with ["."%char].
    rewrite searchFrom_pass.
    - cbn [app searchFrom]. rewrite (matchAt_reTmp_extension _ Hne' He).
      cbn [Nat.add group Nat.eqb default].
      rewrite take_app_length.
      replace (length (txt root) + S (length (txt e)))%nat
        with (length (txt root ++ "."%char :: txt e))
        by (rewrite length_app; reflexivity).
      rewrite drop_all, app_nil_r, !str_app, !str_txt.
      change (str (id ("."%char :: txt e))) with (String "." (str (txt e))).
      rewrite str_txt. reflexivity.
    - intros u a v _.
      apply (matchAt_reTmp_none _ "."%char); [|reflexivity].
      apply in_or_app. right. left. reflexivity. }
  split; [exact E|]. split.
  - rewrite E. intros F. apply (f_equal (fun x => length (txt x))) in F.
    cbn beta in F. rewrite !length_txt_app in F. cbn in F. lia.
  - intros file Hf. unfold tmp, replaceFirst.
    rewrite (searchFrom_reTmp_none _ 0 Hf). apply str_txt.
Qed.

Lemma tmp_inserts_before_extension_witness :
  tmp ("/mnt/streaming/Movies/Film.v720" +:+ "." +:+ "webm")
  = "/mnt/streaming/Movies/Film.v720" +:+ ".tmp." +:+ "webm" /\
  tmp ("/mnt/streaming/Movies/Film.v720" +:+ "." +:+ "webm")
  <> "/mnt/streaming/Movies/Film.v720" +:+ "." +:+ "webm" /\
  (forall file, ~ In "."%char (txt file) -> tmp file = file).
Proof.
  apply (tmp_inserts_before_extension "/mnt/streaming/Movies/Film.v720" "webm").
  - discriminate.
  - reflexivity.
Defined.

(* ------------------------------------------------------------------ *)
(** ** The processes of a call of [createStreaming] *)

Lemma within_weaken {A} (a b : nat) (m : M A) :
  (a <= b)%nat -> spawnsWithin a m -> spawnsWithin b m.
Proof. intros H Hm w. specialize (Hm w). lia. Qed.

Lemma within_bind {A B} (a b : nat) (m : M A) (f : A -> M B) :
  spawnsWithin a m -> (forall x, spawnsWithin b (f x)) ->
  spawnsWithin (a + b) (bind m f).
Proof.
  intros Hm Hf w. unfold bind. specialize (Hm w).
  destruct (m w) as [[x| |] w']; cbn [snd] in *; [|lia|lia].
  specialize (Hf x w'). lia.
Qed.

Lemma within_bind0 {A B} (b : nat) (m : M A) (f : A -> M B) :
  spawnsWithin 0 m -> (forall x, spawnsWithin b (f x)) ->
  spawnsWithin b (bind m f).
Proof. intros Hm Hf. exact (within_bind 0 b m f Hm Hf). Qed.

Lemma within_bind_last {A B} (a : nat) (m : M A) (f : A -> M B) :
  spawnsWithin a m -> (forall x, spawnsWithin 0 (f x)) ->
  spawnsWithin a (bind m f).
Proof.
  intros Hm Hf. apply (within_weaken (a + 0)); [lia|].
  exact (within_bind a 0 m f Hm Hf).
Qed.

Lemma within_try {A} (a b : nat) (m : M A) (h : error -> M A) :
  spawnsWithin a m -> (forall e, spawnsWithin b (h e)) ->
  spawnsWithin (a + b) (try m h).
Proof.
  intros Hm Hh w. unfold try. specialize (Hm w).
  destruct (m w) as [[x|e|] w']; cbn [snd] in *; [lia| |lia].
  specialize (Hh e w'). lia.
Qed.

Lemma within_ret {A} (x : A) : spawnsWithin 0 (ret x).
Proof. intros w. cbn. lia. Qed.

Lemma within_throw {A} (e : error) : spawnsWithin 0 (@throw A e).
Proof. intros w. cbn. lia. Qed.

Lemma within_existsAsync (path : string) : spawnsWithin 0 (existsAsync path).
Proof. intros w. cbn. lia. Qed.

Lemma within_writeFile (path : string) (c : text) :
  spawnsWithin 0 (writeFile path c).
Proof. intros w. cbn. lia. Qed.

Lemma within_mkdirSync (path : string) : spawnsWithin 0 (mkdirSync path).
Proof. intros w. cbn. lia. Qed.

Lemma within_safeUnlink (path : string) : spawnsWithin 0 (safeUnlink path).
Proof.
  intros w. unfold safeUnlink, bind, getFiles.
  destruct (files w !! path); cbn; lia.
Qed.

Lemma within_rename (from to : string) : spawnsWithin 0 (rename from to).
Proof.
  intros w. unfold rename, bind, getFiles.
  destruct (files w !! from); cbn; lia.
Qed.

Lemma within_readFile (path : string) : spawnsWithin 0 (readFile path).
Proof.
  intros w. unfold readFile, bind, getFiles.
  destruct (files w !! path); cbn; lia.
Qed.

Lemma within_runFfmpeg (args : list string) (output : string)
      (outcome : result text) (partial : option text) :
  spawnsWithin 1 (runFfmpeg args output outcome partial).
Proof.
  intros w. unfold runFfmpeg, bind, spawn.
  destruct outcome; [|destruct partial]; cbn; rewrite length_app; cbn; lia.
Qed.

(** One process for an iteration of the audio loop. *)
Lemma within_audioLoop (fuel : nat) :
  forall i count audioIndex errorReportPath audioPath args runs leftover,
    spawnsWithin fuel
      (audioLoop fuel i count audioIndex errorReportPath audioPath args runs
         leftover).
Proof.
  induction fuel as [|fuel IH]; intros; cbn [audioLoop]; [apply within_ret|].
  apply (within_try 1 fuel).
  - apply (within_bind 0 1); [apply within_safeUnlink|intros _].
    apply (within_bind 1 0); [apply within_runFfmpeg|intros _].
    apply within_rename.
  - intros e. destruct (i =? count - 1).
    + apply (within_weaken 0); [lia|].
      apply (within_bind 0 0); [apply within_writeFile|intros _].
      apply within_throw.
    + apply IH.
Qed.

Lemma renames_keep_spawns (l : list (string * string)) :
  forall w,
    spawns
      (fold_left
         (fun w ft =>
            snd (setFiles (<[snd ft := txt "video"]> (delete (fst ft) (files w)))
                   w)) l w)
    = spawns w.
Proof.
  induction l as [|ft l IH]; intros w; [reflexivity|].
  cbn [fold_left]. rewrite IH. reflexivity.
Qed.

Lemma within_videoStage (queue : list VideoRender) (duration : Q)
      (es : list event) :
  Forall (fun t => tries t = 0) queue ->
  spawnsWithin (6 * length queue) (videoStage queue duration es).
Proof.
  intros Hq w. unfold videoStage.
  assert (H : Z.of_nat
                (length (spawned (runEvents (schedule queue (noMaps duration)) es)))
              <= maxTries * Z.of_nat (length queue)).
  { pose proof (reachable_runEvents queue (noMaps duration) es) as R.
    rewrite <- spawnsOf_all, <- tasksOf_all.
    enough (H : spawnsOf (fun _ => true)
                  (spawned (runEvents (schedule queue (noMaps duration)) es))
                <= maxTries * tasksOf (fun _ => true) queue
                /\ (settled (runEvents (schedule queue (noMaps duration)) es)
                    = None ->
                    spendable (fun _ => true)
                      (runEvents (schedule queue (noMaps duration)) es)
                    <= maxTries * tasksOf (fun _ => true) queue))
      by apply H.
    induction R as [|st e R [IH1 IH2] Hopen].
    - apply spend_start, Hq.
    - apply (spend_step (fun _ => true) queue (noMaps duration) st e _ Hq R
               Hopen IH1 (IH2 Hopen)). }
  unfold maxTries in H.
  set (st := runEvents (schedule queue (noMaps duration)) es) in *.
  assert (E : spawns
                (fold_left
                   (fun w ft =>
                      snd (setFiles
                             (<[snd ft := txt "video"]>
                                (delete (fst ft) (files w))) w))
                   (renamed st)
                   {| files := files w; history := history w;
                      spawns := spawns w ++ spawned st |})
              = spawns w ++ spawned st)
    by apply renames_keep_spawns.
  destruct (settled st) as [[u|e]|]; cbn [snd]; rewrite E, length_app; lia.
Qed.

Section SpawnFacts.
Variables STREAM_SHARE VIDEO_SOURCE : string.
Variable dirname : string -> string.
Variable pathJoin : string -> string -> string.
Variable htmlEscape : text -> text.
Variable ffmpegArgs : Resolution -> string -> list string.

Lemma within_manifestStage (env : Env) (dashVideos : list string)
      (audioPath : option string) (mpdPath errorReportPath : string) :
  spawnsWithin 1
    (manifestStage htmlEscape env dashVideos audioPath mpdPath errorReportPath).
Proof.
  unfold manifestStage.
  apply (within_bind 1 0).
  - apply (within_try 1 0).
    + apply (within_bind 1 0); [apply within_runFfmpeg|intros _].
      apply within_rename.
    + intros e. apply (within_bind 0 0); [apply within_writeFile|intros _].
      apply within_throw.
  - intros _. apply (within_bind 0 0); [apply within_readFile|intros c].
    apply within_writeFile.
Qed.

(** X14. Until it returns or throws, a call of [createStreaming] has
    started a bounded number of processes: one audio encoder for each
    audio track at most, six video encoders for each of the five
    renditions at most, and one run for the manifest, whatever the
    processes do and whatever the output directory holds. *)
Theorem createStreaming_process_budget
        (env : Env) (path : string) (audios : list AudioTrack)
        (video : option VideoTrack) (subtitles : list SubtitlesTrack)
        (isMovie isExtra : bool) (duration : Q) (world : World) :
  (length (spawns (snd (createStreaming STREAM_SHARE VIDEO_SOURCE dirname
                          pathJoin htmlEscape ffmpegArgs env path audios video
                          subtitles isMovie isExtra duration world)))
   <= length (spawns world) + (length audios + 30 + 1))%nat.
Proof.
  revert world.
  change (spawnsWithin (length audios + 30 + 1)
            (createStreaming STREAM_SHARE VIDEO_SOURCE dirname pathJoin
               htmlEscape ffmpegArgs env path audios video subtitles isMovie
               isExtra duration)).
  unfold createStreaming.
  destruct (match video with
            | Some v => pixel_dimensions v
            | None => (1, 1)
            end) as [pw ph].
  apply within_bind0.
  { destruct (_ || _); [apply within_ret|apply within_existsAsync]. }
  intros busy. destruct busy; [apply (within_weaken 0); [lia|apply within_ret]|].
  apply within_bind0; [apply within_existsAsync|intros hasMpd].
  apply within_bind0.
  { destruct hasMpd; [apply within_ret|apply within_existsAsync]. }
  intros hasAv.
  apply within_bind0; [apply within_existsAsync|intros hasMobile].
  apply within_bind0; [apply within_existsAsync|intros hasSample].
  destruct (hasAv && hasMobile && hasSample);
    [apply (within_weaken 0); [lia|apply within_ret]|].
  apply within_bind0; [apply within_existsAsync|intros hasParent].
  apply within_bind0.
  { destruct hasParent; [apply within_ret|apply within_mkdirSync]. }
  intros _.
  destruct (pickAudio path audios) as [audio|];
    [|apply (within_weaken 0); [lia|apply within_throw]].
  cbv zeta.
  apply (within_weaken (length audios + (30 + 1))); [lia|].
  apply (within_bind (length audios) (30 + 1)).
  { destruct (_ && _ && _); [|apply (within_weaken 0); [lia|apply within_ret]].
    apply within_bind0; [apply within_existsAsync|intros hasAudio].
    apply within_bind_last; [|intros _; apply within_ret].
    destruct hasAudio; [apply (within_weaken 0); [lia|apply within_ret]|].
    apply within_audioLoop. }
  intros audioPath.
  apply (within_bind 30 1).
  { destruct video as [v|]; [|apply (within_weaken 0); [lia|apply within_ret]].
    apply within_bind0; [intros w; cbn; lia|intros f].
    apply within_bind_last; [|intros _; apply within_ret].
    eapply within_weaken; [|apply within_videoStage, plan_fresh].
    pose proof (plan_length isMovie isExtra pw ph true hasAv hasMobile
                  hasSample (mpdRootOf STREAM_SHARE VIDEO_SOURCE path)
                  (fun p => match f !! p with Some _ => true | None => false end)
                  ffmpegArgs) as H.
    unfold plannedQueue in H. lia. }
  intros dashVideos.
  apply within_bind_last; [|intros _; apply within_ret].
  destruct (_ >? 1); [apply within_manifestStage|].
  apply (within_weaken 0); [lia|apply within_ret].
Qed.
End SpawnFacts.

Section DeclineFacts.
Variables STREAM_SHARE VIDEO_SOURCE : string.
Variable dirname : string -> string.
Variable pathJoin : string -> string -> string.
Variable htmlEscape : text -> text.
Variable ffmpegArgs : Resolution -> string -> list string.

(** X15. What [createStreaming] leaves alone. For a video more than 1100
    pixels high, for a stereoscopic video, and when the directory of the
    output holds [busy.txt], the call returns [false] and the world is as
    it was: no process is started, no file is written and the parent
    directory is not created. *)
Theorem createStreaming_declines
        (env : Env) (path : string) (audios : list AudioTrack)
        (video : option VideoTrack) (subtitles : list SubtitlesTrack)
        (isMovie isExtra : bool) (duration : Q) (world : World) :
  1100 < snd (match video with Some v => pixel_dimensions v | None => (1, 1) end)
  \/ truthy (video ≫= stereo_mode) = true
  \/ is_Some (files world
              !! pathJoin (dirname (mpdRootOf STREAM_SHARE VIDEO_SOURCE path))
                   "busy.txt") ->
  createStreaming STREAM_SHARE VIDEO_SOURCE dirname pathJoin htmlEscape
    ffmpegArgs env path audios video subtitles isMovie isExtra duration world
  = (Returned false, world).
Proof.
  intros H. unfold createStreaming.
  destruct (match video with
            | Some v => pixel_dimensions v
            | None => (1, 1)
            end) as [pw ph].
  cbn [snd] in H.
  unfold existsAsync, getFiles, ret, bind.
  destruct ((ph >? 1100) || truthy (video ≫= stereo_mode)) eqn:E;
    [reflexivity|].
  apply orb_false_iff in E. destruct E as [E1 E2].
  rewrite Z.gtb_ltb in E1. apply Z.ltb_ge in E1.
  destruct H as [H|[H|[c H]]]; [lia|congruence|].
  cbn beta iota. rewrite H. reflexivity.
Qed.
End DeclineFacts.

Lemma createStreaming_declines_witness :
  let ultraHD :=
    {| pixel_dimensions := (3840, 2160); display_dimensions := (3840, 2160);
       stereo_mode := None |} in
  createStreaming linuxShare linuxSource posixDirname posixJoin escapeMarkup
    (fun _ _ => []) quietEnv film [stereoTrack] (Some ultraHD) [] true false
    7200000 emptyWorld
  = (Returned false, emptyWorld).
Proof.
  intros ultraHD.
  apply (createStreaming_declines linuxShare linuxSource posixDirname
           posixJoin escapeMarkup (fun _ _ => []) quietEnv film [stereoTrack]
           (Some ultraHD) [] true false 7200000 emptyWorld).
  left. cbn. lia.
Defined.

(* ------------------------------------------------------------------ *)
(** ** [monitorProcess] *)

Section MonitorFacts.
Variable errorish : text -> bool.
Variable webpackNoise : text -> bool.
Variable errorMode : ErrorMode.
Variable outputLimit : nat.

Let step := handle errorish webpackNoise errorMode outputLimit.
Let run := monitorProcess errorish webpackNoise errorMode outputLimit.

Lemma limited_length (s : text) :
  (0 < outputLimit)%nat -> (length (limited outputLimit s) <= outputLimit)%nat.
Proof.
  intros H. unfold limited.
  destruct (0 <? outputLimit)%nat eqn:E0; [|apply Nat.ltb_ge in E0; lia].
  destruct (outputLimit <? length s)%nat eqn:E; cbn [andb].
  - apply Nat.ltb_lt in E. rewrite length_skipn. lia.
  - apply Nat.ltb_ge in E. exact E.
Qed.

(** Cutting as the text grows is cutting once at the end. *)
Lemma limited_app (a b : text) :
  limited outputLimit (limited outputLimit a ++ b)
  = limited outputLimit (a ++ b).
Proof.
  unfold limited.
  destruct (0 <? outputLimit)%nat eqn:E0; cbn [andb]; [|reflexivity].
  apply Nat.ltb_lt in E0.
  destruct (outputLimit <? length a)%nat eqn:Ea; [|reflexivity].
  apply Nat.ltb_lt in Ea.
  rewrite !length_app, length_skipn.
  replace (outputLimit <? length a + length b)%nat with true
    by (symmetry; apply Nat.ltb_lt; lia).
  destruct (outputLimit <? length a - (length a - outputLimit) + length b)%nat
    eqn:Eb.
  - apply Nat.ltb_lt in Eb.
    set (k := (length a - outputLimit)%nat).
    assert (Hk : skipn k (a ++ b) = skipn k a ++ b).
    { rewrite skipn_app. replace (k - length a)%nat with 0%nat by lia.
      reflexivity. }
    transitivity (skipn (length b) (skipn k a ++ b)).
    + f_equal. lia.
    + rewrite <- Hk, skipn_skipn. f_equal. lia.
  - apply Nat.ltb_ge in Eb.
    assert (length b = 0)%nat as Hb by lia.
    destruct b; [|discriminate Hb]. rewrite !app_nil_r.
    cbn [length]. rewrite Nat.add_0_r. reflexivity.
Qed.

Lemma handle_output (m : Monitor) (e : procEvent) (raw : text) :
  mOutput m = limited outputLimit raw ->
  mOutput (step m e) = limited outputLimit (raw ++ stdoutOf [e]).
Proof.
  intros H. unfold step, stdoutOf. cbn [flat_map]. rewrite app_nil_r.
  destruct e as [data|data|message|[exitCode|]|]; cbn [handle];
    rewrite ?app_nil_r.
  - destruct (webpackNoise _); [exact H|].
    destruct (if failsOnAnyError _ then _ else _) as [[]|]; exact H.
  - destruct (looksLikeAnError _ _ _) as [[]|];
      cbn [withErrors withOutput markTime raise mOutput];
      rewrite H; apply limited_app.
  - destruct (ignoresErrors _); exact H.
  - destruct (_ || _); exact H.
  - exact H.
  - exact H.
Qed.

Lemma run_output (es : list procEvent) :
  forall m raw,
    mOutput m = limited outputLimit raw ->
    mOutput (fold_left step es m) = limited outputLimit (raw ++ stdoutOf es).
Proof.
  induction es as [|e es IH]; intros m raw H.
  - cbn. rewrite app_nil_r. exact H.
  - cbn [fold_left].
    rewrite (IH (step m e) (raw ++ stdoutOf [e]) (handle_output m e raw H)).
    rewrite <- app_assoc. unfold stdoutOf. cbn [flat_map].
    rewrite app_nil_r. reflexivity.
Qed.

Lemma handle_errors_length (m : Monitor) (e : procEvent) :
  (0 < outputLimit)%nat ->
  (length (mErrors m) <= outputLimit)%nat ->
  (length (mErrors (step m e)) <= outputLimit)%nat.
Proof.
  intros H0 H. unfold step.
  destruct e as [data|data|message|[exitCode|]|]; cbn [handle].
  - destruct (webpackNoise _); [exact H|].
    destruct (if failsOnAnyError _ then _ else _) as [[]|]; try exact H.
    cbn [withErrors mErrors]. apply limited_length, H0.
  - destruct (looksLikeAnError _ _ _) as [[]|]; try exact H.
    cbn [withErrors mErrors]. apply limited_length, H0.
  - destruct (ignoresErrors _); exact H.
  - destruct (_ || _); exact H.
  - exact H.
  - exact H.
Qed.

Lemma run_errors_length (es : list procEvent) :
  forall m,
    (0 < outputLimit)%nat ->
    (length (mErrors m) <= outputLimit)%nat ->
    (length (mErrors (fold_left step es m)) <= outputLimit)%nat.
Proof.
  induction es as [|e es IH]; intros m H0 H; [exact H|].
  cbn [fold_left]. apply IH; [exact H0|]. apply handle_errors_length; assumption.
Qed.

(** X16. What [monitorProcess] keeps of the output. After any events, the
    variable [output], which the promise resolves with, is the text that
    the process wrote to [stdout], cut to its last [outputLimit]
    characters when the limit is positive and whole when it is 0; with a
    positive limit [errors] is no longer than the limit either. *)
Theorem monitor_output_is_tail_of_stdout (es : list procEvent) :
  mOutput (run es) = limited outputLimit (stdoutOf es) /\
  ((0 < outputLimit)%nat ->
   (length (mOutput (run es)) <= outputLimit)%nat /\
   (length (mErrors (run es)) <= outputLimit)%nat).
Proof.
  assert (E : mOutput (run es) = limited outputLimit (stdoutOf es)).
  { unfold run, monitorProcess.
    apply (run_output es monitorStart []). unfold limited. cbn [length].
    destruct outputLimit; reflexivity. }
  split; [exact E|]. intros H0. split.
  - rewrite E. apply limited_length, H0.
  - unfold run, monitorProcess. apply run_errors_length; [exact H0|].
    cbn. lia.
Qed.

Lemma handle_settled (m : Monitor) (e : procEvent) (s : settlement) :
  promise m = Some s -> promise (step m e) = Some s.
Proof.
  intros H. unfold step.
  destruct e as [data|data|message|[exitCode|]|]; cbn [handle].
  - destruct (webpackNoise _); [exact H|].
    destruct (if failsOnAnyError _ then _ else _) as [[]|]; exact H.
  - destruct (looksLikeAnError _ _ _) as [[]|]; exact H.
  - destruct (ignoresErrors _); cbn; rewrite H; reflexivity.
  - destruct (_ || _); cbn; rewrite H; reflexivity.
  - exact H.
  - exact H.
Qed.

Lemma run_settled (es : list procEvent) :
  forall m s, promise m = Some s -> promise (fold_left step es m) = Some s.
Proof.
  induction es as [|e es IH]; intros m s H; [exact H|].
  cbn [fold_left]. apply IH, handle_settled, H.
Qed.

Lemma run_pending (es : list procEvent) :
  forall m,
    forallb (fun e => negb (isTerminal e)) es = true ->
    promise (fold_left step es m) = promise m.
Proof.
  induction es as [|e es IH]; intros m H; [reflexivity|].
  cbn [forallb] in H. apply andb_true_iff in H. destruct H as [He H].
  cbn [fold_left]. rewrite (IH _ H). unfold step.
  destruct e as [data|data|message|exitCode|]; cbn [handle];
    try discriminate He.
  - destruct (webpackNoise _); [reflexivity|].
    destruct (if failsOnAnyError _ then _ else _) as [[]|]; reflexivity.
  - destruct (looksLikeAnError _ _ _) as [[]|]; reflexivity.
  - reflexivity.
Qed.

(** X17. How the promise of [monitorProcess] settles. When [exit] with a
    numeric code is the first of the events [error] and [exit], the promise
    settles there and stays so: it resolves with the output collected so
    far when the code is 0 or the mode is [IGNORE_ERRORS], and otherwise it
    is rejected with a [ProcessError] whose message is the collected error
    text, or the code when there is none, and which carries the code and
    the output. When that first [exit] has the code [null], as it has for a
    process that a signal ended, the handler throws at [code.toString()]
    before it calls [markTime], [resolve] or [reject]: the exception is all
    that the event leaves, and the promise is still pending. *)
Theorem monitor_settles_at_exit (before after : list procEvent) (exitCode : Z) :
  forallb (fun e => negb (isTerminal e)) before = true ->
  let m := run before in
  promise (run (before ++ ProcExit (Some exitCode) :: after))
  = Some (if (exitCode =? 0) || ignoresErrors errorMode
          then Resolved (limited outputLimit (stdoutOf before))
          else RejectedExit
                 (if isEmpty (mErrors m) then txt (pretty exitCode)
                  else mErrors m)
                 exitCode (limited outputLimit (stdoutOf before))) /\
  run (before ++ [ProcExit None])
  = raise (TypeError "Cannot read properties of null (reading 'toString')") m /\
  promise (run (before ++ [ProcExit None])) = None.
Proof.
  intros H m.
  assert (Hp : promise m = None).
  { unfold m, run, monitorProcess. fold step.
    rewrite (run_pending before monitorStart H). reflexivity. }
  assert (Ho : mOutput m = limited outputLimit (stdoutOf before)).
  { unfold m, run, monitorProcess. fold step.
    apply (run_output before monitorStart []). unfold limited. cbn [length].
    destruct outputLimit; reflexivity. }
  assert (Hnull : run (before ++ [ProcExit None])
                  = raise (TypeError
                             "Cannot read properties of null (reading 'toString')")
                      m).
  { unfold m, run, monitorProcess. rewrite fold_left_app. reflexivity. }
  split; [|split; [exact Hnull|rewrite Hnull; exact Hp]].
  unfold run, monitorProcess.
  rewrite fold_left_app. cbn [fold_left]. fold step.
  apply run_settled.
  fold step. change (fold_left step before monitorStart) with m.
  unfold step. cbn [handle].
  destruct ((exitCode =? 0) || ignoresErrors errorMode);
    cbn [settlePromise markTime promise mOutput mErrors];
    rewrite Hp, Ho; reflexivity.
Qed.

(** X18. The mode [IGNORE_ERRORS] never rejects: whatever the process
    does, the promise is pending or resolved. *)
Theorem ignore_errors_never_rejects (es : list procEvent) (s : settlement) :
  errorMode = IGNORE_ERRORS ->
  promise (run es) = Some s -> isRejection s = false.
Proof.
  intros Hmode. unfold run, monitorProcess. fold step.
  assert (H : forall m,
             (forall s0, promise m = Some s0 -> isRejection s0 = false) ->
             forall s0, promise (fold_left step es m) = Some s0 ->
                        isRejection s0 = false).
  { induction es as [|e es IH]; intros m Hm; [exact Hm|].
    cbn [fold_left]. apply IH. intros s0. unfold step.
    destruct e as [data|data|message|[exitCode|]|]; cbn [handle].
    - destruct (webpackNoise _); [apply Hm|].
      destruct (if failsOnAnyError _ then _ else _) as [[]|]; apply Hm.
    - destruct (looksLikeAnError _ _ _) as [[]|]; apply Hm.
    - rewrite Hmode. cbn [ignoresErrors settlePromise markTime promise].
      destruct (promise m) as [s1|] eqn:E; intros [= <-];
        [apply Hm; reflexivity|reflexivity].
    - rewrite Hmode, orb_true_r.
      cbn [settlePromise markTime promise].
      destruct (promise m) as [s1|] eqn:E; intros [= <-];
        [apply Hm; reflexivity|reflexivity].
    - apply Hm.
    - apply Hm. }
  apply H. intros s0 F. discriminate F.
Qed.

(** X19. [markTime] is told the end only with the streams 0 and -1. In
    the calls that [monitorProcess] makes, [done] is set only in the two
    calls of the handlers of [exit] and [error], with stream 0 for the
    exit code 0 and -1 otherwise; the calls for [stderr], with stream 1,
    never set it. *)
Theorem done_only_with_stream_0_or_minus_1
        (es : list procEvent) (data : option text) (stream : option Z) :
  In (data, stream, true) (marks (run es)) ->
  stream = Some 0 \/ stream = Some (-1).
Proof.
  unfold run, monitorProcess. fold step.
  assert (H : forall m,
             Forall (fun k => snd k = true ->
                              snd (fst k) = Some 0 \/ snd (fst k) = Some (-1))
               (marks m) ->
             Forall (fun k => snd k = true ->
                              snd (fst k) = Some 0 \/ snd (fst k) = Some (-1))
               (marks (fold_left step es m))).
  { induction es as [|e es IH]; intros m Hm; [exact Hm|].
    cbn [fold_left]. apply IH. unfold step.
    destruct e as [d|d|message|[exitCode|]|]; cbn [handle].
    - assert (Forall (fun k => snd k = true ->
                          snd (fst k) = Some 0 \/ snd (fst k) = Some (-1))
                (marks (markTime (Some d) (Some 1) false m))) as Hk.
      { cbn [markTime marks]. apply Forall_app. split; [exact Hm|].
        constructor; [cbn; discriminate|constructor]. }
      destruct (webpackNoise _); [exact Hk|].
      destruct (if failsOnAnyError _ then _ else _) as [[]|]; exact Hk.
    - assert (Forall (fun k => snd k = true ->
                          snd (fst k) = Some 0 \/ snd (fst k) = Some (-1))
                (marks (markTime (Some d) (Some 0) false m))) as Hk.
      { cbn [markTime marks]. apply Forall_app. split; [exact Hm|].
        constructor; [cbn; discriminate|constructor]. }
      destruct (looksLikeAnError _ _ _) as [[]|]; exact Hk.
    - destruct (ignoresErrors _); cbn [settlePromise markTime marks];
        (apply Forall_app; split; [exact Hm|]);
        (constructor; [cbn; intros _; auto|constructor]).
    - destruct (_ || _); cbn [settlePromise markTime marks];
        (apply Forall_app; split; [exact Hm|]);
        (constructor;
         [cbn; intros _; destruct (exitCode =? 0); auto|constructor]).
    - exact Hm.
    - cbn [markTime marks]. apply Forall_app. split; [exact Hm|].
      constructor; [cbn; discriminate|constructor]. }
  intros Hin.
  specialize (H monitorStart (List.Forall_nil _)).
  rewrite List.Forall_forall in H. exact (H _ Hin eq_refl).
Qed.
End MonitorFacts.

Lemma monitor_output_is_tail_of_stdout_witness :
  let es := [Stdout (txt "frame=1"); Stderr (txt "warn"); Stdout (txt "frame=2");
             ProcExit (Some 0)] in
  let m := monitorProcess (fun _ => false) (fun _ => false) DEFAULT 10 es in
  mOutput m = txt "e=1frame=2" /\
  (length (mOutput m) <= 10)%nat /\ (length (mErrors m) <= 10)%nat.
Proof.
  intros es m.
  destruct (monitor_output_is_tail_of_stdout (fun _ => false) (fun _ => false)
              DEFAULT 10 es) as [E H].
  split; [exact E|]. apply H. lia.
Defined.

Lemma monitor_settles_at_exit_witness :
  let before := [Stdout (txt "frame=1"); Tick] in
  let run := monitorProcess (fun _ => false) (fun _ => false) DEFAULT 0 in
  promise (run (before ++ ProcExit (Some 1) :: [Tick]))
  = Some (RejectedExit (txt "1") 1 (txt "frame=1")) /\
  run (before ++ [ProcExit None])
  = raise (TypeError "Cannot read properties of null (reading 'toString')")
      (run before) /\
  promise (run (before ++ [ProcExit None])) = None.
Proof.
  apply (monitor_settles_at_exit (fun _ => false) (fun _ => false) DEFAULT 0
           [Stdout (txt "frame=1"); Tick] [Tick] 1).
  reflexivity.
Defined.

(** With a function for [errorMode] the handler of [stdout] throws once it
    has added the data to the output, and the one of [stderr] throws after
    its call of [markTime]: no error text is collected, and a process that
    fails is reported with its code alone. *)
Example function_errorMode_throws :
  let m := monitorProcess (fun _ => true) (fun _ => false)
             (ErrorCheck (fun _ => true)) 0
             [Stdout (txt "Error: no such file"); Stderr (txt "failed");
              ProcExit (Some 1)] in
  mOutput m = txt "Error: no such file" /\
  mErrors m = [] /\
  uncaught m = [TypeError "errorMode.test is not a function";
                TypeError "errorMode.test is not a function"] /\
  promise m = Some (RejectedExit (txt "1") 1 (txt "Error: no such file")).
Proof. vm_compute. repeat split; reflexivity. Qed.

Lemma ignore_errors_never_rejects_witness :
  promise (monitorProcess (fun _ => false) (fun _ => false) IGNORE_ERRORS 0
             [ProcError (txt "spawn ENOENT")])
  = Some (Resolved []) /\
  isRejection (Resolved []) = false.
Proof.
  split; [reflexivity|].
  apply (ignore_errors_never_rejects (fun _ => false) (fun _ => false)
           IGNORE_ERRORS 0 [ProcError (txt "spawn ENOENT")] (Resolved [])).
  - reflexivity.
  - reflexivity.
Defined.

Lemma done_only_with_stream_0_or_minus_1_witness :
  In (Some (txt "1"), Some (-1), true)
     (marks (monitorProcess (fun _ => false) (fun _ => false) DEFAULT 0
               [Stderr (txt "x"); ProcExit (Some 1)])) /\
  (Some (-1) = Some 0 \/ Some (-1) = Some (-1)).
Proof.
  assert (H : In (Some (txt "1"), Some (-1), true)
                (marks (monitorProcess (fun _ => false) (fun _ => false)
                          DEFAULT 0 [Stderr (txt "x"); ProcExit (Some 1)])))
    by (right; left; reflexivity).
  split; [exact H|].
  exact (done_only_with_stream_0_or_minus_1 (fun _ => false) (fun _ => false)
           DEFAULT 0 [Stderr (txt "x"); ProcExit (Some 1)] (Some (txt "1"))
           (Some (-1)) H).
Defined.

(* ------------------------------------------------------------------ *)
(** ** [stripFormatting] *)

Lemma replaceAll_erase_length (r : re) (s : text) :
  forall skip,
    (length (replaceAll r (fun _ _ => []) skip s) <= length s)%nat.
Proof.
  induction s as [|a s IH]; intros skip.
  - destruct skip; cbn [replaceAll]; [|cbn; lia].
    destruct (matchAt r []) as [[n c]|]; cbn; lia.
  - destruct skip as [|j]; cbn [replaceAll].
    + destruct (matchAt r (a :: s)) as [[n c]|]; cbn [app length].
      * destruct n as [|j]; cbn [length];
          [specialize (IH 0%nat)|specialize (IH j)]; lia.
      * specialize (IH 0%nat). lia.
    + specialize (IH j). cbn [length]. lia.
Qed.

Lemma letter_not_parameter (a : ascii) :
  isLetter a = true -> isParameter a = false.
Proof.
  destruct a as [[] [] [] [] [] [] [] []]; vm_compute; congruence.
Qed.

Lemma matchAt_reFormatting_none (a : ascii) (s : text) :
  a <> escape -> matchAt reFormatting (a :: s) = None.
Proof.
  intros H. unfold matchAt, reFormatting. cbn [cats exec].
  destruct (Ascii.eqb escape a) eqn:E; [|reflexivity].
  apply Ascii.eqb_eq in E. congruence.
Qed.

Lemma matchAt_reFormatting (params : text) (letter : ascii) (rest : text) :
  forallb isParameter params = true -> isLetter letter = true ->
  matchAt reFormatting ((escape :: "["%char :: params ++ [letter]) ++ rest)
  = Some (length (escape :: "["%char :: params ++ [letter]), []).
Proof.
  intros Hp Hl. unfold matchAt, reFormatting.
  cbn [cats exec app]. rewrite Ascii.eqb_refl.
  cbn [txt list_ascii_of_string stripPrefix Ascii.eqb Bool.eqb].
  rewrite <- app_assoc. cbn [app].
  erewrite manyGreedy_through; [reflexivity|exact Hp|].
  cbn [manyGreedy]. rewrite (letter_not_parameter _ Hl), Hl.
  f_equal. f_equal. cbn [length]. rewrite !length_app. cbn [length]. lia.
Qed.

(** X20. [stripFormatting] removes the escape sequences and nothing else.
    The result is never longer than the text; a text without the escape
    character is returned as it is; and an escape character followed by
    [[], digits and semicolons, and a letter is dropped from a text whose
    head has no escape character, the rest being stripped in turn. *)
Theorem stripFormatting_removes_escape_sequences
        (plain params : text) (letter : ascii) (rest : text) :
  ~ In escape plain ->
  forallb isParameter params = true -> isLetter letter = true ->
  stripFormatting (plain ++ escape :: "["%char :: params ++ letter :: rest)
  = plain ++ stripFormatting rest /\
  stripFormatting plain = plain /\
  (forall s, (length (stripFormatting s) <= length s)%nat).
Proof.
  intros Hplain Hp Hl.
  assert (Hpass : forall tail u a v,
             plain = u ++ a :: v ->
             matchAt reFormatting (a :: v ++ tail) = None).
  { intros tail u a v E. apply matchAt_reFormatting_none.
    intros ->. apply Hplain. rewrite E. apply in_or_app. right. left.
    reflexivity. }
  split; [|split].
  - unfold stripFormatting. rewrite replaceAll_pass by apply Hpass.
    f_equal.
    replace (escape :: "["%char :: params ++ letter :: rest)
      with (escape :: ("["%char :: params ++ [letter]) ++ rest)
      by (cbn [app]; rewrite <- app_assoc; reflexivity).
    rewrite (replaceAll_match reFormatting _ escape
               ("["%char :: params ++ [letter]) rest [])
      by (apply (matchAt_reFormatting params letter rest Hp Hl)).
    reflexivity.
  - unfold stripFormatting. rewrite <- (app_nil_r plain) at 1.
    rewrite replaceAll_pass by apply Hpass.
    cbn. apply app_nil_r.
  - intros s. apply replaceAll_erase_length.
Qed.

Lemma stripFormatting_removes_escape_sequences_witness :
  stripFormatting (txt "frame=" ++ escape :: "["%char :: txt "1;31" ++ "m"%char
                     :: txt "12")
  = txt "frame=" ++ stripFormatting (txt "12") /\
  stripFormatting (txt "frame=") = txt "frame=" /\
  (forall s, (length (stripFormatting s) <= length s)%nat).
Proof.
  apply (stripFormatting_removes_escape_sequences (txt "frame=") (txt "1;31")
           "m"%char (txt "12")).
  - vm_compute. intuition discriminate.
  - reflexivity.
  - reflexivity.
Defined.

(* ------------------------------------------------------------------ *)
(** ** [escapeArg] *)

Lemma replaceAll_char (c : ascii) (rep : text) (s : text) :
  replaceAll (Lit (String c "")) (fun _ _ => rep) 0 s
  = flat_map (fun a => if Ascii.eqb c a then rep else [a]) s.
Proof.
  induction s as [|a s IH]; [reflexivity|].
  cbn [replaceAll flat_map]. unfold matchAt.
  cbn [exec txt list_ascii_of_string stripPrefix].
  destruct (Ascii.eqb c a).
  - replace (length (a :: s) - length s)%nat with 1%nat by (cbn; lia).
    rewrite IH. reflexivity.
  - rewrite IH. reflexivity.
Qed.

Lemma escapeArg_quoted (s : text) :
  escapeArg s
  = if existsb needsQuotes s
    then quote :: flat_map escapedChar s ++ [quote]
    else s.
Proof.
  unfold escapeArg. rewrite regexTest_class.
  destruct (existsb needsQuotes s); [|reflexivity].
  f_equal. f_equal. rewrite !replaceAll_char.
  induction s as [|a s IH]; [reflexivity|].
  cbn [flat_map]. rewrite flat_map_app, IH. f_equal.
  unfold escapedChar. rewrite (Ascii.eqb_sym a backslash), (Ascii.eqb_sym a quote).
  destruct (Ascii.eqb backslash a) eqn:E1.
  - reflexivity.
  - cbn [flat_map app]. destruct (Ascii.eqb quote a); reflexivity.
Qed.

Lemma escapedChar_cases (a : ascii) :
  escapedChar a = [backslash; a] \/ (escapedChar a = [a] /\ a <> backslash).
Proof.
  unfold escapedChar.
  destruct (Ascii.eqb a backslash) eqn:E1.
  - apply Ascii.eqb_eq in E1. subst. left. reflexivity.
  - apply Ascii.eqb_neq in E1.
    destruct (Ascii.eqb a quote) eqn:E2.
    + apply Ascii.eqb_eq in E2. subst. left. reflexivity.
    + right. split; [reflexivity|exact E1].
Qed.

Lemma escapedChar_injective (s : text) :
  forall t, flat_map escapedChar s = flat_map escapedChar t -> s = t.
Proof.
  induction s as [|a s IH]; intros [|b t] H.
  - reflexivity.
  - exfalso. cbn [flat_map] in H.
    destruct (escapedChar_cases b) as [E|[E _]]; rewrite E in H;
      discriminate H.
  - exfalso. cbn [flat_map] in H.
    destruct (escapedChar_cases a) as [E|[E _]]; rewrite E in H;
      discriminate H.
  - cbn [flat_map] in H.
    destruct (escapedChar_cases a) as [Ea|[Ea Na]];
      destruct (escapedChar_cases b) as [Eb|[Eb Nb]];
      rewrite Ea, Eb in H; cbn [app] in H.
    + injection H as -> H. f_equal. apply IH, H.
    + injection H as Hb _. congruence.
    + injection H as Hb _. congruence.
    + injection H as -> H. f_equal. apply IH, H.
Qed.

Lemma quoted_has_quote (s : text) :
  existsb needsQuotes (quote :: s) = true.
Proof. reflexivity. Qed.

(** X21. [escapeArg] tells the arguments apart. An argument without a
    space, a quote or a backslash is printed as it is; any other is put
    between quotes with a backslash before each quote and each backslash;
    and two arguments that are printed alike are the same argument. *)
Theorem escapeArg_injective (s t : text) :
  escapeArg s
  = (if existsb needsQuotes s
     then quote :: flat_map escapedChar s ++ [quote]
     else s) /\
  (escapeArg s = escapeArg t -> s = t).
Proof.
  split; [apply escapeArg_quoted|].
  rewrite !escapeArg_quoted.
  destruct (existsb needsQuotes s) eqn:Es; destruct (existsb needsQuotes t) eqn:Et;
    intros H.
  - injection H as H. apply app_inv_tail in H.
    apply escapedChar_injective, H.
  - subst t. rewrite quoted_has_quote in Et. discriminate Et.
  - subst s. rewrite quoted_has_quote in Es. discriminate Es.
  - exact H.
Qed.

Lemma escapeArg_injective_witness :
  escapeArg (txt "Tom & Jerry") = quote :: txt "Tom & Jerry" ++ [quote] /\
  (escapeArg (txt "Tom & Jerry") = escapeArg (txt "Tom & Jerry") ->
   txt "Tom & Jerry" = txt "Tom & Jerry").
Proof.
  apply (escapeArg_injective (txt "Tom & Jerry") (txt "Tom & Jerry")).
Defined.

(* ------------------------------------------------------------------ *)
(** ** The audio loop *)

Lemma audioAttempt_next (args : list string) (j : nat) (v : string) :
  <[4%nat := v]> (audioAttempt args j) = <[4%nat := v]> args.
Proof.
  destruct j; [reflexivity|]. cbn [audioAttempt]. apply list_insert_insert_eq.
Qed.

Lemma failsBefore_tail (e : option error) (runs : list (option error)) (k : nat) :
  failsBefore (e :: runs) (S k) -> failsBefore runs k.
Proof. intros H j Hj. apply (H (S j)). lia. Qed.

(** One iteration whose encoder succeeds, and one whose encoder fails. *)
Lemma audio_iteration_ok (audioPath : string) (a : list string)
      (partial : option text) (w : World) :
  exists w',
    (safeUnlink (tmp audioPath) >>
     runFfmpeg a (tmp audioPath) (Ok (txt "audio")) partial >>
     rename (tmp audioPath) audioPath) w = (Returned tt, w') /\
    spawns w' = spawns w ++ [("ffmpeg", a)] /\
    files w' !! audioPath = Some (txt "audio").
Proof.
  cbv [bind safeUnlink runFfmpeg rename writeFile spawn setFiles getFiles ret
       throw].
  destruct (files w !! tmp audioPath); cbn [files];
    rewrite lookup_insert_eq;
    (eexists; split; [reflexivity|]); cbn [files spawns];
    (split; [reflexivity|apply lookup_insert_eq]).
Qed.

Lemma audio_iteration_fails (audioPath : string) (a : list string) (e : error)
      (partial : option text) (w : World) :
  exists w',
    (safeUnlink (tmp audioPath) >>
     runFfmpeg a (tmp audioPath) (Throw e) partial >>
     rename (tmp audioPath) audioPath) w = (Thrown e, w') /\
    spawns w' = spawns w ++ [("ffmpeg", a)].
Proof.
  cbv [bind safeUnlink runFfmpeg rename writeFile spawn setFiles getFiles ret
       throw].
  destruct (files w !! tmp audioPath); destruct partial;
    (eexists; split; [reflexivity|reflexivity]).
Qed.

Section AudioFacts.
Variables (errorReportPath audioPath : string) (args : list string).
(** What the runs that fail leave under the temporary path. *)
Variable leftover : list string -> option text.

Lemma audioLoop_step (fuel i : nat) (e : error) (runs : list (option error))
      (w : World) :
  (1 <= fuel)%nat ->
  exists w1,
    spawns w1 = spawns w ++ [("ffmpeg", audioAttempt args i)] /\
    audioLoop (S fuel) (Z.of_nat i) (Z.of_nat (i + S fuel)) 0 errorReportPath
      audioPath (audioAttempt args i) (Some e :: runs) leftover w
    = audioLoop fuel (Z.of_nat (S i)) (Z.of_nat (S i + fuel)) 0 errorReportPath
        audioPath (audioAttempt args (S i)) runs leftover w1.
Proof.
  intros Hfuel. cbn [audioLoop].
  destruct (audio_iteration_fails audioPath (audioAttempt args i) e
              (leftover (audioAttempt args i)) w)
    as (w1 & E1 & S1).
  exists w1. split; [exact S1|].
  unfold try at 1. rewrite E1.
  replace (Z.of_nat i =? Z.of_nat (i + S fuel) - 1) with false
    by (symmetry; apply Z.eqb_neq; lia).
  cbn [negb andb Z.eqb tail]. rewrite audioAttempt_next.
  replace (Z.of_nat i + 1) with (Z.of_nat (S i)) by lia.
  replace (Z.of_nat (i + S fuel)) with (Z.of_nat (S i + fuel)) by lia.
  reflexivity.
Qed.

Lemma audioLoop_succeeds (k : nat) :
  forall fuel i runs w,
    (k < fuel)%nat -> failsBefore runs k ->
    runs !! k = None \/ runs !! k = Some None ->
    exists w',
      audioLoop fuel (Z.of_nat i) (Z.of_nat (i + fuel)) 0 errorReportPath
        audioPath (audioAttempt args i) runs leftover w
      = (Returned tt, w') /\
      spawns w'
      = spawns w ++ map (fun j => ("ffmpeg", audioAttempt args j)) (seq i (S k)) /\
      files w' !! audioPath = Some (txt "audio").
Proof.
  induction k as [|k IH]; intros fuel i runs w Hk Hf Hr.
  - destruct fuel as [|fuel]; [lia|]. cbn [audioLoop].
    assert (E : match runs with
                | Some e :: _ => Throw e
                | _ => Ok (txt "audio")
                end = Ok (txt "audio")).
    { destruct runs as [|[e|] runs]; try reflexivity.
      destruct Hr as [Hr|Hr]; discriminate Hr. }
    rewrite E.
    destruct (audio_iteration_ok audioPath (audioAttempt args i)
                (leftover (audioAttempt args i)) w)
      as (w' & E1 & S1 & F1).
    exists w'. unfold try. rewrite E1. auto.
  - destruct fuel as [|fuel]; [lia|].
    destruct (Hf 0%nat ltac:(lia)) as [e He].
    destruct runs as [|r runs]; [discriminate He|].
    cbn in He. injection He as ->.
    destruct (audioLoop_step fuel i e runs w ltac:(lia)) as (w1 & S1 & E1).
    rewrite E1.
    destruct (IH fuel (S i) runs w1 ltac:(lia) (failsBefore_tail _ _ _ Hf) Hr)
      as (w' & E & Sp & F).
    exists w'. split; [exact E|]. split; [|exact F].
    rewrite Sp, S1, <- app_assoc. reflexivity.
Qed.

Lemma audioLoop_gives_up (fuel : nat) :
  forall i runs w,
    (1 <= fuel)%nat -> failsBefore runs fuel ->
    exists e w',
      runs !! (fuel - 1)%nat = Some (Some e) /\
      audioLoop fuel (Z.of_nat i) (Z.of_nat (i + fuel)) 0 errorReportPath
        audioPath (audioAttempt args i) runs leftover w
      = (Thrown e, w') /\
      spawns w'
      = spawns w ++ map (fun j => ("ffmpeg", audioAttempt args j)) (seq i fuel) /\
      files w' !! errorReportPath = Some (errorText e).
Proof.
  induction fuel as [|fuel IH]; intros i runs w Hfuel Hf; [lia|].
  destruct (Hf 0%nat ltac:(lia)) as [e He].
  destruct runs as [|r runs]; [discriminate He|].
  cbn in He. injection He as ->.
  destruct fuel as [|fuel].
  - exists e. cbn [audioLoop].
    destruct (audio_iteration_fails audioPath (audioAttempt args i) e
                (leftover (audioAttempt args i)) w)
      as (w1 & E1 & S1).
    unfold try. rewrite E1.
    replace (Z.of_nat i =? Z.of_nat (i + 1) - 1) with true
      by (symmetry; apply Z.eqb_eq; lia).
    cbv [bind writeFile setFiles getFiles throw].
    eexists. split; [reflexivity|]. split; [reflexivity|].
    cbn [files spawns map seq]. split; [exact S1|apply lookup_insert_eq].
  - destruct (audioLoop_step (S fuel) i e runs w ltac:(lia)) as (w1 & S1 & E1).
    rewrite E1.
    destruct (IH (S i) runs w1 ltac:(lia) (failsBefore_tail _ _ _ Hf))
      as (e' & w' & Hlast & E & Sp & F).
    exists e', w'. split; [|split; [exact E|split; [|exact F]]].
    + cbn [Nat.sub] in *. rewrite Nat.sub_0_r in Hlast. exact Hlast.
    + rewrite Sp, S1, <- app_assoc. reflexivity.
Qed.

(** X22. The audio loop tries the tracks in turn. In a loop over [n]
    tracks, when the encoder fails [k < n] times and then succeeds, the
    loop returns after [k + 1] processes, the first with the command line
    as assembled and the others with the tracks 1 to [k] in [args[4]], and
    the audio file is there; when the encoder fails [n] times, the loop
    has started [n] processes, the error report is written, and the last
    error is thrown. *)
Theorem audio_loop_tries_tracks_in_turn
        (n k : nat) (runs : list (option error)) (w : World) :
  (1 <= n)%nat -> (k <= n)%nat -> failsBefore runs k ->
  (k < n -> runs !! k = None \/ runs !! k = Some None)%nat ->
  exists w',
    spawns w'
    = spawns w
      ++ map (fun j => ("ffmpeg", audioAttempt args j)) (seq 0 (Nat.min (S k) n)) /\
    ((k < n)%nat ->
     audioLoop n 0 (Z.of_nat n) 0 errorReportPath audioPath args runs
       leftover w
     = (Returned tt, w') /\
     files w' !! audioPath = Some (txt "audio")) /\
    (k = n ->
     exists e,
       runs !! (n - 1)%nat = Some (Some e) /\
       audioLoop n 0 (Z.of_nat n) 0 errorReportPath audioPath args runs
         leftover w
       = (Thrown e, w') /\
       is_Some (files w' !! errorReportPath)).
Proof.
  intros Hn Hk Hf Hr.
  destruct (Nat.eq_dec k n) as [->|Hne].
  - destruct (audioLoop_gives_up n 0 runs w Hn Hf) as (e & w' & Hl & E & Sp & F).
    exists w'. rewrite Nat.min_r by lia. split; [exact Sp|].
    split; [lia|]. intros _. exists e. rewrite F. eauto.
  - assert (Hlt : (k < n)%nat) by lia.
    destruct (audioLoop_succeeds k n 0 runs w Hlt Hf (Hr Hlt))
      as (w' & E & Sp & F).
    exists w'. rewrite Nat.min_l by lia. split; [exact Sp|].
    split; [auto|]. intros ->. lia.
Qed.
End AudioFacts.

Lemma audio_loop_tries_tracks_in_turn_witness :
  let args := audioArgs film 0 false 3 "/mnt/streaming/Movies/Film.audio.webm" in
  exists w',
    spawns w'
    = map (fun j => ("ffmpeg", audioAttempt args j)) (seq 0 2) /\
    audioLoop 3 0 3 0 "/mnt/streaming/Movies/error-report.txt"
      "/mnt/streaming/Movies/Film.audio.webm" args
      [Some (ProcessError "1" 1); None] (fun _ => Some (txt "aud")) emptyWorld
    = (Returned tt, w') /\
    files w' !! "/mnt/streaming/Movies/Film.audio.webm" = Some (txt "audio").
Proof.
  intros args.
  destruct (audio_loop_tries_tracks_in_turn
              "/mnt/streaming/Movies/error-report.txt"
              "/mnt/streaming/Movies/Film.audio.webm" args
              (fun _ => Some (txt "aud")) 3 1
              [Some (ProcessError "1" 1); None] emptyWorld)
    as (w' & Sp & Hok & _).
  - lia.
  - lia.
  - intros j Hj. assert (j = 0%nat) as -> by lia. eexists. reflexivity.
  - intros _. right. reflexivity.
  - exists w'. destruct (Hok ltac:(lia)) as [E F]. auto.
Defined.

(* ------------------------------------------------------------------ *)
(** ** A failed assembly of the manifest *)



(* ------------------------------------------------------------------ *)
(** ** The root of the output paths *)

Lemma stripPrefix_some (p s r : text) :
  stripPrefix p s = Some r -> s = p ++ r.
Proof.
  revert s. induction p as [|a p IH]; intros s H.
  - cbn in H. injection H as ->. reflexivity.
  - destruct s as [|b s]; [discriminate H|]. cbn in H.
    destruct (Ascii.eqb a b) eqn:E; [|discriminate H].
    apply Ascii.eqb_eq in E. subst b. cbn. f_equal. apply IH, H.
Qed.

Lemma length_txt (s : string) : length (txt s) = String.length s.
Proof.
  unfold txt. induction s as [|a s IH]; [reflexivity|].
  cbn. rewrite IH. reflexivity.
Qed.

Lemma manyGreedy_none {A} (p : ascii -> bool) (k : text -> option A)
      (c : ascii) (s : text) :
  (forall x, ~ In c x -> k x = None) -> ~ In c s ->
  manyGreedy p k s = None.
Proof.
  intros Hk. induction s as [|a s IH]; intros Hs; [apply Hk, Hs|].
  cbn [manyGreedy]. destruct (p a); [|apply Hk, Hs].
  rewrite IH by (intros F; apply Hs; right; exact F).
  apply Hk, Hs.
Qed.

Lemma searchFrom_re2D_none (s : text) :
  ~ In "("%char s -> forall i, searchFrom re2D i s = None.
Proof.
  assert (Hm : forall x, ~ In "("%char x -> matchAt re2D x = None).
  { intros x Hx. unfold matchAt, re2D. cbn [cats exec].
    apply (manyGreedy_none _ _ "("%char); [|exact Hx].
    intros y Hy. cbn [txt list_ascii_of_string stripPrefix].
    destruct y as [|b y]; [reflexivity|].
    destruct (Ascii.eqb "(" b) eqn:E; [|reflexivity].
    apply Ascii.eqb_eq in E. exfalso. apply Hy. left. symmetry. exact E. }
  induction s as [|a s IH]; intros Hs i.
  - cbn [searchFrom]. rewrite (Hm [] Hs). reflexivity.
  - cbn [searchFrom]. rewrite (Hm _ Hs).
    apply IH. intros F. apply Hs. right. exact F.
Qed.

Lemma matchAt_reMkv_inside (a : ascii) (v : text) :
  matchAt reMkv (a :: v ++ txt ".mkv") = None.
Proof.
  unfold matchAt, reMkv. cbn [cats exec].
  destruct (stripPrefix (txt ".mkv") (a :: v ++ txt ".mkv")) as [r|] eqn:E;
    [|reflexivity].
  apply stripPrefix_some in E.
  destruct r as [|b r]; [|reflexivity].
  apply (f_equal (@length _)) in E.
  cbn [length] in E. rewrite !length_app in E. cbn in E. lia.
Qed.

Section RootFacts.
Variables STREAM_SHARE VIDEO_SOURCE : string.

(** X24. The output mirrors the source tree. For a file [rel.mkv] under
    [VIDEO_SOURCE] whose relative path has no opening parenthesis, the
    root of the output paths is [rel] under [STREAM_SHARE]: the prefix of
    the source and the extension are dropped and nothing else changes. *)
Theorem mpdRoot_mirrors_source (rel : string) :
  ~ In "("%char (txt rel) ->
  mpdRootOf STREAM_SHARE VIDEO_SOURCE (VIDEO_SOURCE +:+ rel +:+ ".mkv")
  = STREAM_SHARE +:+ rel.
Proof.
  intros Hrel. unfold mpdRootOf. f_equal.
  rewrite !txt_app, <- length_txt, drop_app_length.
  assert (H2 : erase re2D (txt rel ++ txt ".mkv") = txt rel ++ txt ".mkv").
  { unfold erase, replaceFirst. rewrite searchFrom_re2D_none; [reflexivity|].
    intros F. apply in_app_or in F. destruct F as [F|F]; [exact (Hrel F)|].
    cbn in F. intuition discriminate. }
  rewrite H2. unfold erase, replaceFirst.
  rewrite searchFrom_pass by (intros u a v _; apply matchAt_reMkv_inside).
  replace (searchFrom reMkv (0 + length (txt rel)) (txt ".mkv"))
    with (Some (length (txt rel), 4%nat, @nil (nat * text))) by reflexivity.
  cbn [app]. rewrite take_app_length.
  replace (length (txt rel) + 4)%nat with (length (txt rel ++ txt ".mkv"))
    by (rewrite length_app; reflexivity).
  rewrite drop_all, app_nil_r. apply str_txt.
Qed.
End RootFacts.

Lemma mpdRoot_mirrors_source_witness :
  mpdRootOf linuxShare linuxSource (linuxSource +:+ "/Movies/Film" +:+ ".mkv")
  = linuxShare +:+ "/Movies/Film".
Proof.
  apply (mpdRoot_mirrors_source linuxShare linuxSource "/Movies/Film").
  vm_compute. intuition discriminate.
Defined.

(* ------------------------------------------------------------------ *)
(** ** One process for a rendition *)

Section Tally.
Variable n : string.

Let occ (l : list VideoRender) : nat := count_occ string_dec (map name l) n.
Let occF (l : list (VideoRender * branch)) : nat :=
  count_occ string_dec (map (fun tb => name (fst tb)) l) n.

Lemma tally_parts (st : Sched) :
  tally n st
  = (occ (videoQueue st) + occ (redoQueue st) + occF (live st)
     + occF (renaming st))%nat.
Proof. unfold tally, known, occ, occF. rewrite !count_occ_app. lia. Qed.

Lemma occ_app (l1 l2 : list VideoRender) :
  occ (l1 ++ l2) = (occ l1 + occ l2)%nat.
Proof. unfold occ. rewrite map_app. apply count_occ_app. Qed.

Lemma occF_app (l1 l2 : list (VideoRender * branch)) :
  occF (l1 ++ l2) = (occF l1 + occF l2)%nat.
Proof. unfold occF. rewrite map_app. apply count_occ_app. Qed.

Lemma occF_delete (l : list (VideoRender * branch)) (i : nat)
      (tb : VideoRender * branch) :
  l !! i = Some tb -> occF l = (occF (delete i l) + occ [fst tb])%nat.
Proof.
  intros H. rewrite <- (take_drop_middle l i tb H) at 1.
  rewrite delete_take_drop, !occF_app.
  change (tb :: drop (S i) l) with ([tb] ++ drop (S i) l).
  rewrite occF_app. unfold occF at 2, occ. cbn [map]. lia.
Qed.

Lemma occ_renamed (b : branch) (t : VideoRender) (p : option nat) (k : Z) :
  occF [(withProcess p (withTries k t), b)] = occ [t] /\
  occ [withProcess p (withTries k t)] = occ [t] /\
  occ [withTries k (withProcess p t)] = occ [t] /\
  occF [(withProcess p t, b)] = occ [t] /\
  occ [withProcess p t] = occ [t] /\
  occF [(t, b)] = occ [t].
Proof. unfold occ, occF. cbn. auto 10. Qed.

Lemma checkQueueFuel_tally (fuel : nat) :
  forall st, tally n (checkQueueFuel fuel st) = tally n st.
Proof.
  induction fuel as [|fuel IH]; intros st; [reflexivity|].
  cbn [checkQueueFuel].
  destruct ((running st <? simultaneousMax)
            && (0 <? Z.of_nat (length (videoQueue st)))).
  - destruct (pop (videoQueue st)) as [[task rest]|] eqn:Hpop; [|reflexivity].
    destruct (snoc_cases (videoQueue st)) as [E|(l' & b & E)];
      rewrite E in *; [discriminate Hpop|].
    rewrite pop_snoc in Hpop. injection Hpop as -> ->.
    rewrite IH, !tally_parts.
    cbn [startTask withRunning withQueues videoQueue redoQueue live renaming
         spawned].
    rewrite E, occ_app, occF_app.
    destruct (occ_renamed Parallel task (Some (length (spawned st))) 0)
      as (_ & _ & _ & -> & _).
    lia.
  - destruct ((running st =? 0) && (0 <? Z.of_nat (length (redoQueue st)))).
    + destruct (redoQueue st) as [|task rest] eqn:ER; [reflexivity|].
      rewrite !tally_parts.
      cbn [startTask withQueues videoQueue redoQueue live renaming spawned].
      rewrite ER, occF_app.
      change (task :: rest) with ([task] ++ rest). rewrite occ_app.
      destruct (occ_renamed Redo task (Some (length (spawned st))) 0)
        as (_ & _ & _ & -> & _).
      lia.
    + destruct (running st =? 0); reflexivity.
Qed.

Lemma checkQueue_tally (st : Sched) : tally n (checkQueue st) = tally n st.
Proof. apply checkQueueFuel_tally. Qed.

Lemma report_tally now data stream m dn st :
  tally n (report now data stream m dn st) = tally n st.
Proof.
  rewrite !tally_parts.
  destruct (report_fields now data stream m dn st)
    as (E1 & E2 & _ & E4 & E5 & _).
  rewrite E1, E2, E4, E5. reflexivity.
Qed.

Lemma redoFailed_tally now err (t : VideoRender) st :
  (tally n (redoFailed now err t st) <= tally n st + occ [t])%nat.
Proof.
  unfold redoFailed. cbn [tries withTries].
  destruct (_ <? maxTries).
  - rewrite checkQueue_tally, report_tally, !tally_parts.
    cbn [withQueues videoQueue redoQueue live renaming]. rewrite occ_app.
    destruct (occ_renamed Redo t None (tries t + 1)) as (_ & -> & _). lia.
  - rewrite !tally_parts. cbn [cleanUpAndFail videoQueue redoQueue live renaming].
    lia.
Qed.

Lemma failed_tally now err (tb : VideoRender * branch) (i : nat) st :
  live st !! i = Some tb ->
  (tally n (failed now err tb (withFlight (delete i (live st)) (renaming st) st))
   <= tally n st)%nat.
Proof.
  intros Hi. pose proof (occF_delete _ _ _ Hi) as Hd.
  unfold failed. destruct (snd tb).
  - unfold parallelFailed.
    destruct (occ_renamed Parallel (fst tb) None (tries (fst tb) + 1))
      as (_ & _ & E & _).
    destruct (retryInParallel _ _);
      rewrite checkQueue_tally, report_tally, !tally_parts;
      cbn [withQueues withRunning withFlight videoQueue redoQueue live renaming
           tries withProcess];
      [change (?t :: videoQueue st) with ([t] ++ videoQueue st)|];
      rewrite occ_app, E; lia.
  - etransitivity; [apply redoFailed_tally|].
    rewrite !tally_parts.
    cbn [withFlight videoQueue redoQueue live renaming]. lia.
Qed.

Lemma deliver_tally (e : event) (st : Sched) :
  e <> TimerFired -> (tally n (deliver e st) <= tally n st)%nat.
Proof.
  intros He.
  destruct e as [i stream data now|i code errs now|i msg now|i err now|];
    cbn [deliver]; [| | | |congruence].
  - destruct (live st !! i); [rewrite report_tally|]; lia.
  - destruct (live st !! i) as [tb|] eqn:Hi; [|lia].
    rewrite <- (report_tally now (txt (pretty code))
                  (if code =? 0 then 0 else -1) (name (fst tb)) true st).
    destruct (report_fields now (txt (pretty code))
                (if code =? 0 then 0 else -1) (name (fst tb)) true st)
      as (_ & _ & _ & F4 & _).
    set (s := report _ _ _ _ _ st) in *. rewrite <- F4 in Hi.
    destruct (code =? 0); [|apply failed_tally; exact Hi].
    pose proof (occF_delete _ _ _ Hi) as Hd. rewrite !tally_parts.
    cbn [withFlight videoQueue redoQueue live renaming].
    rewrite occF_app.
    destruct (occ_renamed (snd tb) (fst tb) None 0) as (_ & _ & _ & _ & _ & E).
    rewrite <- surjective_pairing in E. rewrite E. lia.
  - destruct (live st !! i) as [tb|] eqn:Hi; [|lia].
    rewrite <- (report_tally now (txt msg) (-1) (name (fst tb)) true st).
    destruct (report_fields now (txt msg) (-1) (name (fst tb)) true st)
      as (_ & _ & _ & F4 & _).
    set (s := report _ _ _ _ _ st) in *. rewrite <- F4 in Hi.
    apply failed_tally. exact Hi.
  - destruct (renaming st !! i) as [tb|] eqn:Hi; [|lia].
    pose proof (occF_delete _ _ _ Hi) as Hd.
    assert (H0 : (tally n (logRename err (fst tb)
                     (withFlight (live st) (delete i (renaming st)) st))
                  + occ [fst tb] = tally n st)%nat).
    { rewrite !tally_parts.
      cbn [logRename withFlight videoQueue redoQueue live renaming]. lia. }
    destruct (snd tb).
    + rewrite checkQueue_tally, tally_parts in *.
      cbn [withRunning logRename withFlight videoQueue redoQueue live renaming]
        in *.
      lia.
    + destruct err as [e|].
      * etransitivity; [apply redoFailed_tally|].
        rewrite checkQueue_tally. lia.
      * rewrite checkQueue_tally. lia.
Qed.
End Tally.

Lemma reachable_tally (queue : list VideoRender) (p : VideoProgress)
      (st : Sched) (n : string) :
  reachable queue p st -> settled st = None ->
  (tally n st <= count_occ string_dec (map name queue) n)%nat.
Proof.
  induction 1 as [|st e R IH Hopen]; intros Hs.
  - unfold schedule. rewrite checkQueue_tally. unfold tally, known.
    cbn [videoQueue redoQueue live renaming map]. rewrite !app_nil_r. lia.
  - assert (He : e = TimerFired \/ e <> TimerFired)
      by (destruct e; [right|right|right|right|left]; congruence).
    destruct He as [->|He].
    + cbn [deliver] in *. destruct (timers st) as [|err rest].
      * apply IH, Hopen.
      * unfold cleanUpAndFailTimeout, settle, withTimers in Hs.
        cbn [settled] in Hs. rewrite Hopen in Hs. discriminate Hs.
    + etransitivity; [apply deliver_tally, He|apply IH, Hopen].
Qed.

Lemma planStep_names (isMovie isExtra : bool) (pw ph : Z) (hv hd hm hs : bool)
      (mpdRoot : string) (present : string -> bool)
      (ffmpegArgs : Resolution -> string -> list string) (l : list Resolution) :
  forall acc,
    exists k,
      sublist k (map (fun r => pretty (h r) +:+ "p") l) /\
      map name (snd (fold_left
                       (planStep isMovie isExtra pw ph hv hd hm hs mpdRoot
                          present ffmpegArgs) l acc))
      = map name (snd acc) ++ k.
Proof.
  induction l as [|r l IH]; intros [dv q].
  - exists []. split; [constructor|]. cbn. rewrite app_nil_r. reflexivity.
  - cbn [fold_left map]. unfold planStep at 2.
    destruct (shouldSkipVideo _ _ _ _ _ _ _ _ _).
    + destruct (IH (dv, q)) as (k & Hk & E). exists k.
      split; [apply sublist_cons, Hk|exact E].
    + destruct (present _).
      * destruct (IH (if small r then dv
                      else dv ++ [renditionPath isMovie isExtra pw ph hv hd hm
                                    hs mpdRoot r], q)) as (k & Hk & E).
        exists k. split; [apply sublist_cons, Hk|exact E].
      * match goal with
        | |- context [fold_left _ l ?a] => destruct (IH a) as (k & Hk & E)
        end.
        exists ((pretty (h r) +:+ "p") :: k).
        split; [apply sublist_skip, Hk|].
        rewrite E. cbn [snd]. rewrite map_app, <- app_assoc. reflexivity.
Qed.

(** X25. One process for a rendition. In a run on tasks with distinct
    names, while the promise is pending, the tasks that wait in
    [videoQueue] and [redoQueue] and the tasks with a process or a rename
    in flight have distinct names: no task is held twice, so no two
    processes encode the same rendition at a time. *)
Theorem one_process_per_rendition
        (queue : list VideoRender) (p : VideoProgress) (st : Sched) :
  NoDup (map name queue) ->
  reachable queue p st -> settled st = None ->
  NoDup (known st).
Proof.
  intros Hq R Hs. apply NoDup_ListNoDup, (proj2 (NoDup_count_occ string_dec _)). intros n.
  etransitivity; [exact (reachable_tally queue p st n R Hs)|].
  apply (proj1 (NoDup_count_occ string_dec _)), NoDup_ListNoDup, Hq.
Qed.

(** X26. The planner queues a rendition once. The names of the tasks of
    the planned queue are distinct, so in every pending state of the run
    of the scheduler on that queue no rendition is held twice. *)
Theorem planned_renditions_run_once
        (isMovie isExtra : bool) (pw ph : Z) (hv hd hm hs : bool)
        (mpdRoot : string) (present : string -> bool)
        (ffmpegArgs : Resolution -> string -> list string)
        (p : VideoProgress) (st : Sched) :
  let queue :=
    plannedQueue isMovie isExtra pw ph hv hd hm hs mpdRoot present ffmpegArgs in
  NoDup (map name queue) /\
  (reachable queue p st -> settled st = None -> NoDup (known st)).
Proof.
  intros queue.
  assert (Hq : NoDup (map name queue)).
  { unfold queue, plannedQueue, plan.
    destruct (planStep_names isMovie isExtra pw ph hv hd hm hs mpdRoot present
                ffmpegArgs resolutions ([], [])) as (k & Hk & E).
    rewrite E. cbn [snd map app].
    apply (sublist_NoDup k (map (fun r => pretty (h r) +:+ "p") resolutions));
      [|exact Hk].
    apply (bool_decide_unpack _). vm_compute. exact I. }
  split; [exact Hq|]. intros R Hs.
  apply NoDup_ListNoDup, (proj2 (NoDup_count_occ string_dec _)). intros n.
  etransitivity; [exact (reachable_tally queue p st n R Hs)|].
  apply (proj1 (NoDup_count_occ string_dec _)), NoDup_ListNoDup, Hq.
Qed.

Lemma one_process_per_rendition_witness :
  NoDup (known (runEvents (schedule twoTasks (noMaps 7200000))
                  [Exit 1 1 "" 10; Exit 1 1 "" 20])).
Proof.
  apply (one_process_per_rendition twoTasks (noMaps 7200000)).
  - apply (bool_decide_unpack _). vm_compute. exact I.
  - apply reachable_runEvents.
  - vm_compute. reflexivity.
Defined.

Lemma planned_renditions_run_once_witness :
  NoDup (map name filmQueue) /\
  NoDup (known (deliver (Exit 0 1 "" 10) (schedule filmQueue (noMaps 7200000)))).
Proof.
  destruct (planned_renditions_run_once true false 1920 1080 true false false
              false "/mnt/streaming/Movies/Film" (fun _ => false)
              (fun _ path => [tmp path]) (noMaps 7200000)
              (deliver (Exit 0 1 "" 10) (schedule filmQueue (noMaps 7200000))))
    as [H1 H2].
  split; [exact H1|]. apply H2.
  - apply reach_step; [apply reach_start|vm_compute; reflexivity].
  - vm_compute. reflexivity.
Defined.
